(** * whisper-typer: hotkey listener, recording loop and text output

    A shallow embedding of [src/hotkey.cpp], the main loop of
    [src/typer.cpp] and [src/text-output.cpp].  Integers are [Z], strings
    are [string], the fields of a C++ object are the fields of a record and
    every call that leaves the process (a system call, a collaborator, a
    log line) is appended to a trace. *)

From Stdlib Require Import ZArith List String Ascii Bool Lia Permutation.
From Stdlib Require QArith_base.
From Stdlib Require Import DecimalString.
Import ListNotations.
Open Scope string_scope.
Open Scope list_scope.
Open Scope Z_scope.

(** ** Key codes of <linux/input-event-codes.h> used by the listener *)
Module Evdev.
Definition EV_KEY : Z := 1.

Definition KEY_ESC := 1.
Definition KEY_1 := 2.
Definition KEY_0 := 11.
Definition KEY_MINUS := 12.
Definition KEY_EQUAL := 13.
Definition KEY_BACKSPACE := 14.
Definition KEY_TAB := 15.
Definition KEY_Q := 16.
Definition KEY_W := 17.
Definition KEY_E := 18.
Definition KEY_R := 19.
Definition KEY_T := 20.
Definition KEY_Y := 21.
Definition KEY_U := 22.
Definition KEY_I := 23.
Definition KEY_O := 24.
Definition KEY_P := 25.
Definition KEY_LEFTBRACE := 26.
Definition KEY_RIGHTBRACE := 27.
Definition KEY_ENTER := 28.
Definition KEY_LEFTCTRL := 29.
Definition KEY_A := 30.
Definition KEY_S := 31.
Definition KEY_D := 32.
Definition KEY_F := 33.
Definition KEY_G := 34.
Definition KEY_H := 35.
Definition KEY_J := 36.
Definition KEY_K := 37.
Definition KEY_L := 38.
Definition KEY_SEMICOLON := 39.
Definition KEY_APOSTROPHE := 40.
Definition KEY_GRAVE := 41.
Definition KEY_LEFTSHIFT := 42.
Definition KEY_BACKSLASH := 43.
Definition KEY_Z := 44.
Definition KEY_X := 45.
Definition KEY_C := 46.
Definition KEY_V := 47.
Definition KEY_B := 48.
Definition KEY_N := 49.
Definition KEY_M := 50.
Definition KEY_COMMA := 51.
Definition KEY_DOT := 52.
Definition KEY_SLASH := 53.
Definition KEY_RIGHTSHIFT := 54.
Definition KEY_LEFTALT := 56.
Definition KEY_SPACE := 57.
Definition KEY_CAPSLOCK := 58.
Definition KEY_F1 := 59.
Definition KEY_F10 := 68.
Definition KEY_F11 := 87.
Definition KEY_F12 := 88.
Definition KEY_RIGHTCTRL := 97.
Definition KEY_SYSRQ := 99.
Definition KEY_RIGHTALT := 100.
Definition KEY_HOME := 102.
Definition KEY_UP := 103.
Definition KEY_PAGEUP := 104.
Definition KEY_LEFT := 105.
Definition KEY_RIGHT := 106.
Definition KEY_END := 107.
Definition KEY_DOWN := 108.
Definition KEY_PAGEDOWN := 109.
Definition KEY_INSERT := 110.
Definition KEY_DELETE := 111.
Definition KEY_PAUSE := 119.
Definition KEY_LEFTMETA := 125.
Definition KEY_RIGHTMETA := 126.

(** errno values tested by the read loop *)
Definition EIO : Z := 5.
Definition EAGAIN : Z := 11.
Definition EWOULDBLOCK : Z := 11.
Definition ENODEV : Z := 19.
End Evdev.

(** ** <cctype> in the "C" locale, and the string helpers of the sources *)
Module CType.
Definition code (c : ascii) : Z := Z.of_N (N_of_ascii c).

Definition isspace (c : ascii) : bool :=
    (code c =? 32) || ((9 <=? code c) && (code c <=? 13)).

Definition isdigit (c : ascii) : bool :=
    (48 <=? code c) && (code c <=? 57).

Definition tolower (c : ascii) : ascii :=
    if (65 <=? code c) && (code c <=? 90)
    then ascii_of_N (N_of_ascii c + 32) else c.

(** [std::transform(s.begin(), s.end(), s.begin(), tolower)] *)
Fixpoint lowercase (s : string) : string :=
    match s with
    | EmptyString => EmptyString
    | String c r => String (tolower c) (lowercase r)
    end.

Definition size (s : string) : Z := Z.of_nat (String.length s).

Definition empty (s : string) : bool :=
    match s with EmptyString => true | _ => false end.

(** [s[0]]; on the empty string this is the terminating NUL *)
Definition front (s : string) : Z :=
    match s with EmptyString => 0 | String c _ => code c end.

(** a 32-bit [int] in two's complement *)
Definition wrap_int (z : Z) : Z := (z + 2^31) mod 2^32 - 2^31.

Definition nz (z : Z) : bool := negb (z =? 0).
End CType.

(** ** [src/hotkey.cpp] *)
Module Hotkey.
Import Evdev CType.

(** Modifier flags (internal) *)
Definition MOD_CTRL : Z := Z.shiftl 1 0.
Definition MOD_SHIFT : Z := Z.shiftl 1 1.
Definition MOD_ALT : Z := Z.shiftl 1 2.
Definition MOD_SUPER : Z := Z.shiftl 1 3.

(** [struct HotkeyListener::Impl] *)
Record Impl := mkImpl {
  fds : list Z;
  key_code : Z;
  modmask : Z;
  ctrl_l : bool;
  ctrl_r : bool;
  shift_l : bool;
  shift_r : bool;
  alt_l : bool;
  alt_r : bool;
  super_l : bool;
  super_r : bool
}.

Definition Impl0 : Impl :=
  mkImpl [] 0 0 false false false false false false false false.

Definition set_fds (v : list Z) (m : Impl) : Impl :=
  mkImpl v (key_code m) (modmask m) (ctrl_l m) (ctrl_r m) (shift_l m)
         (shift_r m) (alt_l m) (alt_r m) (super_l m) (super_r m).

Definition set_hotkey (k mask : Z) (m : Impl) : Impl :=
  mkImpl (fds m) k mask (ctrl_l m) (ctrl_r m) (shift_l m)
         (shift_r m) (alt_l m) (alt_r m) (super_l m) (super_r m).

Definition set_ctrl_l (b : bool) (m : Impl) : Impl :=
  mkImpl (fds m) (key_code m) (modmask m) b (ctrl_r m) (shift_l m)
         (shift_r m) (alt_l m) (alt_r m) (super_l m) (super_r m).

Definition set_ctrl_r (b : bool) (m : Impl) : Impl :=
  mkImpl (fds m) (key_code m) (modmask m) (ctrl_l m) b (shift_l m)
         (shift_r m) (alt_l m) (alt_r m) (super_l m) (super_r m).

Definition set_shift_l (b : bool) (m : Impl) : Impl :=
  mkImpl (fds m) (key_code m) (modmask m) (ctrl_l m) (ctrl_r m) b
         (shift_r m) (alt_l m) (alt_r m) (super_l m) (super_r m).

Definition set_shift_r (b : bool) (m : Impl) : Impl :=
  mkImpl (fds m) (key_code m) (modmask m) (ctrl_l m) (ctrl_r m) (shift_l m)
         b (alt_l m) (alt_r m) (super_l m) (super_r m).

Definition set_alt_l (b : bool) (m : Impl) : Impl :=
  mkImpl (fds m) (key_code m) (modmask m) (ctrl_l m) (ctrl_r m) (shift_l m)
         (shift_r m) b (alt_r m) (super_l m) (super_r m).

Definition set_alt_r (b : bool) (m : Impl) : Impl :=
  mkImpl (fds m) (key_code m) (modmask m) (ctrl_l m) (ctrl_r m) (shift_l m)
         (shift_r m) (alt_l m) b (super_l m) (super_r m).

Definition set_super_l (b : bool) (m : Impl) : Impl :=
  mkImpl (fds m) (key_code m) (modmask m) (ctrl_l m) (ctrl_r m) (shift_l m)
         (shift_r m) (alt_l m) (alt_r m) b (super_r m).

Definition set_super_r (b : bool) (m : Impl) : Impl :=
  mkImpl (fds m) (key_code m) (modmask m) (ctrl_l m) (ctrl_r m) (shift_l m)
         (shift_r m) (alt_l m) (alt_r m) (super_l m) b.

(** The four logical modifiers: each is the OR of its left/right pair. *)
Definition ctrl (m : Impl) : bool := ctrl_l m || ctrl_r m.
Definition shift (m : Impl) : bool := shift_l m || shift_r m.
Definition alt (m : Impl) : bool := alt_l m || alt_r m.
Definition super (m : Impl) : bool := super_l m || super_r m.

(** [Impl::mods_match], early returns in source order *)
Definition mods_match (m : Impl) : bool :=
  (* Required modifiers must be held *)
  if nz (Z.land (modmask m) MOD_CTRL) && negb (ctrl m) then false else
  if nz (Z.land (modmask m) MOD_SHIFT) && negb (shift m) then false else
  if nz (Z.land (modmask m) MOD_ALT) && negb (alt m) then false else
  if nz (Z.land (modmask m) MOD_SUPER) && negb (super m) then false else
  (* Extra modifiers must NOT be held *)
  if negb (nz (Z.land (modmask m) MOD_CTRL)) && ctrl m then false else
  if negb (nz (Z.land (modmask m) MOD_SHIFT)) && shift m then false else
  if negb (nz (Z.land (modmask m) MOD_ALT)) && alt m then false else
  if negb (nz (Z.land (modmask m) MOD_SUPER)) && super m then false else
  true.

(** [Impl::update_modifier] *)
Definition update_modifier (code : Z) (pressed : bool) (m : Impl) : Impl :=
  if code =? KEY_LEFTCTRL then set_ctrl_l pressed m
  else if code =? KEY_RIGHTCTRL then set_ctrl_r pressed m
  else if code =? KEY_LEFTSHIFT then set_shift_l pressed m
  else if code =? KEY_RIGHTSHIFT then set_shift_r pressed m
  else if code =? KEY_LEFTALT then set_alt_l pressed m
  else if code =? KEY_RIGHTALT then set_alt_r pressed m
  else if code =? KEY_LEFTMETA then set_super_l pressed m
  else if code =? KEY_RIGHTMETA then set_super_r pressed m
  else m.

(** [Impl::is_modifier] *)
Definition is_modifier (code : Z) : bool :=
  (code =? KEY_LEFTCTRL) || (code =? KEY_RIGHTCTRL) ||
  (code =? KEY_LEFTSHIFT) || (code =? KEY_RIGHTSHIFT) ||
  (code =? KEY_LEFTALT) || (code =? KEY_RIGHTALT) ||
  (code =? KEY_LEFTMETA) || (code =? KEY_RIGHTMETA).

(** The held logical modifiers as a mask over the [MOD_*] bits. *)
Definition held_mask (m : Impl) : Z :=
  Z.lor (Z.lor (if ctrl m then MOD_CTRL else 0)
               (if shift m then MOD_SHIFT else 0))
        (Z.lor (if alt m then MOD_ALT else 0)
               (if super m then MOD_SUPER else 0)).

(** *** [name_to_evdev] *)

Definition letter_codes : list Z :=
  [ KEY_A; KEY_B; KEY_C; KEY_D; KEY_E; KEY_F; KEY_G; KEY_H; KEY_I;
    KEY_J; KEY_K; KEY_L; KEY_M; KEY_N; KEY_O; KEY_P; KEY_Q; KEY_R;
    KEY_S; KEY_T; KEY_U; KEY_V; KEY_W; KEY_X; KEY_Y; KEY_Z ].

(** The table of named keys, in source order. *)
Definition named_keys : list (list string * Z) :=
  [ (["space"], KEY_SPACE);
    (["period"; "dot"; "."], KEY_DOT);
    (["comma"; ","], KEY_COMMA);
    (["slash"; "/"], KEY_SLASH);
    (["backslash"; String (ascii_of_nat 92) EmptyString], KEY_BACKSLASH);
    (["semicolon"; ";"], KEY_SEMICOLON);
    (["apostrophe"; "'"], KEY_APOSTROPHE);
    (["grave"; "`"], KEY_GRAVE);
    (["minus"; "-"], KEY_MINUS);
    (["equal"; "="], KEY_EQUAL);
    (["leftbrace"; "["], KEY_LEFTBRACE);
    (["rightbrace"; "]"], KEY_RIGHTBRACE);
    (["enter"; "return"], KEY_ENTER);
    (["tab"], KEY_TAB);
    (["backspace"], KEY_BACKSPACE);
    (["escape"; "esc"], KEY_ESC);
    (["delete"; "del"], KEY_DELETE);
    (["insert"; "ins"], KEY_INSERT);
    (["home"], KEY_HOME);
    (["end"], KEY_END);
    (["pageup"], KEY_PAGEUP);
    (["pagedown"], KEY_PAGEDOWN);
    (["up"], KEY_UP);
    (["down"], KEY_DOWN);
    (["left"], KEY_LEFT);
    (["right"], KEY_RIGHT);
    (["capslock"], KEY_CAPSLOCK);
    (["print"; "sysrq"], KEY_SYSRQ);
    (["pause"], KEY_PAUSE) ].

(** [lower == a || lower == b || ...] *)
Definition is_one_of (lower : string) (names : list string) : bool :=
  existsb (String.eqb lower) names.

(** The chain of [if (lower == ...) return KEY_...;] lines: the first row
    that lists [lower] decides. *)
Fixpoint named_lookup (tbl : list (list string * Z)) (lower : string)
  : option Z :=
  match tbl with
  | [] => None
  | (names, k) :: rest =>
      if is_one_of lower names then Some k else named_lookup rest lower
  end.

(** The digit loop of the F-key branch, from index 1: [None] is the
    [return -1] inside the loop, [Some n] the value of [n] after it.
    [n] is an [int]; C++ leaves its overflow undefined and the model wraps. *)
Fixpoint fkey_number (digits : string) (n : Z) : option Z :=
  match digits with
  | EmptyString => Some n
  | String c rest =>
      if negb (isdigit c) then None
      else fkey_number rest (wrap_int (n * 10 + (code c - 48)))
  end.

Definition tail (s : string) : string :=
  match s with EmptyString => EmptyString | String _ r => r end.

Definition name_to_evdev (name : string) : Z :=
  let lower := lowercase name in
  (* Letters *)
  if (size lower =? 1) && (97 <=? front lower) && (front lower <=? 122)
  then nth (Z.to_nat (front lower - 97)) letter_codes (-1)
  (* Digits *)
  else if (size lower =? 1) && (48 <=? front lower) && (front lower <=? 57)
  then (if front lower =? 48 then KEY_0 else KEY_1 + (front lower - 49))
  else
  (* Named keys *)
  match named_lookup named_keys lower with
  | Some k => k
  | None =>
      (* F-keys *)
      if (2 <=? size lower) && (front lower =? 102) then
        match fkey_number (tail lower) 0 with
        | None => -1
        | Some n =>
            if (1 <=? n) && (n <=? 12) then
              if n <=? 10 then KEY_F1 + (n - 1)
              else if n =? 11 then KEY_F11
              else if n =? 12 then KEY_F12
              else -1
            else -1
        end
      else -1
  end.

(** *** Effects of the listener: everything that leaves the object *)
Inductive Effect :=
| SysOpen (path : string) (fd : Z)   (* [open(path, O_RDONLY|O_NONBLOCK)] and its result *)
| SysClose (fd : Z)
| Usleep (usec : Z)
| Callback (key_down : bool)         (* [m_callback(key_down)] *)
| Log (line : string).

Definition empty_fds (v : list Z) : bool :=
  match v with [] => true | _ => false end.

(** [Impl::close_all_fds] *)
Definition close_all_fds (m : Impl) : Impl * list Effect :=
  (set_fds [] m, map SysClose (fds m)).

(** One entry of [/dev/input] as the scan sees it: its name, what [open]
    returns on it and what the two [EVIOCGBIT] queries write ([None] when
    the [ioctl] fails).  The arrays are zero-initialised [unsigned long]s. *)
Record Device := mkDevice {
  d_name : string;
  open_result : Z;
  evbits : option (list Z);
  keybits : option (list Z)
}.

(** [(bits[k / (8*sizeof(unsigned long))] >> (k % (8*sizeof(unsigned long)))) & 1] *)
Definition test_bit (bits : list Z) (k : Z) : bool :=
  nz (Z.land (Z.shiftr (nth (Z.to_nat (k / 64)) bits 0) (k mod 64)) 1).

(** The [readdir] loop of [open_keyboards]; [acc] is [m_impl->fds]. *)
Fixpoint scan_entries (ents : list Device) (acc : list Z)
  : list Z * list Effect :=
  match ents with
  | [] => (acc, [])
  | ent :: rest =>
      if negb (String.prefix "event" (d_name ent)) then scan_entries rest acc
      else
        let path := String.append "/dev/input/" (d_name ent) in
        let fd := open_result ent in
        let opened := SysOpen path fd in
        if fd <? 0 then
          let (r, t) := scan_entries rest acc in (r, opened :: t)
        else
          let keep :=
            match evbits ent with
            | None => false
            | Some ev =>
                if negb (test_bit ev EV_KEY) then false
                else match keybits ent with
                     | None => false
                     | Some kb => test_bit kb KEY_A
                     end
            end in
          if keep then
            let (r, t) := scan_entries rest (acc ++ [fd]) in
            (r, opened :: Log "hotkey: opened" :: t)
          else
            let (r, t) := scan_entries rest acc in
            (r, opened :: SysClose fd :: t)
  end.

(** [HotkeyListener::open_keyboards]; [dir] is [None] when [opendir] fails. *)
Definition open_keyboards (dir : option (list Device)) (m : Impl)
  : bool * Impl * list Effect :=
  let (m1, closed) := close_all_fds m in
  match dir with
  | None => (false, m1, closed ++ [Log "hotkey: cannot open /dev/input"])
  | Some ents =>
      let (found, t) := scan_entries ents (fds m1) in
      (negb (empty_fds found),
       set_fds found m1, closed ++ t)
  end.

(** *** The hotkey string *)

(** The [std::getline(ss, part, '+')] loop: the pieces it yields, in order.
    [part] is the piece being read; at end of input [getline] succeeds only
    if it extracted something. *)
Fixpoint getlines (s : string) (part : string) : list string :=
  match s with
  | EmptyString => if empty part then [] else [part]
  | String c rest =>
      if code c =? 43 then part :: getlines rest EmptyString
      else getlines rest (String.append part (String c EmptyString))
  end.

(** [while (!part.empty() && isspace(part.front())) part.erase(part.begin())] *)
Fixpoint trim_front (part : string) : string :=
  match part with
  | EmptyString => EmptyString
  | String c rest => if isspace c then trim_front rest else part
  end.

(** [while (!part.empty() && isspace(part.back())) part.pop_back()] *)
Fixpoint trim_back (part : string) : string :=
  match part with
  | EmptyString => EmptyString
  | String c rest =>
      let rest' := trim_back rest in
      if empty rest' && isspace c then EmptyString else String c rest'
  end.

(** The body of the split loop: [parts] after it. *)
Definition split_parts (hotkey_str : string) : list string :=
  filter (fun p => negb (empty p))
         (map (fun p => trim_back (trim_front p)) (getlines hotkey_str "")).

(** One step of the modifier loop: the bit a lower-cased token stands for. *)
Definition modifier_bit (mod_lower : string) : option Z :=
  if (mod_lower =? "ctrl")%string || (mod_lower =? "control")%string
  then Some MOD_CTRL
  else if (mod_lower =? "shift")%string then Some MOD_SHIFT
  else if (mod_lower =? "alt")%string then Some MOD_ALT
  else if (mod_lower =? "super")%string || (mod_lower =? "super_l")%string
          || (mod_lower =? "super_r")%string || (mod_lower =? "mod4")%string
          || (mod_lower =? "meta")%string
  then Some MOD_SUPER
  else None.

(** [for (size_t i = 0; i + 1 < parts.size(); i++)]: every part but the last;
    [None] is the [return false] on an unknown modifier. *)
Fixpoint modifier_loop (parts : list string) (mask : Z) : option Z :=
  match parts with
  | [] => Some mask
  | [_] => Some mask
  | p :: rest =>
      match modifier_bit (lowercase p) with
      | Some b => modifier_loop rest (Z.lor mask b)
      | None => None
      end
  end.

(** Why the parsing half of [init] gave up, after the line it logs. *)
Inductive ParseError := EmptyHotkey | UnknownModifier | UnknownKey.

(** The parsing half of [init] (up to the assignment of [key_code] and
    [modmask]): the trigger key code and the required mask. *)
Definition parse_hotkey (hotkey_str : string) : ParseError + (Z * Z) :=
  let parts := split_parts hotkey_str in
  match parts with
  | [] => inl EmptyHotkey
  | _ =>
      let key_name := last parts "" in
      match modifier_loop parts 0 with
      | None => inl UnknownModifier
      | Some mask =>
          let key := name_to_evdev key_name in
          if key <? 0 then inl UnknownKey else inr (key, mask)
      end
  end.

(** [class HotkeyListener]: the object's fields; [m_callback] records
    whether a callback is installed. *)
Record Listener := mkListener {
  m_impl : Impl;
  m_running : bool;
  m_event_press : bool;
  m_event_release : bool;
  m_callback : bool
}.

Definition Listener0 : Listener := mkListener Impl0 false false false false.

Definition set_impl (i : Impl) (l : Listener) : Listener :=
  mkListener i (m_running l) (m_event_press l) (m_event_release l)
             (m_callback l).

Definition set_running (b : bool) (l : Listener) : Listener :=
  mkListener (m_impl l) b (m_event_press l) (m_event_release l)
             (m_callback l).

Definition set_event_press (b : bool) (l : Listener) : Listener :=
  mkListener (m_impl l) (m_running l) b (m_event_release l) (m_callback l).

Definition set_event_release (b : bool) (l : Listener) : Listener :=
  mkListener (m_impl l) (m_running l) (m_event_press l) b (m_callback l).

Definition set_callback (b : bool) (l : Listener) : Listener :=
  mkListener (m_impl l) (m_running l) (m_event_press l) (m_event_release l) b.

Definition log_of_error (e : ParseError) : string :=
  match e with
  | EmptyHotkey => "hotkey: empty hotkey string"
  | UnknownModifier => "hotkey: unknown modifier"
  | UnknownKey => "hotkey: unknown key"
  end.

(** [HotkeyListener::init] *)
Definition init (hotkey_str : string) (dir : option (list Device))
  (l : Listener) : bool * Listener * list Effect :=
  match parse_hotkey hotkey_str with
  | inl e => (false, l, [Log (log_of_error e)])
  | inr (key, mask) =>
      let m := set_hotkey key mask (m_impl l) in
      let '(ok, m', t) := open_keyboards dir m in
      if negb ok
      then (false, set_impl m' l, t ++ [Log "hotkey: no keyboard devices found!"])
      else (true, set_impl m' l, t ++ [Log "hotkey: registered"])
  end.

(** [HotkeyListener::poll_pressed]: [m_event_press.exchange(false)] *)
Definition poll_pressed (l : Listener) : bool * Listener :=
  (m_event_press l, set_event_press false l).

(** [HotkeyListener::poll_released]: [m_event_release.exchange(false)] *)
Definition poll_released (l : Listener) : bool * Listener :=
  (m_event_release l, set_event_release false l).

(** [HotkeyListener::start]; the thread it spawns is [listen_thread]. *)
Definition start (callback : bool) (l : Listener) : bool * Listener :=
  if m_running l then (false, l)
  else if empty_fds (fds (m_impl l)) then (false, l)
  else (true, set_running true (set_callback callback l)).

(** [HotkeyListener::stop], once the thread has been joined. *)
Definition stop (l : Listener) : Listener * list Effect :=
  if negb (m_running l) && empty_fds (fds (m_impl l)) then (l, [])
  else
    let l1 := set_running false l in
    let (m, t) := close_all_fds (m_impl l1) in
    (set_impl m l1, t).

(** *** [HotkeyListener::listen_thread] *)

(** [struct input_event], without its timestamp *)
Record input_event := mkEvent {
  ev_type : Z;
  ev_code : Z;
  ev_value : Z
}.

(** How a [read] that did not return a whole event ended: with [-1] and an
    [errno], or with a byte count other than [sizeof(ev)]. *)
Inductive ReadEnd :=
| ReadErrno (errno : Z)
| ReadCount (n : Z).

(** The two locals of [listen_thread] *)
Record Locals := mkLocals {
  hotkey_active : bool;
  needs_rescan : bool
}.

(** [if (m_callback) m_callback(key_down);] *)
Definition fire (key_down : bool) (l : Listener) : list Effect :=
  if m_callback l then [Callback key_down] else [].

(** The body of the inner [while (true)] loop once an event was read. *)
Definition process_event (ev : input_event) (l : Listener) (active : bool)
  : Listener * bool * list Effect :=
  if negb (ev_type ev =? EV_KEY) then (l, active, []) else
  let pressed := ev_value ev =? 1 in
  let released := ev_value ev =? 0 in
  if negb pressed && negb released then (l, active, []) else
  (* Update modifier state *)
  let l1 :=
    if is_modifier (ev_code ev)
    then set_impl (update_modifier (ev_code ev) pressed (m_impl l)) l
    else l in
  (* Check the main key *)
  let '(l2, active2, t2) :=
    if ev_code ev =? key_code (m_impl l1) then
      if pressed && mods_match (m_impl l1) && negb active
      then (set_event_press true l1, true, fire true l1)
      else if released && active
      then (set_event_release true l1, false, fire false l1)
      else (l1, active, [])
    else (l1, active, []) in
  (* If a modifier is released while hotkey is active, deactivate *)
  if released && is_modifier (ev_code ev) && active2 then
    if negb (mods_match (m_impl l2))
    then (set_event_release true l2, false, t2 ++ fire false l2)
    else (l2, active2, t2)
  else (l2, active2, t2).

(** The events one descriptor delivers before its [read] stops. *)
Fixpoint drain_events (evs : list input_event) (l : Listener) (active : bool)
  : Listener * bool * list Effect :=
  match evs with
  | [] => (l, active, [])
  | ev :: rest =>
      let '(l1, a1, t1) := process_event ev l active in
      let '(l2, a2, t2) := drain_events rest l1 a1 in
      (l2, a2, t1 ++ t2)
  end.

(** The [else] branch of the [read]: the new [needs_rescan]. *)
Definition read_stopped (e : ReadEnd) (rescan : bool) : bool * list Effect :=
  match e with
  | ReadErrno errno =>
      if (errno =? EAGAIN) || (errno =? EWOULDBLOCK) then (rescan, [])
      else if (errno =? EIO) || (errno =? ENODEV)
      then (true, [Log "hotkey: device disconnected"])
      else (rescan, [])
  | ReadCount _ => (rescan, [])
  end.

(** The [for] loop over [m_impl->fds], from index [i]; [reads i] is what
    descriptor number [i] delivers in this cycle. *)
Fixpoint poll_fds (handles : list Z) (i : nat)
  (reads : nat -> list input_event * ReadEnd) (l : Listener) (loc : Locals)
  : Listener * Locals * list Effect :=
  match handles with
  | [] => (l, loc, [])
  | _ :: rest =>
      let '(l1, a1, t1) := drain_events (fst (reads i)) l (hotkey_active loc) in
      let (r1, t2) := read_stopped (snd (reads i)) (needs_rescan loc) in
      let '(l2, loc2, t3) := poll_fds rest (S i) reads l1 (mkLocals a1 r1) in
      (l2, loc2, t1 ++ t2 ++ t3)
  end.

(** [m_impl->ctrl_l = m_impl->ctrl_r = false; ...] *)
Definition reset_modifiers (m : Impl) : Impl :=
  mkImpl (fds m) (key_code m) (modmask m)
         false false false false false false false false.

(** [for (int j = 0; j < 50 && m_running; j++) usleep(100000);] where
    [running j] is what [m_running] reads before round [j]. *)
Fixpoint backoff (rounds : nat) (j : nat) (running : nat -> bool)
  : list Effect :=
  match rounds with
  | O => []
  | S k => if running j then Usleep 100000 :: backoff k (S j) running else []
  end.

(** What one iteration of the loop meets outside the object. *)
Record IterInput := mkIterInput {
  scan_dir : option (list Device);
  running_in_backoff : nat -> bool;
  reads : nat -> list input_event * ReadEnd
}.

(** The body of [while (m_running)]. *)
Definition listen_iter (inp : IterInput) (l : Listener) (loc : Locals)
  : Listener * Locals * list Effect :=
  if needs_rescan loc then
    (* Reset modifier state since we lost track *)
    let m := reset_modifiers (m_impl l) in
    let '(ok, m', t) := open_keyboards (scan_dir inp) m in
    if ok then
      (set_impl m' l, mkLocals false false,
       Log "hotkey: device change detected, rescanning..." :: t
         ++ [Log "hotkey: rescan complete"])
    else
      (set_impl m' l, mkLocals false true,
       Log "hotkey: device change detected, rescanning..." :: t
         ++ Log "hotkey: rescan found no devices, will retry..."
            :: backoff 50 0 (running_in_backoff inp))
  else
    let '(l', loc', t) := poll_fds (fds (m_impl l)) 0 (reads inp) l loc in
    (l', loc', Usleep 20000 :: t).

(** [listen_thread]: each input comes with what [m_running] reads at the
    head of the loop. *)
Fixpoint listen_loop (ins : list (bool * IterInput)) (l : Listener)
  (loc : Locals) : Listener * Locals * list Effect :=
  match ins with
  | [] => (l, loc, [])
  | (running, inp) :: rest =>
      if negb running then (l, loc, [])
      else
        let '(l1, loc1, t1) := listen_iter inp l loc in
        let '(l2, loc2, t2) := listen_loop rest l1 loc1 in
        (l2, loc2, t1 ++ t2)
  end.

Definition listen_thread (ins : list (bool * IterInput)) (l : Listener)
  : Listener * Locals * list Effect :=
  listen_loop ins l (mkLocals false false).

(** The descriptors a trace leaves open, from those open before it. *)
Fixpoint remove_one (fd : Z) (open : list Z) : list Z :=
  match open with
  | [] => []
  | x :: rest => if x =? fd then rest else x :: remove_one fd rest
  end.

Fixpoint open_after (t : list Effect) (open : list Z) : list Z :=
  match t with
  | [] => open
  | SysOpen _ fd :: rest =>
      if fd <? 0 then open_after rest open else open_after rest (fd :: open)
  | SysClose fd :: rest => open_after rest (remove_one fd open)
  | _ :: rest => open_after rest open
  end.

(** *** The two threads over the shared flags

    The listener thread delivers key events one at a time; the consumer
    polls in between.  Each action is one atomic access to the flags. *)
Inductive Action :=
| Deliver (ev : input_event)
| PollPressed
| PollReleased.

(** What a run of actions showed: the results of the polls, in order, and
    how many times the hotkey went from inactive to active and back. *)
Record Observed := mkObserved {
  pressed_results : list bool;
  released_results : list bool;
  activations : nat;
  deactivations : nat
}.

Definition edge_up (before after : bool) : nat :=
  if negb before && after then 1%nat else 0%nat.

Definition edge_down (before after : bool) : nat :=
  if before && negb after then 1%nat else 0%nat.

Fixpoint run (acts : list Action) (l : Listener) (active : bool)
  : Listener * bool * Observed :=
  match acts with
  | [] => (l, active, mkObserved [] [] 0 0)
  | Deliver ev :: rest =>
      let '(l1, a1, _) := process_event ev l active in
      let '(l2, a2, o) := run rest l1 a1 in
      (l2, a2, mkObserved (pressed_results o) (released_results o)
                          (edge_up active a1 + activations o)
                          (edge_down active a1 + deactivations o))
  | PollPressed :: rest =>
      let (r, l1) := poll_pressed l in
      let '(l2, a2, o) := run rest l1 active in
      (l2, a2, mkObserved (r :: pressed_results o) (released_results o)
                          (activations o) (deactivations o))
  | PollReleased :: rest =>
      let (r, l1) := poll_released l in
      let '(l2, a2, o) := run rest l1 active in
      (l2, a2, mkObserved (pressed_results o) (r :: released_results o)
                          (activations o) (deactivations o))
  end.

End Hotkey.

(** ** [src/text-output.cpp] *)
Module TextOutput.
Import CType.

(** Timeout for subprocess calls (xclip, xdotool) *)
Definition CMD_TIMEOUT_MS : Z := 5000.
(** Delay after setting clipboard before sending paste keystroke *)
Definition CLIPBOARD_SET_DELAY_MS : Z := 50.
(** Delay after paste before restoring the original clipboard *)
Definition CLIPBOARD_RESTORE_DELAY_MS : Z := 300.

(** [class TextOutput] *)
Record TextOutput := mkTextOutput {
  m_use_clipboard : bool;
  m_type_delay_ms : Z
}.

Definition TextOutput0 : TextOutput := mkTextOutput true 12.

Definition set_use_clipboard (b : bool) (o : TextOutput) : TextOutput :=
  mkTextOutput b (m_type_delay_ms o).

Definition set_type_delay_ms (d : Z) (o : TextOutput) : TextOutput :=
  mkTextOutput (m_use_clipboard o) d.

(** What a delivery does outside the process, in order. *)
Inductive Effect :=
| Run (argv : list string) (stdin_data : option string)
| Sleep (ms : Z)
| Log (line : string).

(** [std::to_string(int)] *)
Definition to_string (n : Z) : string :=
  DecimalString.NilZero.string_of_int (Z.to_int n).

Definition terminals : list string :=
  [ "alacritty"; "kitty"; "gnome-terminal"; "gnome-terminal-server";
    "xterm"; "uxterm"; "konsole"; "xfce4-terminal"; "terminator"; "tilix";
    "urxvt"; "st-256color"; "st"; "foot"; "wezterm"; "terminal"; "ghostty";
    "rio"; "contour"; "hyper"; "tabby"; "sakura"; "guake"; "tilda";
    "yakuake"; "terminology" ].

(** [TextOutput::is_terminal_class] *)
Definition is_terminal_class (cls : string) : bool :=
  existsb (String.eqb (lowercase cls)) terminals.

(** [while (!s.empty() && (s.back() == '\n' || s.back() == '\r')) s.pop_back();] *)
Fixpoint strip_newlines (s : string) : string :=
  match s with
  | EmptyString => EmptyString
  | String c rest =>
      let rest' := strip_newlines rest in
      if empty rest' && ((code c =? 10) || (code c =? 13))
      then EmptyString else String c rest'
  end.

Section Delivery.

(** The desktop the commands act on (the X server, its clipboard and its
    windows), and [TextOutput::run_cmd] seen from the caller: the exit
    status (or [-1]), what ends up in [*stdout_data] when it is captured,
    and the desktop afterwards. *)
Variable World : Type.
Variable run_cmd :
  list string -> Z -> option string -> bool -> World -> Z * string * World.

(** Code that runs commands: a state monad over the desktop and the trace. *)
Definition M (A : Type) : Type := World * list Effect -> A * (World * list Effect).

Definition ret {A} (a : A) : M A := fun s => (a, s).

Definition bind {A B} (m : M A) (k : A -> M B) : M B :=
  fun s => let (a, s') := m s in k a s'.

Definition emit (e : Effect) : M unit :=
  fun s => (tt, (fst s, snd s ++ [e])).

Definition sleep_for (ms : Z) : M unit := emit (Sleep ms).

Definition fprintf (line : string) : M unit := emit (Log line).

Definition run (argv : list string) (stdin_data : option string)
  (capture : bool) : M (Z * string) :=
  fun s =>
    let '(status, out, w) := run_cmd argv CMD_TIMEOUT_MS stdin_data capture (fst s) in
    ((status, out), (w, snd s ++ [Run argv stdin_data])).

Notation "x <- m ;; k" := (bind m (fun x => k))
  (at level 61, m at next level, right associativity).
Notation "m ;;; k" := (bind m (fun _ => k))
  (at level 61, right associativity).

(** [TextOutput::type_xdotool] *)
Definition type_xdotool (o : TextOutput) (text : string) : M bool :=
  let delay_str := to_string (m_type_delay_ms o) in
  r <- run ["xdotool"; "type"; "--clearmodifiers"; "--delay"; delay_str;
            "--"; text] None false ;;
  if negb (fst r =? 0)
  then fprintf "text-output: xdotool type failed" ;;; ret false
  else ret true.

(** [TextOutput::type_clipboard] *)
Definition type_clipboard (text : string) : M bool :=
  (* 1. Save current clipboard *)
  saved <- run ["xclip"; "-selection"; "clipboard"; "-o"] None true ;;
  let saved_clipboard := snd saved in
  (* 2. Set clipboard to transcribed text *)
  set <- run ["xclip"; "-selection"; "clipboard"] (Some text) false ;;
  if negb (fst set =? 0)
  then fprintf "text-output: xclip write failed" ;;; ret false
  else
  (* 3. Small delay to ensure clipboard is set *)
  sleep_for CLIPBOARD_SET_DELAY_MS ;;;
  (* 4. Get active window ID *)
  win <- run ["xdotool"; "getactivewindow"] None true ;;
  let window_id :=
    strip_newlines (if negb (fst win =? 0) then "" else snd win) in
  (* 5. Check if the target window is a terminal *)
  is_terminal <-
    (if negb (empty window_id) then
       cls <- run ["xdotool"; "getwindowclassname"; window_id] None true ;;
       if fst cls =? 0
       then ret (is_terminal_class (strip_newlines (snd cls)))
       else ret false
     else ret false) ;;
  (* 6. Send paste keystroke to the specific window *)
  paste <-
    (if negb (empty window_id) then
       if (is_terminal : bool)
       then run ["xdotool"; "key"; "--clearmodifiers"; "--window"; window_id;
                 "ctrl+shift+v"] None false
       else run ["xdotool"; "key"; "--clearmodifiers"; "--window"; window_id;
                 "ctrl+v"] None false
     else
       let paste_key := if is_terminal then "ctrl+shift+v" else "ctrl+v" in
       run ["xdotool"; "key"; "--clearmodifiers"; paste_key] None false) ;;
  let paste_ret := fst paste in
  (if negb (paste_ret =? 0)
   then fprintf "text-output: paste simulation failed" else ret tt) ;;;
  (* 7. Wait for paste to be processed, then restore original clipboard *)
  sleep_for CLIPBOARD_RESTORE_DELAY_MS ;;;
  run ["xclip"; "-selection"; "clipboard"] (Some saved_clipboard) false ;;;
  ret (paste_ret =? 0).

(** [TextOutput::type] *)
Definition type (o : TextOutput) (text : string) : M bool :=
  if empty text then ret true
  else if m_use_clipboard o then type_clipboard text
  else type_xdotool o text.

End Delivery.

End TextOutput.

(** ** The state machine of [main] in [src/typer.cpp] *)
Module Typer.
Import CType.

(** [WHISPER_SAMPLE_RATE] of whisper.h *)
Definition WHISPER_SAMPLE_RATE : Z := 16000.

(** Minimum samples needed for vad_simple to work correctly. *)
Definition vad_min_samples : Z := WHISPER_SAMPLE_RATE * 2 + 1.

(** [enum class State] *)
Inductive State := IDLE | RECORDING | TRANSCRIBING.

(** What the loop does outside its own variables, in order. *)
Inductive Effect (float : Type) :=
| AudioClear
| AudioGet (ms : Z)
| VadSimple (buf : list float)
| Transcribe (pcm : list float)
| OutputType (text : string)
| SleepFor (ms : Z)
| Log (line : string).

Arguments AudioClear {float}.
Arguments AudioGet {float} ms.
Arguments VadSimple {float} buf.
Arguments Transcribe {float} pcm.
Arguments OutputType {float} text.
Arguments SleepFor {float} ms.
Arguments Log {float} line.

(** A [steady_clock::time_point] is a count of nanoseconds;
    [duration_cast<milliseconds>(a - b).count()] truncates toward zero. *)
Definition ms_between (a b : Z) : Z := Z.quot (a - b) 1000000.

Section Main.

(** [float], and the collaborators from outside the repository:
    [::vad_simple] and [::trim] of whisper.cpp's common code, and
    [transcribe] as far as the loop sees it (audio in, text out). *)
Variable float : Type.
Variable vad_simple : list float -> Z -> Z -> float -> float -> bool -> bool.
Variable transcribe : list float -> string.
Variable trim : string -> string.

(** The fields of [typer_params] the loop reads *)
Record typer_params := mkParams {
  vad_thold : float;
  freq_thold : float;
  silence_ms : Z;
  max_record_ms : Z;
  push_to_talk : bool;
  print_energy : bool
}.

(** The variables of [main] that live across iterations, with the hotkey
    listener's flags and [g_sigusr1]. *)
Record Loop := mkLoop {
  state : State;
  pcmf32 : list float;
  record_start : Z;
  silence_start : Z;
  speech_detected : bool;
  hotkey : Hotkey.Listener;
  g_sigusr1 : bool
}.

(** What one iteration meets outside: [g_running] at the head of the loop,
    the result of [sdl_poll_events], the first and second reading of the
    clock, and what [audio.get(ms, buf)] leaves in [buf]. *)
Record Input := mkInput {
  g_running : bool;
  sdl_ok : bool;
  now : Z;
  now' : Z;
  audio_get : Z -> list float -> list float
}.

Definition with_state (st : State) (s : Loop) : Loop :=
  mkLoop st (pcmf32 s) (record_start s) (silence_start s) (speech_detected s)
         (hotkey s) (g_sigusr1 s).

Definition with_pcmf32 (p : list float) (s : Loop) : Loop :=
  mkLoop (state s) p (record_start s) (silence_start s) (speech_detected s)
         (hotkey s) (g_sigusr1 s).

Definition with_speech (b : bool) (s : Loop) : Loop :=
  mkLoop (state s) (pcmf32 s) (record_start s) (silence_start s) b
         (hotkey s) (g_sigusr1 s).

Definition with_silence_start (t : Z) (s : Loop) : Loop :=
  mkLoop (state s) (pcmf32 s) (record_start s) t (speech_detected s)
         (hotkey s) (g_sigusr1 s).

Definition with_record_start (t : Z) (s : Loop) : Loop :=
  mkLoop (state s) (pcmf32 s) t (silence_start s) (speech_detected s)
         (hotkey s) (g_sigusr1 s).

Definition with_hotkey (h : Hotkey.Listener) (s : Loop) : Loop :=
  mkLoop (state s) (pcmf32 s) (record_start s) (silence_start s)
         (speech_detected s) h (g_sigusr1 s).

Definition with_sigusr1 (b : bool) (s : Loop) : Loop :=
  mkLoop (state s) (pcmf32 s) (record_start s) (silence_start s)
         (speech_detected s) (hotkey s) b.

(** [hotkey.poll_pressed()] *)
Definition poll_pressed (s : Loop) : bool * Loop :=
  let (r, h) := Hotkey.poll_pressed (hotkey s) in (r, with_hotkey h s).

(** [hotkey.poll_released()] *)
Definition poll_released (s : Loop) : bool * Loop :=
  let (r, h) := Hotkey.poll_released (hotkey s) in (r, with_hotkey h s).

(** [hotkey.poll_pressed() || g_sigusr1.exchange(false)]: the signal flag is
    only exchanged when the hotkey flag was clear. *)
Definition poll_toggle (s : Loop) : bool * Loop :=
  let (pressed, s1) := poll_pressed s in
  if pressed then (true, s1) else (g_sigusr1 s1, with_sigusr1 false s1).

(** [case State::IDLE] *)
Definition idle (inp : Input) (s : Loop) : Loop * list (Effect float) :=
  let (triggered, s1) := poll_toggle s in
  if triggered then
    let s2 := with_pcmf32 [] s1 in
    let s3 := with_speech false s2 in
    let s4 := with_record_start (now inp) s3 in
    let s5 := with_silence_start (now' inp) s4 in
    (* Drain any pending hotkey events from the triggering keypress *)
    let s6 := snd (poll_pressed s5) in
    let s7 := snd (poll_released s6) in
    (with_state RECORDING s7, [AudioClear; Log "[recording...]"])
  else (s1, [SleepFor 50]).

(** [case State::RECORDING] *)
Definition recording (params : typer_params) (inp : Input) (s : Loop)
  : Loop * list (Effect float) :=
  (* Check for manual stop *)
  let (stop_triggered, s1) :=
    if push_to_talk params then poll_released s else poll_toggle s in
  if stop_triggered then
    (* Debounce: ignore stop events within 300ms of recording start *)
    let since_start := ms_between (now inp) (record_start s1) in
    if since_start <? 300 then (s1, [])
    else
      (* Manual stop: force speech_detected so we always transcribe *)
      (with_state TRANSCRIBING (with_speech true s1), [])
  else
    (* Check max recording time *)
    let elapsed_ms := ms_between (now inp) (record_start s1) in
    if elapsed_ms >=? max_record_ms params then
      (with_state TRANSCRIBING s1, [Log "[max recording time reached]"])
    else
      (* VAD check: get last 2 seconds for energy analysis *)
      let vad_buf := audio_get inp 2000 [] in
      if Z.of_nat (List.length vad_buf) >=? vad_min_samples then
        let is_silent :=
          vad_simple vad_buf WHISPER_SAMPLE_RATE 1000 (vad_thold params)
                     (freq_thold params) (print_energy params) in
        let s2 :=
          if negb is_silent
          then with_silence_start (now inp) (with_speech true s1)
          else s1 in
        (* Auto-stop: speech was detected, now silence for N ms *)
        if speech_detected s2 then
          let silence_duration := ms_between (now inp) (silence_start s2) in
          if silence_duration >=? silence_ms params then
            (with_state TRANSCRIBING s2,
             [AudioGet 2000; VadSimple vad_buf;
              Log "[auto-stop: silence detected]"])
          else (s2, [AudioGet 2000; VadSimple vad_buf; SleepFor 100])
        else (s2, [AudioGet 2000; VadSimple vad_buf; SleepFor 100])
      else (s1, [AudioGet 2000; SleepFor 100]).

(** [case State::TRANSCRIBING] *)
Definition transcribing (params : typer_params) (inp : Input) (s : Loop)
  : Loop * list (Effect float) :=
  (* Get all recorded audio from the buffer before pausing *)
  let elapsed_ms := ms_between (now inp) (record_start s) in
  let get_ms := Z.min (wrap_int elapsed_ms) (max_record_ms params) in
  let s1 := with_pcmf32 (audio_get inp get_ms (pcmf32 s)) s in
  match pcmf32 s1 with
  | [] =>
      (with_state IDLE s1,
       [AudioGet get_ms; Log "[no audio captured]"; Log "[ready]"])
  | _ =>
      (* Skip transcription if no speech was detected (prevent hallucinations) *)
      if negb (speech_detected s1) then
        (with_state IDLE s1,
         [AudioGet get_ms; Log "[no speech detected, skipping]"; Log "[ready]"])
      else
        (* Trim whitespace (whisper often prepends a space) *)
        let text := trim (transcribe (pcmf32 s1)) in
        if negb (empty text) then
          (with_state IDLE s1,
           [AudioGet get_ms; Log "[transcribing...]"; Transcribe (pcmf32 s1);
            Log "[result]"; OutputType text; Log "[ready]"])
        else
          (with_state IDLE s1,
           [AudioGet get_ms; Log "[transcribing...]"; Transcribe (pcmf32 s1);
            Log "[empty transcription]"; Log "[ready]"])
  end.

(** The [switch (state)] *)
Definition step (params : typer_params) (inp : Input) (s : Loop)
  : Loop * list (Effect float) :=
  match state s with
  | IDLE => idle inp s
  | RECORDING => recording params inp s
  | TRANSCRIBING => transcribing params inp s
  end.

(** What the other threads did to the shared flags since the loop last
    went round.  They only ever raise them: [m_event_press = true] and
    [m_event_release = true] in [listen_thread] (hotkey.cpp 390, 396, 407)
    and [g_sigusr1 = true] in [sigusr1_handler]. *)
Record Arrivals := mkArrivals {
  press_edge : bool;
  release_edge : bool;
  sigusr1 : bool
}.

Definition arrive (a : Arrivals) (s : Loop) : Loop :=
  let h := hotkey s in
  let h1 :=
    Hotkey.set_event_press (Hotkey.m_event_press h || press_edge a) h in
  let h2 :=
    Hotkey.set_event_release (Hotkey.m_event_release h1 || release_edge a)
                             h1 in
  with_sigusr1 (g_sigusr1 s || sigusr1 a) (with_hotkey h2 s).

(** [while (g_running) { if (!sdl_poll_events()) break; switch ... }] over
    the inputs of its successive iterations, each with what the listener
    thread and the signal handler raised since the iteration before.
    The flags are atomics, and an iteration reads each of them once
    before it may clear it again (the drain of IDLE): a flag raised
    while an iteration runs acts as one raised just before it or just
    after it, or, between the poll and the drain of IDLE, is lost as if
    it had not been raised; so raising at the head of the iteration
    covers every interleaving. *)
Fixpoint main_loop (params : typer_params) (ins : list (Arrivals * Input))
  (s : Loop) : Loop * list (Effect float) :=
  match ins with
  | [] => (s, [])
  | (raised, inp) :: rest =>
      if negb (g_running inp) then (s, [])
      else if negb (sdl_ok inp) then (s, [])
      else
        let (s1, t1) := step params inp (arrive raised s) in
        let (s2, t2) := main_loop params rest s1 in
        (s2, t1 ++ t2)
  end.

End Main.

Arguments state {float} l.
Arguments pcmf32 {float} l.
Arguments record_start {float} l.
Arguments silence_start {float} l.
Arguments speech_detected {float} l.
Arguments hotkey {float} l.
Arguments g_sigusr1 {float} l.
Arguments mkLoop {float}.
Arguments mkInput {float}.
Arguments mkParams {float}.
Arguments now {float} i.
Arguments audio_get {float} i.
Arguments push_to_talk {float} t.
Arguments max_record_ms {float} t.
Arguments silence_ms {float} t.
Arguments poll_pressed {float} s.
Arguments poll_released {float} s.
Arguments poll_toggle {float} s.

(** Modelled from the spec: [::trim] is not part of the repository; the
    spec says the loop trims incidental leading and trailing whitespace
    from the engine's output. *)
Definition trim_whitespace (s : string) : string :=
  Hotkey.trim_back (Hotkey.trim_front s).

End Typer.

(** ** Vocabulary of the statements *)






Definition b2n (b : bool) : nat := if b then 1%nat else 0%nat.

(** All eight modifier booleans are false. *)
Definition modifiers_clear (m : Hotkey.Impl) : Prop :=
  Hotkey.ctrl_l m = false /\ Hotkey.ctrl_r m = false /\
  Hotkey.shift_l m = false /\ Hotkey.shift_r m = false /\
  Hotkey.alt_l m = false /\ Hotkey.alt_r m = false /\
  Hotkey.super_l m = false /\ Hotkey.super_r m = false.

(** The textbook split of a string at every ['+'], the piece after a final
    ['+'] included; [piece] is the piece being read. *)
Fixpoint split_on_plus (s : string) (piece : string) : list string :=
  match s with
  | EmptyString => [piece]
  | String c rest =>
      if CType.code c =? 43 then piece :: split_on_plus rest EmptyString
      else split_on_plus rest (String.append piece (String c EmptyString))
  end.

(** Split at ['+'], trim each piece, drop the empty ones. *)
Definition tokens_of (s : string) : list string :=
  filter (fun p => negb (CType.empty p))
         (map (fun p => Hotkey.trim_back (Hotkey.trim_front p))
              (split_on_plus s EmptyString)).

(** The OR of the flags the modifier tokens [mods] stand for. *)
Definition mask_of (mods : list string) : Z :=
  fold_left
    (fun acc p =>
       match Hotkey.modifier_bit (CType.lowercase p) with
       | Some b => Z.lor acc b
       | None => acc
       end) mods 0.

(** The scan of [open_keyboards] ends with at least one keyboard open. *)
Definition finds_keyboard (dir : option (list Hotkey.Device)) : bool :=
  match dir with
  | None => false
  | Some ents => negb (Hotkey.empty_fds (fst (Hotkey.scan_entries ents [])))
  end.

(** The names the specification lists for the resolver: one letter, one
    digit, an entry of the named-key table, or one of f1 ... f12. *)
Definition is_letter_name (lower : string) : bool :=
  (CType.size lower =? 1) && (97 <=? CType.front lower)
  && (CType.front lower <=? 122).

Definition is_digit_name (lower : string) : bool :=
  (CType.size lower =? 1) && (48 <=? CType.front lower)
  && (CType.front lower <=? 57).

Definition in_named_table (lower : string) : bool :=
  existsb (fun row => Hotkey.is_one_of lower (fst row)) Hotkey.named_keys.

Definition listed_fkeys : list string :=
  [ "f1"; "f2"; "f3"; "f4"; "f5"; "f6"; "f7"; "f8"; "f9"; "f10"; "f11";
    "f12" ].

Definition listed_name (name : string) : bool :=
  let lower := CType.lowercase name in
  is_letter_name lower || is_digit_name lower || in_named_table lower
  || Hotkey.is_one_of lower listed_fkeys.

(** The value of a string of decimal digits, leading zeros allowed, as an
    unbounded integer; [None] if some character is not a digit. *)
Fixpoint decimal_from (digits : string) (n : Z) : option Z :=
  match digits with
  | EmptyString => Some n
  | String c rest =>
      if CType.isdigit c then decimal_from rest (n * 10 + (CType.code c - 48))
      else None
  end.

(** The number of an F-key name: an [f] and at least one digit. *)
Definition fkey_value (lower : string) : option Z :=
  match lower with
  | String c (String d rest) =>
      if CType.code c =? 102 then decimal_from (String d rest) 0 else None
  | _ => None
  end.

(** A manual stop is pending: the flag the recording state polls in this
    mode is raised. *)
Definition stop_pending {float : Type} (params : Typer.typer_params float)
  (s : Typer.Loop float) : bool :=
  if Typer.push_to_talk params
  then Hotkey.m_event_release (Typer.hotkey s)
  else Hotkey.m_event_press (Typer.hotkey s) || Typer.g_sigusr1 s.

(** The calls to the transcription engine in a trace, with their audio. *)
Definition engine_calls {float : Type} (t : list (Typer.Effect float))
  : list (list float) :=
  flat_map (fun e => match e with Typer.Transcribe pcm => [pcm] | _ => [] end) t.

(** The texts handed to the text output in a trace. *)
Definition injected {float : Type} (t : list (Typer.Effect float))
  : list string :=
  flat_map (fun e => match e with Typer.OutputType text => [text] | _ => [] end) t.

(** The buffers on which the voice-activity check ran in a trace. *)
Definition vad_calls {float : Type} (t : list (Typer.Effect float))
  : list (list float) :=
  flat_map (fun e => match e with Typer.VadSimple buf => [buf] | _ => [] end) t.

Definition no_samples {float : Type} (pcm : list float) : bool :=
  match pcm with [] => true | _ => false end.

(** ** Concrete situations used to exercise the statements *)

Module Scenario.
Import CType Hotkey.

(** ctrl+period, no callback, one keyboard on descriptor 3. *)
Definition ctrl_period : Listener :=
  mkListener (mkImpl [3] Evdev.KEY_DOT MOD_CTRL false false false false
                     false false false false)
             true false false false.

Definition press (code : Z) : input_event := mkEvent Evdev.EV_KEY code 1.

(** A listener that lost its keyboard while left ctrl and right shift
    were held and the hotkey was active; the rescan finds a mouse
    (descriptor 5, no key A) and a keyboard (descriptor 6). *)
Definition after_disconnect : Listener :=
  mkListener (mkImpl [3; 4] Evdev.KEY_DOT MOD_CTRL true false false true
                     false false false false)
             true true false false.

Definition replugged : IterInput :=
  mkIterInput
    (Some [ mkDevice "mice" 7 None None;
            mkDevice "event0" 5 (Some [2]) (Some [0]);
            mkDevice "event1" 6 (Some [2]) (Some [1073741824]) ])
    (fun _ => true)
    (fun _ => ([], ReadErrno Evdev.EAGAIN)).


Import Typer.

(** A voice-activity check that always reports speech, an engine that
    always hears the same words. *)
Definition always_speech (_ : list Z) (_ _ _ _ : Z) (_ : bool) : bool := false.

Definition hears_hello (_ : list Z) : string := "  hello ".

Definition toggle_params : typer_params Z := mkParams 0 0 1500 30000 false false.

(** Recording since time 0 in toggle mode, the press flag raised. *)
Definition recording_with_press : Loop Z :=
  mkLoop RECORDING [] 0 0 false
         (Hotkey.mkListener Hotkey.Impl0 true true false false) false.

(** The clock reads [k] milliseconds; the audio buffer holds three samples. *)
Definition at_ms (k : Z) : Input Z :=
  mkInput true true (k * 1000000) (k * 1000000) (fun _ _ => [1; 2; 3]).

(** Entering TRANSCRIBING with speech detected: the engine runs on the
    three samples and the trimmed text is typed. *)
Definition transcribing_with_speech : Loop Z :=
  mkLoop TRANSCRIBING [] 0 0 true
         (Hotkey.mkListener Hotkey.Impl0 true false false false) false.

(** Recording with no stop pending and a three-sample buffer: the check
    that would report speech is not run. *)
Definition recording_quiet : Loop Z :=
  mkLoop RECORDING [] 0 0 false
         (Hotkey.mkListener Hotkey.Impl0 true false false false) false.

End Scenario.

(** ** Vocabulary for the listener as a whole *)

(** Every modifier the mask requires is held. *)
Definition required_held (m : Hotkey.Impl) : bool :=
  (negb (CType.nz (Z.land (Hotkey.modmask m) Hotkey.MOD_CTRL)) || Hotkey.ctrl m)
  && (negb (CType.nz (Z.land (Hotkey.modmask m) Hotkey.MOD_SHIFT)) || Hotkey.shift m)
  && (negb (CType.nz (Z.land (Hotkey.modmask m) Hotkey.MOD_ALT)) || Hotkey.alt m)
  && (negb (CType.nz (Z.land (Hotkey.modmask m) Hotkey.MOD_SUPER)) || Hotkey.super m).

(** A [read] ended because the device is gone. *)
Definition device_gone (e : Hotkey.ReadEnd) : bool :=
  match e with
  | Hotkey.ReadErrno errno => (errno =? Evdev.EIO) || (errno =? Evdev.ENODEV)
  | Hotkey.ReadCount _ => false
  end.

(** How often the callback was called with [key_down] in a trace. *)
Definition callbacks (key_down : bool) (t : list Hotkey.Effect) : nat :=
  List.length
    (filter (fun e => match e with
                      | Hotkey.Callback b => Bool.eqb b key_down
                      | _ => false
                      end) t).

(** A directory entry the scan keeps: an event node that opens, reports
    key events and has the key A. *)
Definition is_keyboard (ent : Hotkey.Device) : bool :=
  String.prefix "event" (Hotkey.d_name ent)
  && (0 <=? Hotkey.open_result ent)
  && match Hotkey.evbits ent with
     | Some ev => Hotkey.test_bit ev Evdev.EV_KEY
     | None => false
     end
  && match Hotkey.keybits ent with
     | Some kb => Hotkey.test_bit kb Evdev.KEY_A
     | None => false
     end.

(** ** Vocabulary for hotkey strings *)

Fixpoint no_plus (s : string) : bool :=
  match s with
  | EmptyString => true
  | String c r => negb (CType.code c =? 43) && no_plus r
  end.

Definition starts_with_space (s : string) : bool :=
  match s with
  | EmptyString => false
  | String c _ => CType.isspace c
  end.

Fixpoint ends_with_space (s : string) : bool :=
  match s with
  | EmptyString => false
  | String c EmptyString => CType.isspace c
  | String _ r => ends_with_space r
  end.

(** A part as the split loop yields them: not empty, without ['+'], with
    no whitespace at either end. *)
Definition clean_token (p : string) : bool :=
  negb (CType.empty p) && no_plus p
  && negb (starts_with_space p) && negb (ends_with_space p).

(** The parts written back with ['+'] between them. *)
Fixpoint join_plus (parts : list string) : string :=
  match parts with
  | [] => EmptyString
  | [p] => p
  | p :: rest => String.append p (String "+" (join_plus rest))
  end.

(** ** Vocabulary for the text output *)

(** The commands run in a trace, each with what it is fed on stdin. *)
Definition commands (t : list TextOutput.Effect)
  : list (list string * option string) :=
  flat_map (fun e => match e with
                     | TextOutput.Run argv stdin_data => [(argv, stdin_data)]
                     | _ => []
                     end) t.

(** The time a trace spends in [sleep_for], in milliseconds. *)
Definition slept (t : list TextOutput.Effect) : Z :=
  fold_right (fun e acc => match e with
                           | TextOutput.Sleep ms => ms + acc
                           | _ => acc
                           end) 0 t.

Definition is_newline (c : ascii) : bool :=
  (CType.code c =? 10) || (CType.code c =? 13).

Fixpoint all_newlines (s : string) : bool :=
  match s with
  | EmptyString => true
  | String c r => is_newline c && all_newlines r
  end.

Fixpoint ends_with_newline (s : string) : bool :=
  match s with
  | EmptyString => false
  | String c EmptyString => is_newline c
  | String _ r => ends_with_newline r
  end.

(** A desktop for trying the delivery out: the world is the clipboard
    text; [xclip -o] prints it, [xclip] with input replaces it (or exits
    with 1 when [broken]), the active window is 42 and its class is
    [cls]; every other command succeeds silently. *)
Definition toy_desktop (broken : bool) (cls : string) (argv : list string)
  (timeout_ms : Z) (stdin_data : option string) (capture : bool)
  (clipboard : string) : Z * string * string :=
  if (hd "" argv =? "xclip")%string then
    if existsb (String.eqb "-o") argv then (0, clipboard, clipboard)
    else match stdin_data with
         | Some data => if broken then (1, "", clipboard) else (0, "", data)
         | None => (1, "", clipboard)
         end
  else if (nth 1 argv "" =? "getactivewindow")%string
  then (0, String.append "42" (String (ascii_of_nat 10) ""), clipboard)
  else if (nth 1 argv "" =? "getwindowclassname")%string
  then (0, String.append cls (String (ascii_of_nat 10) ""), clipboard)
  else (0, "", clipboard).

(** A command is the paste keystroke: [xdotool key ...]. *)
Definition is_key_command (c : list string * option string) : bool :=
  (nth 1 (fst c) "" =? "key")%string.

(** ** [transcribe] of [src/typer.cpp] *)
Module Transcribe.

(** [transcribe]: [whisper_full] is the engine as the function sees it,
    its return code and the texts of the segments it then reports; the
    parameters it is given do not decide what the function does with them. *)
Definition transcribe {float : Type}
  (whisper_full : list float -> Z * list string) (pcmf32 : list float)
  : string :=
  let (rc, segments) := whisper_full pcmf32 in
  if negb (rc =? 0) then EmptyString
  else fold_left String.append segments EmptyString.

End Transcribe.

(** ** Vocabulary for the main loop *)

(** The arrows of the state machine. *)
Definition may_follow (a b : Typer.State) : bool :=
  match a, b with
  | Typer.IDLE, Typer.IDLE | Typer.IDLE, Typer.RECORDING => true
  | Typer.RECORDING, Typer.RECORDING
  | Typer.RECORDING, Typer.TRANSCRIBING => true
  | Typer.TRANSCRIBING, Typer.IDLE => true
  | _, _ => false
  end.

(** * Command line: [typer.cpp], [typer_params_parse] *)

Module Cli.

Section Params.

(** The C++ [float], and [std::stoi(s, &pos)] and [std::stof(s, &pos)]
    of the C++ library: the value and the number of characters used, or
    [None] where they throw. *)
Variable float : Type.
Variable stoi : string -> option (Z * Z).
Variable stof : string -> option (float * Z).

Record typer_params := mk_typer_params {
  n_threads : Z;
  capture_id : Z;
  audio_ctx : Z;
  translate : bool;
  use_gpu : bool;
  flash_attn : bool;
  language : string;
  model : string;
  vad_thold : float;
  freq_thold : float;
  silence_ms : Z;
  max_record_ms : Z;
  vad_model_path : string;
  hotkey : string;
  push_to_talk : bool;
  use_clipboard : bool;
  type_delay_ms : Z;
  daemonize : bool;
  print_energy : bool
}.

Definition with_n_threads (v : Z) (p : typer_params) : typer_params :=
  mk_typer_params v (capture_id p) (audio_ctx p) (translate p) (use_gpu p)
    (flash_attn p) (language p) (model p) (vad_thold p) (freq_thold p)
    (silence_ms p) (max_record_ms p) (vad_model_path p) (hotkey p)
    (push_to_talk p) (use_clipboard p) (type_delay_ms p) (daemonize p)
    (print_energy p).

Definition with_capture_id (v : Z) (p : typer_params) : typer_params :=
  mk_typer_params (n_threads p) v (audio_ctx p) (translate p) (use_gpu p)
    (flash_attn p) (language p) (model p) (vad_thold p) (freq_thold p)
    (silence_ms p) (max_record_ms p) (vad_model_path p) (hotkey p)
    (push_to_talk p) (use_clipboard p) (type_delay_ms p) (daemonize p)
    (print_energy p).

Definition with_audio_ctx (v : Z) (p : typer_params) : typer_params :=
  mk_typer_params (n_threads p) (capture_id p) v (translate p) (use_gpu p)
    (flash_attn p) (language p) (model p) (vad_thold p) (freq_thold p)
    (silence_ms p) (max_record_ms p) (vad_model_path p) (hotkey p)
    (push_to_talk p) (use_clipboard p) (type_delay_ms p) (daemonize p)
    (print_energy p).

Definition with_translate (v : bool) (p : typer_params) : typer_params :=
  mk_typer_params (n_threads p) (capture_id p) (audio_ctx p) v (use_gpu p)
    (flash_attn p) (language p) (model p) (vad_thold p) (freq_thold p)
    (silence_ms p) (max_record_ms p) (vad_model_path p) (hotkey p)
    (push_to_talk p) (use_clipboard p) (type_delay_ms p) (daemonize p)
    (print_energy p).

Definition with_use_gpu (v : bool) (p : typer_params) : typer_params :=
  mk_typer_params (n_threads p) (capture_id p) (audio_ctx p) (translate p)
    v (flash_attn p) (language p) (model p) (vad_thold p) (freq_thold p)
    (silence_ms p) (max_record_ms p) (vad_model_path p) (hotkey p)
    (push_to_talk p) (use_clipboard p) (type_delay_ms p) (daemonize p)
    (print_energy p).

Definition with_flash_attn (v : bool) (p : typer_params) : typer_params :=
  mk_typer_params (n_threads p) (capture_id p) (audio_ctx p) (translate p)
    (use_gpu p) v (language p) (model p) (vad_thold p) (freq_thold p)
    (silence_ms p) (max_record_ms p) (vad_model_path p) (hotkey p)
    (push_to_talk p) (use_clipboard p) (type_delay_ms p) (daemonize p)
    (print_energy p).

Definition with_language (v : string) (p : typer_params) : typer_params :=
  mk_typer_params (n_threads p) (capture_id p) (audio_ctx p) (translate p)
    (use_gpu p) (flash_attn p) v (model p) (vad_thold p) (freq_thold p)
    (silence_ms p) (max_record_ms p) (vad_model_path p) (hotkey p)
    (push_to_talk p) (use_clipboard p) (type_delay_ms p) (daemonize p)
    (print_energy p).

Definition with_model (v : string) (p : typer_params) : typer_params :=
  mk_typer_params (n_threads p) (capture_id p) (audio_ctx p) (translate p)
    (use_gpu p) (flash_attn p) (language p) v (vad_thold p) (freq_thold p)
    (silence_ms p) (max_record_ms p) (vad_model_path p) (hotkey p)
    (push_to_talk p) (use_clipboard p) (type_delay_ms p) (daemonize p)
    (print_energy p).

Definition with_vad_thold (v : float) (p : typer_params) : typer_params :=
  mk_typer_params (n_threads p) (capture_id p) (audio_ctx p) (translate p)
    (use_gpu p) (flash_attn p) (language p) (model p) v (freq_thold p)
    (silence_ms p) (max_record_ms p) (vad_model_path p) (hotkey p)
    (push_to_talk p) (use_clipboard p) (type_delay_ms p) (daemonize p)
    (print_energy p).

Definition with_freq_thold (v : float) (p : typer_params) : typer_params :=
  mk_typer_params (n_threads p) (capture_id p) (audio_ctx p) (translate p)
    (use_gpu p) (flash_attn p) (language p) (model p) (vad_thold p) v
    (silence_ms p) (max_record_ms p) (vad_model_path p) (hotkey p)
    (push_to_talk p) (use_clipboard p) (type_delay_ms p) (daemonize p)
    (print_energy p).

Definition with_silence_ms (v : Z) (p : typer_params) : typer_params :=
  mk_typer_params (n_threads p) (capture_id p) (audio_ctx p) (translate p)
    (use_gpu p) (flash_attn p) (language p) (model p) (vad_thold p)
    (freq_thold p) v (max_record_ms p) (vad_model_path p) (hotkey p)
    (push_to_talk p) (use_clipboard p) (type_delay_ms p) (daemonize p)
    (print_energy p).

Definition with_max_record_ms (v : Z) (p : typer_params) : typer_params :=
  mk_typer_params (n_threads p) (capture_id p) (audio_ctx p) (translate p)
    (use_gpu p) (flash_attn p) (language p) (model p) (vad_thold p)
    (freq_thold p) (silence_ms p) v (vad_model_path p) (hotkey p)
    (push_to_talk p) (use_clipboard p) (type_delay_ms p) (daemonize p)
    (print_energy p).

Definition with_vad_model_path (v : string) (p : typer_params) : typer_params :=
  mk_typer_params (n_threads p) (capture_id p) (audio_ctx p) (translate p)
    (use_gpu p) (flash_attn p) (language p) (model p) (vad_thold p)
    (freq_thold p) (silence_ms p) (max_record_ms p) v (hotkey p)
    (push_to_talk p) (use_clipboard p) (type_delay_ms p) (daemonize p)
    (print_energy p).

Definition with_hotkey (v : string) (p : typer_params) : typer_params :=
  mk_typer_params (n_threads p) (capture_id p) (audio_ctx p) (translate p)
    (use_gpu p) (flash_attn p) (language p) (model p) (vad_thold p)
    (freq_thold p) (silence_ms p) (max_record_ms p) (vad_model_path p) v
    (push_to_talk p) (use_clipboard p) (type_delay_ms p) (daemonize p)
    (print_energy p).

Definition with_push_to_talk (v : bool) (p : typer_params) : typer_params :=
  mk_typer_params (n_threads p) (capture_id p) (audio_ctx p) (translate p)
    (use_gpu p) (flash_attn p) (language p) (model p) (vad_thold p)
    (freq_thold p) (silence_ms p) (max_record_ms p) (vad_model_path p)
    (hotkey p) v (use_clipboard p) (type_delay_ms p) (daemonize p)
    (print_energy p).

Definition with_use_clipboard (v : bool) (p : typer_params) : typer_params :=
  mk_typer_params (n_threads p) (capture_id p) (audio_ctx p) (translate p)
    (use_gpu p) (flash_attn p) (language p) (model p) (vad_thold p)
    (freq_thold p) (silence_ms p) (max_record_ms p) (vad_model_path p)
    (hotkey p) (push_to_talk p) v (type_delay_ms p) (daemonize p)
    (print_energy p).

Definition with_type_delay_ms (v : Z) (p : typer_params) : typer_params :=
  mk_typer_params (n_threads p) (capture_id p) (audio_ctx p) (translate p)
    (use_gpu p) (flash_attn p) (language p) (model p) (vad_thold p)
    (freq_thold p) (silence_ms p) (max_record_ms p) (vad_model_path p)
    (hotkey p) (push_to_talk p) (use_clipboard p) v (daemonize p)
    (print_energy p).

Definition with_daemonize (v : bool) (p : typer_params) : typer_params :=
  mk_typer_params (n_threads p) (capture_id p) (audio_ctx p) (translate p)
    (use_gpu p) (flash_attn p) (language p) (model p) (vad_thold p)
    (freq_thold p) (silence_ms p) (max_record_ms p) (vad_model_path p)
    (hotkey p) (push_to_talk p) (use_clipboard p) (type_delay_ms p) v
    (print_energy p).

Definition with_print_energy (v : bool) (p : typer_params) : typer_params :=
  mk_typer_params (n_threads p) (capture_id p) (audio_ctx p) (translate p)
    (use_gpu p) (flash_attn p) (language p) (model p) (vad_thold p)
    (freq_thold p) (silence_ms p) (max_record_ms p) (vad_model_path p)
    (hotkey p) (push_to_talk p) (use_clipboard p) (type_delay_ms p)
    (daemonize p) v.

(** [out] is assigned before the length check; what is printed to
    [stderr] is left out here and below. *)
Definition parse_int (s : string) (out : Z) : bool * Z :=
  match stoi s with
  | Some (v, pos) =>
      if negb (pos =? CType.size s) then (false, v) else (true, v)
  | None => (false, out)
  end.

Definition parse_float (s : string) (out : float) : bool * float :=
  match stof s with
  | Some (v, pos) =>
      if negb (pos =? CType.size s) then (false, v) else (true, v)
  | None => (false, out)
  end.

(** How a call ends: [return] with the parameters as they then are, or
    [exit(code)]. *)
Inductive Outcome :=
| Returned (ok : bool) (params : typer_params)
| Exited (code : Z).

(** [args] is [argv[1]], ..., [argv[argc - 1]]; one unfolding is one turn
    of the [for] loop, [rest] what follows [argv[i]].  [next_arg] is
    written out at its uses as the [match] on [rest]. *)
Fixpoint typer_params_parse (args : list string) (params : typer_params)
  : Outcome :=
  match args with
  | [] => Returned true params
  | arg :: rest =>
      let flag := fun (set : bool -> typer_params -> typer_params) b =>
        typer_params_parse rest (set b params) in
      let int_value := fun (get : typer_params -> Z)
                           (set : Z -> typer_params -> typer_params) =>
        match rest with
        | [] => Returned false params
        | v :: rest' =>
            let '(ok, out) := parse_int v (get params) in
            if negb ok then Returned false (set out params)
            else typer_params_parse rest' (set out params)
        end in
      let float_value := fun (get : typer_params -> float)
                             (set : float -> typer_params -> typer_params) =>
        match rest with
        | [] => Returned false params
        | v :: rest' =>
            let '(ok, out) := parse_float v (get params) in
            if negb ok then Returned false (set out params)
            else typer_params_parse rest' (set out params)
        end in
      let string_value := fun (set : string -> typer_params
                                     -> typer_params) =>
        match rest with
        | [] => Returned false params
        | v :: rest' => typer_params_parse rest' (set v params)
        end in
      if ((arg =? "-h") || (arg =? "--help"))%string then Exited 0
      else if ((arg =? "-t") || (arg =? "--threads"))%string
        then int_value n_threads with_n_threads
      else if ((arg =? "-m") || (arg =? "--model"))%string
        then string_value with_model
      else if ((arg =? "-l") || (arg =? "--language"))%string
        then string_value with_language
      else if ((arg =? "-c") || (arg =? "--capture"))%string
        then int_value capture_id with_capture_id
      else if ((arg =? "-ng") || (arg =? "--no-gpu"))%string
        then flag with_use_gpu false
      else if ((arg =? "-fa") || (arg =? "--flash-attn"))%string
        then flag with_flash_attn true
      else if ((arg =? "-nfa") || (arg =? "--no-flash-attn"))%string
        then flag with_flash_attn false
      else if ((arg =? "-tr") || (arg =? "--translate"))%string
        then flag with_translate true
      else if ((arg =? "-ac") || (arg =? "--audio-ctx"))%string
        then int_value audio_ctx with_audio_ctx
      else if (arg =? "--hotkey")%string then string_value with_hotkey
      else if (arg =? "--push-to-talk")%string
        then flag with_push_to_talk true
      else if (arg =? "--silence-ms")%string
        then int_value silence_ms with_silence_ms
      else if (arg =? "--max-record-ms")%string
        then int_value max_record_ms with_max_record_ms
      else if (arg =? "--vad-thold")%string
        then float_value vad_thold with_vad_thold
      else if (arg =? "--freq-thold")%string
        then float_value freq_thold with_freq_thold
      else if (arg =? "--vad-model")%string
        then string_value with_vad_model_path
      else if (arg =? "--no-clipboard")%string
        then flag with_use_clipboard false
      else if (arg =? "--type-delay-ms")%string
        then int_value type_delay_ms with_type_delay_ms
      else if (arg =? "--daemon")%string then flag with_daemonize true
      else if ((arg =? "-pe") || (arg =? "--print-energy"))%string
        then flag with_print_energy true
      else Exited 1
  end.

(** The member initialisers of [typer_params]; [hardware_concurrency] is
    what [std::thread::hardware_concurrency()] returns, and the two
    [float] literals are taken as given. *)
Definition defaults (hardware_concurrency : Z) (f0_6 f100 : float)
  : typer_params :=
  mk_typer_params (Z.min 4 hardware_concurrency) (-1) 0 false true true
    "en" "models/ggml-base.en.bin" f0_6 f100 1500 30000 "" "ctrl+period"
    false true 12 false false.

End Params.

Arguments Returned {float}.
Arguments Exited {float}.

End Cli.

(** ** Vocabulary for the command line *)

(** What the option table of [typer_params_parse] makes of one argument. *)
Inductive OptionKind :=
| HelpOption
| FlagOption
| IntOption
| FloatOption
| StringOption
| UnknownOption.

Definition help_names : list string := ["-h"; "--help"].

Definition flag_names : list string :=
  ["-ng"; "--no-gpu"; "-fa"; "--flash-attn"; "-nfa"; "--no-flash-attn";
   "-tr"; "--translate"; "--push-to-talk"; "--no-clipboard"; "--daemon";
   "-pe"; "--print-energy"].

Definition int_names : list string :=
  ["-t"; "--threads"; "-c"; "--capture"; "-ac"; "--audio-ctx";
   "--silence-ms"; "--max-record-ms"; "--type-delay-ms"].

Definition float_names : list string := ["--vad-thold"; "--freq-thold"].

Definition string_names : list string :=
  ["-m"; "--model"; "-l"; "--language"; "--hotkey"; "--vad-model"].

Definition named (arg : string) (names : list string) : bool :=
  existsb (String.eqb arg) names.

Definition option_kind (arg : string) : OptionKind :=
  if named arg help_names then HelpOption
  else if named arg flag_names then FlagOption
  else if named arg int_names then IntOption
  else if named arg float_names then FloatOption
  else if named arg string_names then StringOption
  else UnknownOption.

(** Whether [args] is read to its end without an error or an exit. *)
Definition accepted {float} (o : Cli.Outcome float)
  : option (Cli.typer_params float) :=
  match o with
  | Cli.Returned true p => Some p
  | _ => None
  end.

(** A machine with eight hardware threads, and a [std::stoi] that knows
    two inputs: it reads [8] whole and stops in [12abc] after two
    characters. *)
Module Invocation.

Definition float : Type := QArith_base.Q.

Definition stoi (s : string) : option (Z * Z) :=
  if (s =? "8")%string then Some (8, 1)
  else if (s =? "12abc")%string then Some (12, 2)
  else None.

Definition stof (s : string) : option (float * Z) := None.

Definition defaults : Cli.typer_params float :=
  Cli.defaults float 8 (QArith_base.Qmake 6 10) (QArith_base.Qmake 100 1).

Definition parse : list string -> Cli.typer_params float
                   -> Cli.Outcome float :=
  Cli.typer_params_parse float stoi stof.

End Invocation.

(** ** The hotkey grammar in the specification's words *)

(** The modifier alias families, each with its flag. *)
Definition alias_families : list (list string * Z) :=
  [ (["ctrl"; "control"], Hotkey.MOD_CTRL);
    (["shift"], Hotkey.MOD_SHIFT);
    (["alt"], Hotkey.MOD_ALT);
    (["super"; "mod4"; "meta"; "super_l"; "super_r"], Hotkey.MOD_SUPER) ].

(** The flag of the family that lists the (lower-case) token, if any. *)
Definition alias_flag (lower : string) : option Z :=
  match find (fun family => existsb (String.eqb lower) (fst family))
             alias_families with
  | Some family => Some (snd family)
  | None => None
  end.

(** The OR of the flags of the modifier tokens [mods]. *)
Definition alias_mask (mods : list string) : Z :=
  fold_left
    (fun acc p =>
       match alias_flag (CType.lowercase p) with
       | Some flag => Z.lor acc flag
       | None => acc
       end) mods 0.

Fixpoint drop_while (p : ascii -> bool) (l : list ascii) : list ascii :=
  match l with
  | [] => []
  | c :: r => if p c then drop_while p r else l
  end.

(** A token without the whitespace before and after it. *)
Definition trim_spaces (token : string) : string :=
  string_of_list_ascii
    (rev (drop_while CType.isspace
            (rev (drop_while CType.isspace (list_ascii_of_string token))))).

(** Split at ['+'], trim each token, drop the empty ones. *)
Definition hotkey_tokens (s : string) : list string :=
  filter (fun token => negb (token =? "")%string)
         (map trim_spaces (split_on_plus s EmptyString)).

(** ** Vocabulary for the clipboard delivery *)

(** The commands a clipboard delivery may run, each with its input: the
    read of the clipboard, a write of [text] or of the [saved] clipboard,
    the two window queries and the paste keystroke.  Apart from fixed
    words the only argument is [window_id]; [text] is only ever an
    input. *)
Definition clipboard_command (text saved window_id : string)
  (c : list string * option string) : Prop :=
  c = (["xclip"; "-selection"; "clipboard"; "-o"], None) \/
  c = (["xclip"; "-selection"; "clipboard"], Some text) \/
  c = (["xclip"; "-selection"; "clipboard"], Some saved) \/
  c = (["xdotool"; "getactivewindow"], None) \/
  c = (["xdotool"; "getwindowclassname"; window_id], None) \/
  c = (["xdotool"; "key"; "--clearmodifiers"; "ctrl+v"], None) \/
  c = (["xdotool"; "key"; "--clearmodifiers"; "--window"; window_id;
        "ctrl+v"], None) \/
  c = (["xdotool"; "key"; "--clearmodifiers"; "--window"; window_id;
        "ctrl+shift+v"], None).

(** ** Vocabulary for the modifier keys *)

(** The set of held modifier families over the [MOD_*] flags, from the
    states of the eight keys: a family is held when its left or its right
    key is. *)
Definition held_set (cl cr sl sr al ar ul ur : bool) : Z :=
  Z.lor (Z.lor (if cl || cr then Hotkey.MOD_CTRL else 0)
               (if sl || sr then Hotkey.MOD_SHIFT else 0))
        (Z.lor (if al || ar then Hotkey.MOD_ALT else 0)
               (if ul || ur then Hotkey.MOD_SUPER else 0)).

(** The eight modifier keys. *)
Inductive ModKey :=
| LeftCtrl | RightCtrl | LeftShift | RightShift
| LeftAlt | RightAlt | LeftMeta | RightMeta.

Definition mod_code (k : ModKey) : Z :=
  match k with
  | LeftCtrl => Evdev.KEY_LEFTCTRL
  | RightCtrl => Evdev.KEY_RIGHTCTRL
  | LeftShift => Evdev.KEY_LEFTSHIFT
  | RightShift => Evdev.KEY_RIGHTSHIFT
  | LeftAlt => Evdev.KEY_LEFTALT
  | RightAlt => Evdev.KEY_RIGHTALT
  | LeftMeta => Evdev.KEY_LEFTMETA
  | RightMeta => Evdev.KEY_RIGHTMETA
  end.

(** The boolean of [Impl] that records whether the key is down. *)
Definition mod_held (k : ModKey) (m : Hotkey.Impl) : bool :=
  match k with
  | LeftCtrl => Hotkey.ctrl_l m
  | RightCtrl => Hotkey.ctrl_r m
  | LeftShift => Hotkey.shift_l m
  | RightShift => Hotkey.shift_r m
  | LeftAlt => Hotkey.alt_l m
  | RightAlt => Hotkey.alt_r m
  | LeftMeta => Hotkey.super_l m
  | RightMeta => Hotkey.super_r m
  end.

(** The other key of the same family. *)
Definition sibling (k : ModKey) : ModKey :=
  match k with
  | LeftCtrl => RightCtrl
  | RightCtrl => LeftCtrl
  | LeftShift => RightShift
  | RightShift => LeftShift
  | LeftAlt => RightAlt
  | RightAlt => LeftAlt
  | LeftMeta => RightMeta
  | RightMeta => LeftMeta
  end.

(** The flag of the key's family in the required mask. *)
Definition family_flag (k : ModKey) : Z :=
  match k with
  | LeftCtrl | RightCtrl => Hotkey.MOD_CTRL
  | LeftShift | RightShift => Hotkey.MOD_SHIFT
  | LeftAlt | RightAlt => Hotkey.MOD_ALT
  | LeftMeta | RightMeta => Hotkey.MOD_SUPER
  end.

(** The event reports a key going up. *)
Definition is_key_release (ev : Hotkey.input_event) : bool :=
  (Hotkey.ev_type ev =? Evdev.EV_KEY) && (Hotkey.ev_value ev =? 0).

(** * Properties *)

(** ** The exact-match predicate *)

Section ExactMatch.
Import CType Hotkey.

Lemma land_pow2 (x i : Z) :
  0 <= i -> Z.land x (2 ^ i) = if Z.testbit x i then 2 ^ i else 0.
Proof.
  intros Hi. apply Z.bits_inj'. intros n Hn.
  rewrite Z.land_spec, Z.pow2_bits_eqb by assumption.
  destruct (Z.eqb_spec i n) as [->|Hne].
  - destruct (Z.testbit x n) eqn:E.
    + now rewrite Z.pow2_bits_true.
    + now rewrite Z.bits_0.
  - rewrite andb_false_r. destruct (Z.testbit x i).
    + now rewrite Z.pow2_bits_false.
    + now rewrite Z.bits_0.
Qed.

Lemma nz_flag (x i : Z) :
  0 <= i -> nz (Z.land x (Z.shiftl 1 i)) = Z.testbit x i.
Proof.
  intros Hi. rewrite Z.shiftl_1_l, land_pow2 by assumption.
  unfold nz. destruct (Z.testbit x i); [|reflexivity].
  assert (0 < 2 ^ i) by (apply Z.pow_pos_nonneg; lia).
  destruct (Z.eqb_spec (2 ^ i) 0); [lia|reflexivity].
Qed.

Lemma land_15 (x : Z) :
  Z.land x 15 =
  Z.b2z (Z.testbit x 0) + 2 * Z.b2z (Z.testbit x 1)
  + 4 * Z.b2z (Z.testbit x 2) + 8 * Z.b2z (Z.testbit x 3).
Proof.
  change 15 with (Z.ones 4). rewrite Z.land_ones by lia.
  rewrite !Z.testbit_spec' by lia.
  change (2 ^ 0) with 1; change (2 ^ 1) with 2; change (2 ^ 2) with 4;
    change (2 ^ 3) with 8; change (2 ^ 4) with 16.
  Z.to_euclidean_division_equations. lia.
Qed.

(** [mods_match] as four comparisons, one per family. *)
Lemma mods_match_families (m : Impl) :
  mods_match m =
  Bool.eqb (ctrl m) (Z.testbit (modmask m) 0)
  && Bool.eqb (shift m) (Z.testbit (modmask m) 1)
  && Bool.eqb (alt m) (Z.testbit (modmask m) 2)
  && Bool.eqb (super m) (Z.testbit (modmask m) 3).
Proof.
  unfold mods_match, MOD_CTRL, MOD_SHIFT, MOD_ALT, MOD_SUPER.
  rewrite !nz_flag by lia.
  destruct (ctrl m), (shift m), (alt m), (super m),
    (Z.testbit (modmask m) 0), (Z.testbit (modmask m) 1),
    (Z.testbit (modmask m) 2), (Z.testbit (modmask m) 3); reflexivity.
Qed.

(** C1.  [mods_match] succeeds exactly when, for each of the four
    families, the left or the right key is held if and only if the
    family's flag is in the required mask; as sets, when the set of held
    families equals the required set on the four flags (the whole mask,
    when it has no other bit).  With [ctrl] required and [ctrl] and
    [shift] held there is no match, whichever of the two keys are down. *)
Theorem mods_match_exact (m : Impl) :
  (mods_match m = true <->
     (ctrl_l m || ctrl_r m) = nz (Z.land (modmask m) MOD_CTRL) /\
     (shift_l m || shift_r m) = nz (Z.land (modmask m) MOD_SHIFT) /\
     (alt_l m || alt_r m) = nz (Z.land (modmask m) MOD_ALT) /\
     (super_l m || super_r m) = nz (Z.land (modmask m) MOD_SUPER))
  /\ (mods_match m = true <->
      held_set (ctrl_l m) (ctrl_r m) (shift_l m) (shift_r m)
               (alt_l m) (alt_r m) (super_l m) (super_r m)
      = Z.land (modmask m) 15)
  /\ (0 <= modmask m < 16 ->
      (mods_match m = true <->
       held_set (ctrl_l m) (ctrl_r m) (shift_l m) (shift_r m)
                (alt_l m) (alt_r m) (super_l m) (super_r m)
       = modmask m))
  /\ (forall handles key cl cr sl sr,
        cl || cr = true -> sl || sr = true ->
        mods_match (mkImpl handles key MOD_CTRL cl cr sl sr
                           false false false false) = false)
  /\ (forall handles key cl cr sl sr al ar ul ur,
        mods_match (mkImpl handles key MOD_CTRL cl cr sl sr al ar ul ur)
        = (cl || cr) && negb (sl || sr) && negb (al || ar)
          && negb (ul || ur)).
Proof.
  assert (Hmask : mods_match m = true <->
            held_set (ctrl_l m) (ctrl_r m) (shift_l m) (shift_r m)
                     (alt_l m) (alt_r m) (super_l m) (super_r m)
            = Z.land (modmask m) 15).
  { rewrite mods_match_families, land_15.
    unfold held_set, ctrl, shift, alt, super,
      MOD_CTRL, MOD_SHIFT, MOD_ALT, MOD_SUPER.
    destruct (ctrl_l m || ctrl_r m), (shift_l m || shift_r m),
      (alt_l m || alt_r m), (super_l m || super_r m),
      (Z.testbit (modmask m) 0), (Z.testbit (modmask m) 1),
      (Z.testbit (modmask m) 2), (Z.testbit (modmask m) 3); simpl;
      (split; intros H; try discriminate; try lia; try reflexivity). }
  split; [|split; [exact Hmask|split; [|split]]].
  - rewrite mods_match_families.
    unfold ctrl, shift, alt, super, MOD_CTRL, MOD_SHIFT, MOD_ALT, MOD_SUPER.
    rewrite !nz_flag by lia.
    destruct (ctrl_l m || ctrl_r m), (shift_l m || shift_r m),
      (alt_l m || alt_r m), (super_l m || super_r m),
      (Z.testbit (modmask m) 0), (Z.testbit (modmask m) 1),
      (Z.testbit (modmask m) 2), (Z.testbit (modmask m) 3); simpl;
      (split; intros H; try discriminate; try tauto;
       try (destruct H as (?&?&?&?); discriminate)).
  - intros Hrange. rewrite Hmask.
    change 15 with (Z.ones 4). rewrite Z.land_ones by lia.
    now rewrite Z.mod_small by (change (2 ^ 4) with 16; lia).
  - intros handles key cl cr sl sr Hc Hs.
    unfold mods_match, ctrl, shift, alt, super. cbn.
    rewrite Hc, Hs. reflexivity.
  - intros. unfold mods_match, ctrl, shift, alt, super. cbn.
    destruct (cl || cr), (sl || sr), (al || ar), (ul || ur); reflexivity.
Qed.

End ExactMatch.

(** ** Key events and the edge flags *)

Section Events.
Import CType Hotkey.

Lemma update_modifier_keeps_hotkey (code : Z) (pressed : bool) (m : Impl) :
  key_code (update_modifier code pressed m) = key_code m /\
  modmask (update_modifier code pressed m) = modmask m /\
  fds (update_modifier code pressed m) = fds m.
Proof.
  unfold update_modifier.
  repeat match goal with |- context [if ?c then _ else _] => destruct c end;
    auto.
Qed.

(** What [update_modifier] does on the release of a modifier key, read
    off the eight booleans. *)
Lemma release_update (k : ModKey) (m : Impl) :
  is_modifier (mod_code k) = true /\
  mod_held k (update_modifier (mod_code k) false m) = false /\
  (forall k', k' <> k ->
     mod_held k' (update_modifier (mod_code k) false m) = mod_held k' m) /\
  (nz (Z.land (modmask m) (family_flag k)) = true ->
   mod_held (sibling k) m = false ->
   mods_match (update_modifier (mod_code k) false m) = false).
Proof.
  split; [destruct k; reflexivity|].
  split; [destruct k; reflexivity|].
  split.
  - intros k' Hk'. destruct k, k'; try reflexivity; contradiction.
  - intros Hreq Hsib. rewrite mods_match_families.
    destruct (update_modifier_keeps_hotkey (mod_code k) false m)
      as (_ & Hm & _).
    rewrite Hm. unfold ctrl, shift, alt, super.
    destruct k; cbn [family_flag sibling mod_held] in Hreq, Hsib;
      cbn -[Z.testbit];
      unfold MOD_CTRL, MOD_SHIFT, MOD_ALT, MOD_SUPER in Hreq;
      rewrite nz_flag in Hreq by lia; rewrite Hreq, ?orb_false_r, Hsib;
      repeat (cbn [orb Bool.eqb andb]; rewrite ?andb_false_r);
      reflexivity.
Qed.

(** C8.  The release of any of the eight modifier keys clears that key's
    boolean and leaves the other seven, the trigger key and the mask as
    they were; the hotkey is active after it only if it was active and the
    exact-match predicate still holds.  If the hotkey was active and the
    predicate fails after the update, this very step deactivates it,
    raises the release flag and calls the callback (when one is
    installed) with [false], once.  In particular, when the released key's
    family is in the required mask and the family's other key is not
    held, the hotkey is not active after the event, whatever the trigger
    key does. *)
Theorem modifier_release_deactivates (k : ModKey) (ev : input_event)
  (l : Listener) (active : bool) :
  ev_type ev = Evdev.EV_KEY -> ev_value ev = 0 -> ev_code ev = mod_code k ->
  let '(l', active', t) := process_event ev l active in
  mod_held k (m_impl l') = false /\
  (forall k', k' <> k ->
     mod_held k' (m_impl l') = mod_held k' (m_impl l)) /\
  key_code (m_impl l') = key_code (m_impl l) /\
  modmask (m_impl l') = modmask (m_impl l) /\
  (active' = true -> active = true /\ mods_match (m_impl l') = true) /\
  (active = true -> mods_match (m_impl l') = false ->
     active' = false /\ m_event_release l' = true /\
     m_event_press l' = m_event_press l /\
     t = if m_callback l then [Callback false] else []) /\
  (nz (Z.land (modmask (m_impl l)) (family_flag k)) = true ->
   mod_held (sibling k) (m_impl l) = false ->
   active' = false /\
   (active = true ->
    m_event_release l' = true /\
    t = if m_callback l then [Callback false] else [])).
Proof.
  intros Hty Hval Hcode. unfold process_event.
  destruct (release_update k (m_impl l)) as (Hmod & Hk & Hothers & Hreq).
  rewrite Hty, Hval, Hcode, Hmod. cbn [Z.eqb negb andb].
  destruct (update_modifier_keeps_hotkey (mod_code k) false (m_impl l))
    as (Hkey & Hmask & _).
  set (m1 := update_modifier (mod_code k) false (m_impl l)) in *.
  cbn [m_impl set_impl].
  destruct (mod_code k =? key_code m1); destruct active; cbn;
    destruct (mods_match m1) eqn:Hm; cbn; unfold fire; cbn;
    (split; [exact Hk|]); (split; [exact Hothers|]);
    (split; [exact Hkey|]); (split; [exact Hmask|]);
    (split; [intros; split; congruence|]);
    (split; [intros; repeat split; congruence|]);
    intros H1 H2; specialize (Hreq H1 H2);
    try congruence; repeat split; auto; intros; discriminate.
Qed.

(** The modifier-release rule at work: with ctrl+period active and only the
    left ctrl key held, releasing that key deactivates the hotkey, with no
    event on the period key. *)
Lemma modifier_release_deactivates_witness :
  let l := mkListener
             (mkImpl [3] Evdev.KEY_DOT MOD_CTRL true false false false
                     false false false false) true false false true in
  let ev := mkEvent Evdev.EV_KEY Evdev.KEY_LEFTCTRL 0 in
  let '(l', active', t) := process_event ev l true in
  ctrl_l (m_impl l') = false /\ active' = false /\
  m_event_release l' = true /\ t = [Callback false].
Proof.
  pose proof (modifier_release_deactivates LeftCtrl
                (mkEvent Evdev.EV_KEY Evdev.KEY_LEFTCTRL 0)
                (mkListener
                   (mkImpl [3] Evdev.KEY_DOT MOD_CTRL true false false false
                           false false false false) true false false true)
                true eq_refl eq_refl eq_refl) as H.
  cbv zeta.
  destruct (process_event _ _ true) as [[l' active'] t].
  destruct H as (Hk & _ & _ & _ & _ & _ & Hreq).
  destruct (Hreq eq_refl eq_refl) as (Ha & Hact).
  destruct (Hact eq_refl) as (Hr & Ht).
  split; [exact Hk|]. split; [exact Ha|]. split; [exact Hr|exact Ht].
Defined.





End Events.

(** ** Rescan after a disconnect *)

Section Rescan.
Import CType Hotkey.

Lemma open_after_app (t1 t2 : list Effect) (open : list Z) :
  open_after (t1 ++ t2) open = open_after t2 (open_after t1 open).
Proof.
  revert open. induction t1 as [|e t1 IH]; intros open; [reflexivity|].
  destruct e; cbn; auto. destruct (fd <? 0); auto.
Qed.

Lemma remove_one_in (fd : Z) (open : list Z) :
  In fd open -> Permutation open (fd :: remove_one fd open).
Proof.
  induction open as [|x open IH]; intros Hin; [contradiction|].
  cbn. destruct (Z.eqb_spec x fd) as [->|Hne]; [reflexivity|].
  destruct Hin as [->|Hin]; [congruence|].
  rewrite perm_swap. now constructor; apply IH.
Qed.

Lemma remove_one_perm (fd : Z) (open rest : list Z) :
  Permutation open (fd :: rest) -> Permutation (remove_one fd open) rest.
Proof.
  intros HP. apply Permutation_cons_inv with (a := fd).
  rewrite <- HP. symmetry. apply remove_one_in.
  apply Permutation_in with (l := fd :: rest); [now symmetry|now left].
Qed.

(** Closing every descriptor of [m_impl->fds] leaves none of them open. *)
Lemma close_all_closes (handles open : list Z) :
  Permutation open handles -> open_after (map SysClose handles) open = [].
Proof.
  revert open. induction handles as [|fd rest IH]; intros open HP.
  - cbn. now apply Permutation_nil.
  - cbn. apply IH. now apply remove_one_perm.
Qed.

(** The scan keeps open exactly the descriptors it adds to the vector. *)
Lemma scan_entries_open (ents : list Device) (acc open : list Z) :
  Permutation open acc ->
  let (found, t) := scan_entries ents acc in
  Permutation (open_after t open) found.
Proof.
  revert acc open. induction ents as [|ent ents IH]; intros acc open HP.
  - cbn. assumption.
  - cbn [scan_entries].
    destruct (negb (String.prefix "event" (d_name ent))); [now apply IH|].
    destruct (open_result ent <? 0) eqn:Hfd.
    + specialize (IH acc open HP). destruct (scan_entries ents acc) as [r t].
      cbn. now rewrite Hfd.
    + match goal with |- context [if ?k then _ else _] => destruct k end.
      * assert (HP' : Permutation (open_result ent :: open)
                                  (acc ++ [open_result ent])).
        { rewrite <- Permutation_cons_append. now constructor. }
        specialize (IH _ _ HP').
        destruct (scan_entries ents (acc ++ [open_result ent])) as [r t].
        cbn. now rewrite Hfd.
      * specialize (IH acc open HP). destruct (scan_entries ents acc) as [r t].
        cbn. now rewrite Hfd, Z.eqb_refl.
Qed.

Lemma backoff_no_handles (rounds j : nat) (running : nat -> bool)
  (open : list Z) :
  open_after (backoff rounds j running) open = open.
Proof.
  revert j. induction rounds as [|k IH]; intros j; cbn; [reflexivity|].
  destruct (running j); cbn; auto.
Qed.

(** C7.  An iteration that starts with [needs_rescan] set ends with all
    eight modifier booleans false and the hotkey inactive; its trace is the
    rescan log line, then a [close] of every descriptor held before, then
    the scan; and the descriptors left open by the trace are exactly the
    ones now in [fds] (nothing leaks).  The hotkey itself and the edge
    flags are untouched, and the flag stays set only if the scan found no
    keyboard. *)
Theorem rescan_resets_and_reopens (inp : IterInput) (l : Listener)
  (loc : Locals) :
  needs_rescan loc = true ->
  let '(l', loc', t) := listen_iter inp l loc in
  modifiers_clear (m_impl l') /\
  hotkey_active loc' = false /\
  needs_rescan loc' = empty_fds (fds (m_impl l')) /\
  (exists scan,
      t = Log "hotkey: device change detected, rescanning..."
            :: map SysClose (fds (m_impl l)) ++ scan /\
      forall open, Permutation open (fds (m_impl l)) ->
        open_after (Log "hotkey: device change detected, rescanning..."
                      :: map SysClose (fds (m_impl l))) open = [] /\
        Permutation (open_after t open) (fds (m_impl l'))) /\
  key_code (m_impl l') = key_code (m_impl l) /\
  modmask (m_impl l') = modmask (m_impl l) /\
  m_event_press l' = m_event_press l /\
  m_event_release l' = m_event_release l.
Proof.
  intros Hre. unfold listen_iter. rewrite Hre.
  unfold open_keyboards, close_all_fds. cbn [fds reset_modifiers set_fds].
  destruct (scan_dir inp) as [ents|].
  - pose proof (scan_entries_open ents [] [] (Permutation_refl _)) as Hscan.
    destruct (scan_entries ents []) as [found t] eqn:Escan.
    destruct (empty_fds found) eqn:Hfound; cbn [negb].
    + cbn -[backoff open_after]. repeat split; auto.
      eexists. split.
      * rewrite <- app_assoc. reflexivity.
      * intros open HP. cbn [open_after]. split; [now apply close_all_closes|].
        rewrite !open_after_app, close_all_closes by assumption.
        cbn [open_after]. now rewrite backoff_no_handles.
    + cbn -[backoff open_after]. repeat split; auto.
      eexists. split.
      * rewrite <- app_assoc. reflexivity.
      * intros open HP. cbn [open_after]. split; [now apply close_all_closes|].
        rewrite !open_after_app, close_all_closes by assumption.
        cbn [open_after]. assumption.
  - cbn -[backoff open_after]. repeat split; auto.
    eexists. split.
    + rewrite <- app_assoc. reflexivity.
    + intros open HP. cbn [open_after]. split; [now apply close_all_closes|].
      rewrite !open_after_app, close_all_closes by assumption.
      cbn [open_after]. now rewrite backoff_no_handles.
Qed.

End Rescan.

(** ** The key-name resolver and the hotkey string *)

Section Parsing.
Import CType Hotkey.

Ltac each_char c :=
  destruct c as [[] [] [] [] [] [] [] []]; reflexivity.

Lemma tolower_idem (c : ascii) : tolower (tolower c) = tolower c.
Proof. each_char c. Qed.

Lemma isspace_tolower (c : ascii) : isspace (tolower c) = isspace c.
Proof. each_char c. Qed.

Lemma plus_tolower (c : ascii) : (code (tolower c) =? 43) = (code c =? 43).
Proof. each_char c. Qed.

Lemma lowercase_idem (s : string) : lowercase (lowercase s) = lowercase s.
Proof.
  induction s as [|c s IH]; cbn; [reflexivity|].
  now rewrite tolower_idem, IH.
Qed.

Lemma lowercase_append (a b : string) :
  lowercase (String.append a b) = String.append (lowercase a) (lowercase b).
Proof. induction a as [|c a IH]; cbn; [reflexivity|]. now rewrite IH. Qed.

Lemma empty_lowercase (s : string) : empty (lowercase s) = empty s.
Proof. now destruct s. Qed.

Lemma getlines_lowercase (s part : string) :
  getlines (lowercase s) (lowercase part) = map lowercase (getlines s part).
Proof.
  revert part. induction s as [|c s IH]; intros part; cbn.
  - rewrite empty_lowercase. now destruct (empty part).
  - rewrite plus_tolower. destruct (code c =? 43); cbn.
    + f_equal. apply (IH "").
    + rewrite <- IH, lowercase_append. reflexivity.
Qed.

Lemma trim_front_lowercase (s : string) :
  trim_front (lowercase s) = lowercase (trim_front s).
Proof.
  induction s as [|c s IH]; cbn; [reflexivity|].
  rewrite isspace_tolower. now destruct (isspace c).
Qed.

Lemma trim_back_lowercase (s : string) :
  trim_back (lowercase s) = lowercase (trim_back s).
Proof.
  induction s as [|c s IH]; cbn; [reflexivity|].
  rewrite IH, empty_lowercase, isspace_tolower.
  now destruct (empty (trim_back s) && isspace c).
Qed.

Lemma split_parts_lowercase (s : string) :
  split_parts (lowercase s) = map lowercase (split_parts s).
Proof.
  unfold split_parts. change "" with (lowercase "") at 1.
  rewrite getlines_lowercase.
  induction (getlines s "") as [|p ps IH]; cbn; [reflexivity|].
  rewrite trim_front_lowercase, trim_back_lowercase, empty_lowercase, IH.
  now destruct (empty (trim_back (trim_front p))).
Qed.

Lemma modifier_loop_lowercase (parts : list string) (mask : Z) :
  modifier_loop (map lowercase parts) mask = modifier_loop parts mask.
Proof.
  revert mask. induction parts as [|p ps IH]; intros mask; [reflexivity|].
  destruct ps as [|q ps]; [reflexivity|].
  change (map lowercase (p :: q :: ps))
    with (lowercase p :: map lowercase (q :: ps)).
  cbn [modifier_loop]. cbn [map] in *. rewrite lowercase_idem.
  destruct (modifier_bit (lowercase p)); [apply IH|reflexivity].
Qed.

Lemma last_lowercase (parts : list string) :
  last (map lowercase parts) "" = lowercase (last parts "").
Proof.
  induction parts as [|p ps IH]; [reflexivity|].
  destruct ps as [|q ps]; [reflexivity|]. exact IH.
Qed.

Lemma name_to_evdev_lowercase (name : string) :
  name_to_evdev (lowercase name) = name_to_evdev name.
Proof. unfold name_to_evdev. now rewrite lowercase_idem. Qed.

Lemma parse_hotkey_lowercase (s : string) :
  parse_hotkey (lowercase s) = parse_hotkey s.
Proof.
  unfold parse_hotkey. rewrite split_parts_lowercase.
  destruct (split_parts s) as [|p ps] eqn:E; [reflexivity|].
  rewrite modifier_loop_lowercase, last_lowercase, name_to_evdev_lowercase.
  reflexivity.
Qed.

(** The [getline] loop and the textbook split differ only in a last empty
    piece, which the loop body drops anyway. *)
Lemma split_parts_tokens (s : string) : split_parts s = tokens_of s.
Proof.
  unfold split_parts, tokens_of. generalize "".
  induction s as [|c s IH]; intros piece; cbn.
  - destruct piece; reflexivity.
  - destruct (code c =? 43); cbn; now rewrite IH.
Qed.

Lemma modifier_loop_cons (p q : string) (ps : list string) (mask : Z) :
  modifier_loop (p :: q :: ps) mask =
  match modifier_bit (lowercase p) with
  | Some b => modifier_loop (q :: ps) (Z.lor mask b)
  | None => None
  end.
Proof. reflexivity. Qed.

Lemma modifier_loop_none (parts : list string) (mask : Z) :
  modifier_loop parts mask = None <->
  exists p, In p (removelast parts) /\ modifier_bit (lowercase p) = None.
Proof.
  revert mask. induction parts as [|p ps IH]; intros mask.
  - cbn. split; [discriminate|]. intros (p & [] & _).
  - destruct ps as [|q ps].
    + cbn. split; [discriminate|]. intros (p' & [] & _).
    + change (removelast (p :: q :: ps)) with (p :: removelast (q :: ps)).
      rewrite modifier_loop_cons.
      destruct (modifier_bit (lowercase p)) as [b|] eqn:Eb.
      * rewrite IH. split.
        -- intros (x & Hin & Hx). exists x. split; [now right|assumption].
        -- intros (x & [<-|Hin] & Hx); [congruence|]. now exists x.
      * split; [|reflexivity]. intros _. exists p. split; [now left|assumption].
Qed.

Lemma fold_mask_from (mods : list string) (mask : Z) :
  fold_left
    (fun acc p =>
       match modifier_bit (lowercase p) with
       | Some b => Z.lor acc b
       | None => acc
       end) mods mask
  = Z.lor mask (mask_of mods).
Proof.
  unfold mask_of. revert mask.
  induction mods as [|p ps IH]; intros mask; cbn [fold_left].
  - now rewrite Z.lor_0_r.
  - destruct (modifier_bit (lowercase p)) as [b|].
    + rewrite (IH (Z.lor mask b)), (IH (Z.lor 0 b)).
      now rewrite Z.lor_0_l, Z.lor_assoc.
    + apply IH.
Qed.

Lemma modifier_loop_some (parts : list string) (mask m : Z) :
  modifier_loop parts mask = Some m ->
  m = Z.lor mask (mask_of (removelast parts)).
Proof.
  revert mask. induction parts as [|p ps IH]; intros mask.
  - cbn. intros [= <-]. now rewrite Z.lor_0_r.
  - destruct ps as [|q ps].
    + cbn. intros [= <-]. now rewrite Z.lor_0_r.
    + change (removelast (p :: q :: ps)) with (p :: removelast (q :: ps)).
      rewrite modifier_loop_cons.
      destruct (modifier_bit (lowercase p)) as [b|] eqn:Eb; [|discriminate].
      intros H. apply IH in H. rewrite H.
      unfold mask_of at 2. cbn [fold_left]. rewrite Eb, fold_mask_from.
      now rewrite Z.lor_0_l, Z.lor_assoc.
Qed.

Lemma named_lookup_positive (tbl : list (list string * Z)) (lower : string)
  (k : Z) :
  Forall (fun row => 0 < snd row) tbl ->
  named_lookup tbl lower = Some k -> 0 < k.
Proof.
  induction 1 as [|[names k'] tbl Hk _ IH]; cbn; [discriminate|].
  destruct (is_one_of lower names); [now intros [= <-]|exact IH].
Qed.

Lemma named_keys_positive : Forall (fun row => 0 < snd row) named_keys.
Proof. unfold named_keys. repeat constructor. Qed.

Lemma named_lookup_table (lower : string) :
  in_named_table lower = false <-> named_lookup named_keys lower = None.
Proof.
  unfold in_named_table.
  induction named_keys as [|[names k] tbl IH]; cbn [existsb named_lookup fst].
  - tauto.
  - destruct (is_one_of lower names); cbn [orb];
      [split; discriminate|exact IH].
Qed.

Lemma letter_code_positive (k : Z) :
  0 <= k <= 25 -> 0 < nth (Z.to_nat k) letter_codes (-1).
Proof.
  intros Hk.
  assert (H : Forall (fun c => 0 < c) letter_codes)
    by (unfold letter_codes; repeat constructor).
  rewrite Forall_forall in H. apply H. apply nth_In.
  change (List.length letter_codes) with 26%nat. lia.
Qed.

(** The resolver answers [-1] or a key code, never another negative. *)
Lemma name_to_evdev_range (name : string) :
  name_to_evdev name = -1 \/ 0 < name_to_evdev name.
Proof.
  unfold name_to_evdev. set (lower := lowercase name).
  destruct ((size lower =? 1) && (97 <=? front lower) && (front lower <=? 122))
    eqn:E1.
  { right. apply letter_code_positive.
    apply andb_prop in E1 as [E1 E3]. apply andb_prop in E1 as [_ E2]. lia. }
  destruct ((size lower =? 1) && (48 <=? front lower) && (front lower <=? 57))
    eqn:E2.
  { right. apply andb_prop in E2 as [E2 E4]. apply andb_prop in E2 as [_ E3].
    destruct (front lower =? 48); cbv [Evdev.KEY_0 Evdev.KEY_1]; lia. }
  destruct (named_lookup named_keys lower) as [k|] eqn:E3.
  { right. eapply named_lookup_positive; [apply named_keys_positive|eassumption]. }
  destruct ((2 <=? size lower) && (front lower =? 102)); [|now left].
  destruct (fkey_number (tail lower) 0) as [n|]; [|now left].
  destruct ((1 <=? n) && (n <=? 12)) eqn:E4; [|now left].
  apply andb_prop in E4 as [E4 E5].
  destruct (n <=? 10); [right; cbv [Evdev.KEY_F1]; lia|].
  destruct (n =? 11); [right; reflexivity|].
  destruct (n =? 12); [right; reflexivity|now left].
Qed.

(** What [init] returns: false when parsing fails, and otherwise whether
    the scan found a keyboard. *)
Lemma init_returns (s : string) (dir : option (list Device)) (l : Listener) :
  fst (fst (init s dir l)) =
  match parse_hotkey s with
  | inl _ => false
  | inr _ => finds_keyboard dir
  end.
Proof.
  unfold init, finds_keyboard.
  destruct (parse_hotkey s) as [e|[key mask]]; [reflexivity|].
  unfold open_keyboards, close_all_fds. destruct dir as [ents|]; cbn.
  - destruct (scan_entries ents []) as [found t]. cbn.
    now destruct (empty_fds found).
  - reflexivity.
Qed.

Lemma modifier_bit_alias (lower : string) :
  modifier_bit lower = alias_flag lower.
Proof.
  unfold modifier_bit, alias_flag, alias_families.
  cbn [find existsb fst snd].
  repeat match goal with
         | |- context [(lower =? ?a)%string] =>
             destruct (lower =? a)%string; cbn [orb]; try reflexivity
         end.
Qed.

Lemma mask_of_alias (mods : list string) : mask_of mods = alias_mask mods.
Proof.
  unfold mask_of, alias_mask. generalize 0.
  induction mods as [|p ps IH]; intros acc; cbn [fold_left]; [reflexivity|].
  rewrite modifier_bit_alias. apply IH.
Qed.

Lemma trim_front_drop (p : string) :
  list_ascii_of_string (trim_front p)
  = drop_while isspace (list_ascii_of_string p).
Proof.
  induction p as [|c p IH]; cbn [trim_front list_ascii_of_string drop_while];
    [reflexivity|].
  destruct (isspace c); [exact IH|reflexivity].
Qed.

Lemma drop_while_snoc (f : ascii -> bool) (l : list ascii) (c : ascii) :
  drop_while f (l ++ [c]) =
  match drop_while f l with
  | [] => if f c then [] else [c]
  | kept => kept ++ [c]
  end.
Proof.
  induction l as [|x l IH]; cbn [app drop_while]; [reflexivity|].
  destruct (f x); [exact IH|reflexivity].
Qed.

Lemma trim_back_drop (p : string) :
  list_ascii_of_string (trim_back p)
  = rev (drop_while isspace (rev (list_ascii_of_string p))).
Proof.
  induction p as [|c p IH]; cbn [trim_back list_ascii_of_string];
    [reflexivity|].
  cbn [rev]. rewrite drop_while_snoc.
  destruct (drop_while isspace (rev (list_ascii_of_string p))) as [|x kept].
  - cbn [rev] in IH. destruct (trim_back p); [|discriminate IH].
    cbn [empty andb]. destruct (isspace c); reflexivity.
  - destruct (trim_back p) as [|d r].
    + cbn [list_ascii_of_string rev] in IH.
      apply (f_equal (@List.length ascii)) in IH.
      rewrite length_app in IH. cbn in IH. lia.
    + cbn [empty andb list_ascii_of_string]. rewrite rev_unit.
      f_equal. exact IH.
Qed.

Lemma trim_spaces_code (p : string) : trim_back (trim_front p) = trim_spaces p.
Proof.
  unfold trim_spaces. rewrite <- trim_front_drop, <- trim_back_drop.
  now rewrite string_of_list_ascii_of_string.
Qed.

Lemma empty_eqb (p : string) : empty p = (p =? "")%string.
Proof. now destruct p. Qed.

(** The split loop of [init] yields the tokens of the grammar. *)
Lemma split_parts_hotkey_tokens (s : string) :
  split_parts s = hotkey_tokens s.
Proof.
  rewrite split_parts_tokens. unfold tokens_of, hotkey_tokens.
  induction (split_on_plus s "") as [|p ps IH]; cbn [map filter];
    [reflexivity|].
  rewrite trim_spaces_code, empty_eqb, IH. reflexivity.
Qed.

(** C5.  The parts the split loop of [init] collects are the tokens of the
    hotkey string: its pieces between ['+'] signs, each without the
    whitespace around it, the empty ones dropped; the last is the trigger
    key and those before it are the modifiers.
    Parsing fails exactly when there is no token, when a token before the
    last is, lower-cased, in none of the alias families (ctrl/control,
    shift, alt, super/mod4/meta/super_l/super_r), or when the resolver
    does not know the last token; [init] then returns false and leaves
    the listener as it was, and where the keyboard scan finds a keyboard
    these are the only cases in which [init] returns false.  When parsing
    succeeds the trigger is what the resolver gives for the last token
    and the mask is the OR of the flags of the families of the tokens
    before it.  Letter case does not matter, and "ctrl+period" and
    "Super+V" parse as (DOT, CTRL) and (V, SUPER). *)
Theorem parse_hotkey_spec (s : string) :
  split_parts s = hotkey_tokens s /\
  ((exists e, parse_hotkey s = inl e) <->
     hotkey_tokens s = []
     \/ (exists p, In p (removelast (hotkey_tokens s))
                   /\ alias_flag (lowercase p) = None)
     \/ name_to_evdev (last (hotkey_tokens s) "") = -1) /\
  (forall e, parse_hotkey s = inl e ->
     forall dir l, init s dir l = (false, l, [Log (log_of_error e)])) /\
  (forall dir l, finds_keyboard dir = true ->
     (fst (fst (init s dir l)) = false <-> exists e, parse_hotkey s = inl e)) /\
  (forall key mask, parse_hotkey s = inr (key, mask) ->
     key = name_to_evdev (last (hotkey_tokens s) "") /\ 0 < key /\
     mask = alias_mask (removelast (hotkey_tokens s))) /\
  (forall s', lowercase s' = lowercase s -> parse_hotkey s' = parse_hotkey s) /\
  parse_hotkey "ctrl+period" = inr (Evdev.KEY_DOT, MOD_CTRL) /\
  parse_hotkey "Super+V" = inr (Evdev.KEY_V, MOD_SUPER).
Proof.
  split; [apply split_parts_hotkey_tokens|].
  rewrite <- split_parts_hotkey_tokens.
  split; [|split; [|split; [|split; [|split; [|split; reflexivity]]]]].
  - unfold parse_hotkey.
    destruct (split_parts s) as [|p ps] eqn:Eparts.
    { split; [now left|]. intros _. now exists EmptyHotkey. }
    remember (p :: ps) as parts eqn:Hparts.
    pose proof (modifier_loop_none parts 0) as Hnone.
    pose proof (name_to_evdev_range (last parts "")) as Hrange.
    assert (Halias :
      (exists q, In q (removelast parts) /\ alias_flag (lowercase q) = None)
      <-> (exists q, In q (removelast parts)
                     /\ modifier_bit (lowercase q) = None)).
    { split; intros (q & Hin & Hq); exists q; split; auto;
        [now rewrite modifier_bit_alias|now rewrite <- modifier_bit_alias]. }
    rewrite Halias.
    destruct (modifier_loop parts 0) as [mask|].
    + destruct (Z.ltb_spec (name_to_evdev (last parts "")) 0) as [Hneg|Hpos].
      * split; [|intros _; now exists UnknownKey].
        intros _. right. right. lia.
      * split; [intros [e He]; discriminate|].
        intros [H|[H|H]]; [congruence| |lia].
        apply Hnone in H. discriminate.
    + split; [|intros _; now exists UnknownModifier].
      intros _. right. left. now apply Hnone.
  - intros e He dir l. unfold init. now rewrite He.
  - intros dir l Hdir. rewrite init_returns, Hdir.
    destruct (parse_hotkey s) as [e|r].
    + split; [intros _; now exists e|reflexivity].
    + split; [discriminate|intros [e He]; discriminate].
  - intros key mask. unfold parse_hotkey.
    destruct (split_parts s) as [|p ps] eqn:Eparts; [discriminate|].
    remember (p :: ps) as parts eqn:Hparts.
    pose proof (modifier_loop_some parts 0) as Hsome.
    pose proof (name_to_evdev_range (last parts "")) as Hrange.
    destruct (modifier_loop parts 0) as [m|]; [|discriminate].
    destruct (Z.ltb_spec (name_to_evdev (last parts "")) 0) as [Hneg|Hpos];
      [discriminate|].
    intros [= <- <-]. specialize (Hsome m eq_refl).
    rewrite Z.lor_0_l, mask_of_alias in Hsome.
    repeat split; [lia|assumption].
  - intros s' Hs'.
    now rewrite <- (parse_hotkey_lowercase s'), Hs', parse_hotkey_lowercase.
Qed.

End Parsing.

Section Resolver.
Import CType Hotkey.

Lemma init_after_parse (s : string) (key mask : Z)
  (dir : option (list Device)) (l : Listener) :
  parse_hotkey s = inr (key, mask) ->
  let '(ok, l', _) := init s dir l in
  key_code (m_impl l') = key /\ modmask (m_impl l') = mask /\
  ok = negb (empty_fds (fds (m_impl l'))).
Proof.
  intros Hp. unfold init. rewrite Hp. unfold open_keyboards, close_all_fds.
  destruct dir as [ents|]; cbn; [|auto].
  destruct (scan_entries ents []) as [found t].
  destruct (empty_fds found) eqn:E; cbn; rewrite ?E; auto.
Qed.

Lemma length_lowercase (s : string) :
  String.length (lowercase s) = String.length s.
Proof. induction s as [|c s IH]; cbn; congruence. Qed.

Lemma wrap_int_small (z : Z) : - 2 ^ 31 <= z < 2 ^ 31 -> wrap_int z = z.
Proof. intros H. unfold wrap_int. rewrite Z.mod_small; lia. Qed.

Lemma isdigit_range (c : ascii) : isdigit c = true -> 0 <= code c - 48 <= 9.
Proof. unfold isdigit. lia. Qed.

(** As long as the number stays below 2^31 the digit loop computes the
    decimal value. *)
Lemma fkey_number_decimal (digits : string) (n : Z) :
  0 <= n -> (n + 1) * 10 ^ size digits <= 2 ^ 31 ->
  fkey_number digits n = decimal_from digits n.
Proof.
  revert n. induction digits as [|c r IH]; intros n Hn Hbound; [reflexivity|].
  cbn [fkey_number decimal_from].
  destruct (isdigit c) eqn:Hd; [|reflexivity]. cbn [negb].
  apply isdigit_range in Hd.
  assert (Hsize : size (String c r) = size r + 1)
    by (unfold size; cbn [String.length]; lia).
  assert (Hr : 0 <= size r) by (unfold size; lia).
  rewrite Hsize, Z.pow_add_r, Z.pow_1_r in Hbound by lia.
  pose proof (Z.pow_pos_nonneg 10 (size r) ltac:(lia) Hr) as Hpow.
  rewrite wrap_int_small by nia.
  apply IH; nia.
Qed.

Lemma decimal_from_ge (digits : string) (n v : Z) :
  0 <= n -> decimal_from digits n = Some v -> n <= v.
Proof.
  revert n. induction digits as [|c r IH]; intros n Hn; cbn [decimal_from].
  - intros [= <-]. lia.
  - destruct (isdigit c) eqn:Hd; [|discriminate].
    apply isdigit_range in Hd. intros H. apply IH in H; lia.
Qed.

(** The digit loop computes the decimal value whenever that value fits an
    [int], however many leading zeros the digits have. *)
Lemma fkey_number_fits (digits : string) (n v : Z) :
  0 <= n -> decimal_from digits n = Some v -> v < 2 ^ 31 ->
  fkey_number digits n = Some v.
Proof.
  revert n. induction digits as [|c r IH]; intros n Hn;
    cbn [fkey_number decimal_from]; [auto|].
  destruct (isdigit c) eqn:Hd; [|discriminate]. cbn [negb].
  pose proof (isdigit_range c Hd) as Hc. intros H Hv.
  pose proof (decimal_from_ge r (n * 10 + (code c - 48)) v ltac:(lia) H)
    as Hge.
  rewrite wrap_int_small by lia. apply IH; [lia|assumption|assumption].
Qed.

(** Whether the loop gives up depends on the characters only. *)
Lemma fkey_number_none (digits : string) (n n' : Z) :
  decimal_from digits n = None -> fkey_number digits n' = None.
Proof.
  revert n n'. induction digits as [|c r IH]; intros n n';
    cbn [fkey_number decimal_from]; [discriminate|].
  destruct (isdigit c); cbn [negb]; [apply IH|reflexivity].
Qed.

Lemma fkey_value_unfold (lower : string) :
  fkey_value lower =
  if (2 <=? size lower) && (front lower =? 102)
  then decimal_from (tail lower) 0 else None.
Proof.
  destruct lower as [|c [|d r]]; [reflexivity| |].
  - reflexivity.
  - unfold fkey_value, size, front, tail. cbn [String.length].
    destruct (Z.leb_spec 2 (Z.of_nat (S (S (String.length r))))); [|lia].
    reflexivity.
Qed.

Lemma named_names_not_fkeys :
  Forall (fun row => Forall (fun nm => fkey_value nm = None) (fst row))
         named_keys.
Proof. unfold named_keys. repeat constructor. Qed.

Lemma in_named_table_not_fkey (lower : string) :
  in_named_table lower = true -> fkey_value lower = None.
Proof.
  unfold in_named_table, is_one_of. intros H.
  apply existsb_exists in H as ([names k] & Hrow & H).
  apply existsb_exists in H as (nm & Hnm & H).
  apply String.eqb_eq in H. subst nm.
  pose proof named_names_not_fkeys as HF. rewrite Forall_forall in HF.
  specialize (HF _ Hrow). rewrite Forall_forall in HF. now apply HF.
Qed.

(** C9, as the code has it.  If the name, lower-cased, is an [f] followed
    by decimal digits of value [n] (any number of leading zeros) and [n]
    fits an [int], the resolver gives [KEY_F1 + (n - 1)] for [n] from 1 to
    10, the separate codes [KEY_F11] and [KEY_F12] for 11 and 12, and [-1]
    otherwise.  It gives [-1] exactly for the names that are no letter, no
    digit, no entry of the named-key table and no such F-name with [n]
    from 1 to 12; this holds for every name other than an F-name whose
    number does not fit an [int], where the accumulator of the C++
    overflows.  F1 to F10 are contiguous and F11, F12 do not follow
    F10. *)
Theorem name_to_evdev_names (name : string) :
  (forall n, fkey_value (lowercase name) = Some n -> n < 2 ^ 31 ->
     name_to_evdev name =
     if (1 <=? n) && (n <=? 10) then Evdev.KEY_F1 + (n - 1)
     else if n =? 11 then Evdev.KEY_F11
     else if n =? 12 then Evdev.KEY_F12
     else -1) /\
  ((forall n, fkey_value (lowercase name) = Some n -> n < 2 ^ 31) ->
   (name_to_evdev name = -1 <->
      is_letter_name (lowercase name) = false /\
      is_digit_name (lowercase name) = false /\
      in_named_table (lowercase name) = false /\
      forall n, fkey_value (lowercase name) = Some n -> n < 1 \/ 12 < n)) /\
  map name_to_evdev listed_fkeys
  = [59; 60; 61; 62; 63; 64; 65; 66; 67; 68; 87; 88] /\
  map name_to_evdev (map (fun nm => String "F" (tail nm)) listed_fkeys)
  = map name_to_evdev listed_fkeys /\
  Evdev.KEY_F10 = Evdev.KEY_F1 + 9 /\
  Evdev.KEY_F11 <> Evdev.KEY_F1 + 10 /\ Evdev.KEY_F12 <> Evdev.KEY_F1 + 11.
Proof.
  assert (Hmain :
    forall n, fkey_value (lowercase name) = Some n ->
      is_letter_name (lowercase name) = false /\
      is_digit_name (lowercase name) = false /\
      in_named_table (lowercase name) = false).
  { intros n Hn. rewrite fkey_value_unfold in Hn.
    destruct (Z.leb_spec 2 (size (lowercase name))) as [H2|H2];
      [|discriminate].
    unfold is_letter_name, is_digit_name.
    destruct (Z.eqb_spec (size (lowercase name)) 1) as [H1|H1]; [lia|].
    repeat split; try reflexivity.
    destruct (in_named_table (lowercase name)) eqn:E; [|reflexivity].
    apply in_named_table_not_fkey in E. rewrite fkey_value_unfold in E.
    destruct (Z.leb_spec 2 (size (lowercase name))); [|lia]. congruence. }
  assert (Hcode :
    (forall n, fkey_value (lowercase name) = Some n -> n < 2 ^ 31) ->
    name_to_evdev name =
    if is_letter_name (lowercase name)
    then nth (Z.to_nat (front (lowercase name) - 97)) letter_codes (-1)
    else if is_digit_name (lowercase name)
    then (if front (lowercase name) =? 48 then Evdev.KEY_0
          else Evdev.KEY_1 + (front (lowercase name) - 49))
    else match named_lookup named_keys (lowercase name) with
         | Some k => k
         | None =>
             match fkey_value (lowercase name) with
             | Some n =>
                 if (1 <=? n) && (n <=? 12) then
                   if n <=? 10 then Evdev.KEY_F1 + (n - 1)
                   else if n =? 11 then Evdev.KEY_F11
                   else if n =? 12 then Evdev.KEY_F12
                   else -1
                 else -1
             | None => -1
             end
         end).
  { intros Hfit. revert Hfit.
    unfold name_to_evdev, is_letter_name, is_digit_name.
    rewrite fkey_value_unfold.
    destruct ((size (lowercase name) =? 1) && (97 <=? front (lowercase name))
              && (front (lowercase name) <=? 122)); [reflexivity|].
    destruct ((size (lowercase name) =? 1) && (48 <=? front (lowercase name))
              && (front (lowercase name) <=? 57)); [reflexivity|].
    destruct (named_lookup named_keys (lowercase name)); [reflexivity|].
    destruct ((2 <=? size (lowercase name)) && (front (lowercase name) =? 102))
      eqn:Ef; [|reflexivity].
    intros Hfit.
    destruct (decimal_from (tail (lowercase name)) 0) as [v|] eqn:Ev.
    - rewrite (fkey_number_fits _ 0 v ltac:(lia) Ev (Hfit v eq_refl)).
      reflexivity.
    - rewrite (fkey_number_none _ 0 0 Ev). reflexivity. }
  split; [|split; [|repeat split; try reflexivity; discriminate]].
  - intros n Hn Hfit. destruct (Hmain n Hn) as (Hl & Hd & Ht).
    rewrite Hcode by (intros n' Hn'; congruence).
    rewrite Hl, Hd, Hn.
    apply named_lookup_table in Ht. rewrite Ht.
    destruct (Z.leb_spec 1 n), (Z.leb_spec n 12), (Z.leb_spec n 10),
      (Z.eqb_spec n 11), (Z.eqb_spec n 12); cbn [andb]; try reflexivity; lia.
  - intros Hfit. rewrite (Hcode Hfit).
    destruct (is_letter_name (lowercase name)) eqn:Hl.
    { split; [|intros (H & _); discriminate].
      unfold is_letter_name in Hl.
      pose proof (letter_code_positive (front (lowercase name) - 97)). lia. }
    destruct (is_digit_name (lowercase name)) eqn:Hd.
    { split; [|intros (_ & H & _); discriminate].
      unfold is_digit_name in Hd.
      destruct (front (lowercase name) =? 48);
        cbv [Evdev.KEY_0 Evdev.KEY_1]; lia. }
    destruct (named_lookup named_keys (lowercase name)) as [k|] eqn:Hk.
    { split.
      - pose proof (named_lookup_positive _ _ _ named_keys_positive Hk). lia.
      - intros (_ & _ & H & _). apply named_lookup_table in H. congruence. }
    apply named_lookup_table in Hk.
    destruct (fkey_value (lowercase name)) as [n|].
    + destruct (Z.leb_spec 1 n), (Z.leb_spec n 12), (Z.leb_spec n 10),
        (Z.eqb_spec n 11), (Z.eqb_spec n 12); cbn [andb];
        cbv [Evdev.KEY_F1 Evdev.KEY_F11 Evdev.KEY_F12];
        (split; [intros Hx; try lia; repeat split; auto; intros ? [= <-]; lia
                |intros (_ & _ & _ & Hx); specialize (Hx n eq_refl); lia]).
    + split; [|reflexivity]. intros _. repeat split; auto. discriminate.
Qed.

(** Names of more than ten characters to which the statement applies: F12
    in upper case with ten leading zeros, and a word the resolver does
    not know. *)
Lemma name_to_evdev_names_witness :
  name_to_evdev "F000000000012" = Evdev.KEY_F12 /\
  name_to_evdev "PrintScreen" = -1.
Proof.
  split.
  - exact (proj1 (name_to_evdev_names "F000000000012") 12 eq_refl
                 ltac:(reflexivity)).
  - refine (proj2 (proj1 (proj2 (name_to_evdev_names "PrintScreen")) _) _).
    + intros n H. discriminate H.
    + repeat split; try reflexivity. intros n H. discriminate H.
Defined.

(** C9 as the specification words it fails on "f01": the name is not one
    of those it lists, yet the resolver answers F1. *)
Lemma name_to_evdev_leading_zero :
  listed_name "f01" = false /\ name_to_evdev "f01" = Evdev.KEY_F1 /\
  ~ (forall name, listed_name name = false -> name_to_evdev name = -1).
Proof.
  split; [reflexivity|]. split; [reflexivity|].
  intros H. specialize (H "f01" eq_refl). discriminate H.
Qed.

End Resolver.

(** ** The recording loop *)

Section Loop.
Import CType Typer.

Variable float : Type.
Variable vad_simple : list float -> Z -> Z -> float -> float -> bool -> bool.
Variable transcribe : list float -> string.
Variable trim : string -> string.

Lemma ms_between_lt (a b k : Z) :
  0 < k -> ((ms_between a b <? k) = true <-> a - b < k * 1000000).
Proof.
  intros Hk. unfold ms_between. rewrite Z.ltb_lt.
  destruct (Z_lt_le_dec (a - b) 0) as [Hneg|Hpos].
  - pose proof (Z.quot_opp_l (a - b) 1000000 ltac:(lia)) as Hopp.
    pose proof (Z.quot_pos (- (a - b)) 1000000 ltac:(lia) ltac:(lia)).
    lia.
  - rewrite Z.quot_div_nonneg by lia.
    split; intros H.
    + destruct (Z_lt_le_dec (a - b) (k * 1000000)) as [|Hge]; [assumption|].
      pose proof (Z.div_le_lower_bound (a - b) 1000000 k ltac:(lia)
                                       ltac:(lia)).
      lia.
    + apply Z.div_lt_upper_bound; lia.
Qed.

(** C2.  With a manual stop pending in the recording state (the release
    flag in push-to-talk mode, the press flag or the signal flag in toggle
    mode), the step reads and clears the flag it polls; before 300 ms since
    [record_start] nothing else happens (recording goes on, nothing is
    logged, the edge is gone); from 300 ms on [speech_detected] is set and
    the state becomes TRANSCRIBING.  So a stop at 100 ms is dropped and one
    at 301 ms is honoured. *)
Theorem stop_trigger_debounce (params : typer_params float)
  (inp : Input float) (s : Loop float) :
  state s = RECORDING -> stop_pending params s = true ->
  let '(s', t) := Typer.step float vad_simple transcribe trim params inp s in
  (if push_to_talk params
   then Hotkey.m_event_release (hotkey s') = false /\
        Hotkey.m_event_press (hotkey s') = Hotkey.m_event_press (hotkey s) /\
        g_sigusr1 s' = g_sigusr1 s
   else Hotkey.m_event_press (hotkey s') = false /\
        g_sigusr1 s' = Hotkey.m_event_press (hotkey s) && g_sigusr1 s /\
        Hotkey.m_event_release (hotkey s')
        = Hotkey.m_event_release (hotkey s)) /\
  record_start s' = record_start s /\
  silence_start s' = silence_start s /\
  pcmf32 s' = pcmf32 s /\
  t = [] /\
  (now inp - record_start s < 300 * 1000000 ->
     state s' = RECORDING /\ speech_detected s' = speech_detected s) /\
  (300 * 1000000 <= now inp - record_start s ->
     state s' = TRANSCRIBING /\ speech_detected s' = true) /\
  (now inp = record_start s + 100 * 1000000 -> state s' = RECORDING) /\
  (now inp = record_start s + 301 * 1000000 -> state s' = TRANSCRIBING).
Proof.
  intros Hst Hpend. unfold Typer.step. rewrite Hst.
  unfold recording, stop_pending in *.
  pose proof (ms_between_lt (now inp) (record_start s) 300 ltac:(lia)) as Hms.
  destruct (push_to_talk params).
  - unfold poll_released, Hotkey.poll_released. rewrite Hpend.
    cbn [record_start with_hotkey].
    destruct (ms_between (now inp) (record_start s) <? 300) eqn:E; cbn;
      repeat split; auto; intros; try lia;
      try (destruct Hms as [Hms _]; specialize (Hms eq_refl); lia);
      try (assert (true = false) by (rewrite <- E; apply Hms; lia);
           discriminate).
  - unfold poll_toggle, poll_pressed, Hotkey.poll_pressed.
    destruct (Hotkey.m_event_press (hotkey s)) eqn:Ep;
      cbn [orb] in Hpend; cbn [g_sigusr1 with_hotkey with_sigusr1];
      rewrite ?Hpend; cbn [record_start with_hotkey with_sigusr1];
      destruct (ms_between (now inp) (record_start s) <? 300) eqn:E; cbn;
      repeat split; auto; intros; try lia;
      try (destruct Hms as [Hms _]; specialize (Hms eq_refl); lia);
      try (assert (true = false) by (rewrite <- E; apply Hms; lia);
           discriminate).
Qed.

(** C3.  A step in the transcribing state always ends in IDLE.  The engine
    is called, once and on the fetched audio, only when that audio is not
    empty and [speech_detected] is set; text is handed to the text output,
    once, only when moreover the trimmed result is not empty, and it is
    that trimmed result. *)
Theorem transcribing_gate (params : typer_params float) (inp : Input float)
  (s : Loop float) :
  state s = TRANSCRIBING ->
  let get_ms :=
    Z.min (wrap_int (ms_between (now inp) (record_start s)))
          (max_record_ms params) in
  let audio := audio_get inp get_ms (pcmf32 s) in
  let text := trim (transcribe audio) in
  let '(s', t) := Typer.step float vad_simple transcribe trim params inp s in
  state s' = IDLE /\
  pcmf32 s' = audio /\
  speech_detected s' = speech_detected s /\
  hotkey s' = hotkey s /\ g_sigusr1 s' = g_sigusr1 s /\
  engine_calls t
  = (if no_samples audio || negb (speech_detected s) then [] else [audio]) /\
  injected t
  = (if no_samples audio || negb (speech_detected s) || empty text
     then [] else [text]).
Proof.
  intros Hst. unfold Typer.step. rewrite Hst. unfold transcribing.
  cbn [pcmf32 with_pcmf32 speech_detected].
  destruct (audio_get inp _ (pcmf32 s)) as [|x audio] eqn:Ea.
  - cbn. repeat split; reflexivity.
  - destruct (speech_detected s) eqn:Esp; cbn [negb orb no_samples].
    + destruct (empty (trim (transcribe (x :: audio)))); cbn;
        repeat split; auto.
    + cbn. repeat split; auto.
Qed.

(** C6.  The voice-activity check of a recording step runs at most once, on
    the two-second buffer, and only if that buffer holds at least
    [WHISPER_SAMPLE_RATE * 2 + 1] samples.  With a shorter buffer the check
    does not run, [silence_start] keeps its value, and [speech_detected]
    changes only through an honoured manual stop. *)
Theorem vad_needs_min_samples (params : typer_params float)
  (inp : Input float) (s : Loop float) :
  state s = RECORDING ->
  let '(s', t) := Typer.step float vad_simple transcribe trim params inp s in
  vad_min_samples = WHISPER_SAMPLE_RATE * 2 + 1 /\
  (forall buf, In buf (vad_calls t) ->
     buf = audio_get inp 2000 [] /\
     vad_min_samples <= Z.of_nat (List.length buf)) /\
  (Z.of_nat (List.length (audio_get inp 2000 [])) < vad_min_samples ->
     vad_calls t = [] /\
     silence_start s' = silence_start s /\
     speech_detected s'
     = speech_detected s
       || (stop_pending params s
           && negb (ms_between (now inp) (record_start s) <? 300))).
Proof.
  intros Hst. unfold Typer.step. rewrite Hst.
  unfold recording, stop_pending.
  set (poll := if push_to_talk params then poll_released s else poll_toggle s).
  assert (Hpoll :
    fst poll = (if push_to_talk params
                then Hotkey.m_event_release (hotkey s)
                else Hotkey.m_event_press (hotkey s) || g_sigusr1 s) /\
    record_start (snd poll) = record_start s /\
    silence_start (snd poll) = silence_start s /\
    speech_detected (snd poll) = speech_detected s).
  { subst poll. destruct (push_to_talk params).
    - cbn. auto.
    - unfold poll_toggle, poll_pressed, Hotkey.poll_pressed.
      destruct (Hotkey.m_event_press (hotkey s)); cbn; auto. }
  destruct poll as [stop_triggered s1]. cbn [fst snd] in Hpoll.
  destruct Hpoll as (Hstop & Hrs & Hss & Hsd). rewrite <- Hstop.
  rewrite Hrs.
  destruct stop_triggered.
  - destruct (ms_between (now inp) (record_start s) <? 300); cbn;
      repeat split; try tauto; auto.
    + now rewrite orb_false_r.
    + now rewrite orb_true_r.
  - cbn [andb]. rewrite orb_false_r.
    destruct (ms_between (now inp) (record_start s) >=? max_record_ms params).
    { cbn. repeat split; try tauto; auto. }
    destruct (Z.geb_spec (Z.of_nat (List.length (audio_get inp 2000 [])))
                         vad_min_samples) as [Hge|Hlt].
    + set (s2 := if negb (vad_simple _ _ _ _ _ _) then _ else s1).
      assert (Hcalls : forall rest,
        (rest = [Log "[auto-stop: silence detected]"] \/ rest = [SleepFor 100]) ->
        forall buf,
          In buf (vad_calls (AudioGet 2000 :: VadSimple (audio_get inp 2000 [])
                               :: rest)) ->
          buf = audio_get inp 2000 [] /\
          vad_min_samples <= Z.of_nat (List.length buf)).
      { intros rest [->| ->] buf; cbn; intros [<-|[]]; split; auto; lia. }
      destruct (speech_detected s2);
        [destruct (ms_between (now inp) (silence_start s2) >=? silence_ms params)|];
        (split; [reflexivity|]; split; [apply Hcalls; auto|intros; lia]).
    + cbn. repeat split; try tauto; auto.
Qed.

End Loop.

(** ** Text output *)

Section Output.
Import CType TextOutput.

Variable World : Type.
Variable run_cmd :
  list string -> Z -> option string -> bool -> World -> Z * string * World.

Ltac run_all :=
  repeat match goal with
         | |- context [run_cmd ?a ?b ?c ?d ?w] =>
             destruct (run_cmd a b c d w) as [[? ?] ?]; cbn
         | |- context [if ?c then _ else _] => destruct c; cbn
         end.

(** Both delivery paths start by running a command. *)
Lemma delivery_runs_a_command (o : TextOutput) (text : string) (w : World)
  (tr : list Effect) :
  empty text = false ->
  exists argv stdin_data rest,
    snd (snd (type World run_cmd o text (w, tr)))
    = tr ++ Run argv stdin_data :: rest.
Proof.
  intros Hne. unfold type. rewrite Hne.
  destruct (m_use_clipboard o).
  - unfold type_clipboard, bind, run, ret, fprintf, sleep_for, emit. cbn.
    run_all; rewrite <- ?app_assoc; cbn; eauto.
  - unfold type_xdotool, bind, run, ret, fprintf, emit. cbn.
    run_all; rewrite <- ?app_assoc; cbn; eauto.
Qed.

(** C10.  [type] on the empty string returns true and does nothing: the
    desktop (and with it the clipboard) and the trace of commands, sleeps
    and log lines are as before, whichever delivery mode is set; on any
    other text the chosen path is entered and runs a command first. *)
Theorem type_empty_text (o : TextOutput) (w : World) (tr : list Effect) :
  type World run_cmd o "" (w, tr) = (true, (w, tr)) /\
  (forall text, empty text = false ->
     exists argv stdin_data rest,
       snd (snd (type World run_cmd o text (w, tr)))
       = tr ++ Run argv stdin_data :: rest).
Proof.
  split; [reflexivity|]. intros text. apply delivery_runs_a_command.
Qed.

End Output.

(** ** The statements at work on concrete runs *)

Section Runs.
Import CType Hotkey Scenario.


Lemma rescan_resets_and_reopens_witness :
  needs_rescan (mkLocals true true) = true /\
  let '(l', loc', t) := listen_iter replugged after_disconnect (mkLocals true true) in
  modifiers_clear (m_impl l') /\ hotkey_active loc' = false /\
  needs_rescan loc' = false /\ fds (m_impl l') = [6] /\
  Permutation (open_after t [3; 4]) [6].
Proof.
  split; [reflexivity|].
  pose proof (rescan_resets_and_reopens replugged after_disconnect
                (mkLocals true true) eq_refl) as H.
  destruct (listen_iter replugged after_disconnect (mkLocals true true))
    as [[l' loc'] t] eqn:E.
  destruct H as (Hclear & Hactive & Hre & (scan & _ & Hopen) & _).
  injection E as El Eloc Et. subst l'. cbn [fds m_impl set_impl set_fds] in *.
  repeat split; try apply Hclear; auto.
  apply (Hopen [3; 4]). apply Permutation_refl.
Defined.

End Runs.

Section LoopRuns.
Import CType Typer Scenario.

Lemma stop_trigger_debounce_witness :
  state (fst (step Z always_speech hears_hello trim_whitespace toggle_params
                   (at_ms 100) recording_with_press)) = RECORDING /\
  state (fst (step Z always_speech hears_hello trim_whitespace toggle_params
                   (at_ms 301) recording_with_press)) = TRANSCRIBING.
Proof.
  pose proof (stop_trigger_debounce Z always_speech hears_hello trim_whitespace
                toggle_params (at_ms 100) recording_with_press
                eq_refl eq_refl) as H1.
  pose proof (stop_trigger_debounce Z always_speech hears_hello trim_whitespace
                toggle_params (at_ms 301) recording_with_press
                eq_refl eq_refl) as H2.
  destruct (step Z always_speech hears_hello trim_whitespace toggle_params
                 (at_ms 100) recording_with_press) as [s1 t1].
  destruct (step Z always_speech hears_hello trim_whitespace toggle_params
                 (at_ms 301) recording_with_press) as [s2 t2].
  destruct H1 as (_ & _ & _ & _ & _ & _ & _ & H1 & _).
  destruct H2 as (_ & _ & _ & _ & _ & _ & _ & _ & H2).
  split; [apply H1|apply H2]; reflexivity.
Defined.

Lemma transcribing_gate_witness :
  let '(s', t) := step Z always_speech hears_hello trim_whitespace
                       toggle_params (at_ms 2000) transcribing_with_speech in
  state s' = IDLE /\ engine_calls t = [[1; 2; 3]] /\ injected t = ["hello"].
Proof.
  pose proof (transcribing_gate Z always_speech hears_hello trim_whitespace
                toggle_params (at_ms 2000) transcribing_with_speech
                eq_refl) as H.
  destruct (step Z always_speech hears_hello trim_whitespace toggle_params
                 (at_ms 2000) transcribing_with_speech) as [s' t].
  destruct H as (H1 & _ & _ & _ & _ & H2 & H3).
  split; [exact H1|]. split; [exact H2|exact H3].
Defined.

Lemma vad_needs_min_samples_witness :
  let '(s', t) := step Z always_speech hears_hello trim_whitespace
                       toggle_params (at_ms 1000) recording_quiet in
  vad_calls t = [] /\ silence_start s' = 0 /\ speech_detected s' = false.
Proof.
  pose proof (vad_needs_min_samples Z always_speech hears_hello trim_whitespace
                toggle_params (at_ms 1000) recording_quiet eq_refl) as H.
  destruct (step Z always_speech hears_hello trim_whitespace toggle_params
                 (at_ms 1000) recording_quiet) as [s' t].
  destruct H as (_ & _ & H).
  apply H. reflexivity.
Defined.

End LoopRuns.

(** ** Further facts about the model *)

Section Further.
Import CType Hotkey Typer Scenario.

Lemma lor_below_16 (a b : Z) :
  0 <= a < 16 -> 0 <= b < 16 -> 0 <= Z.lor a b < 16.
Proof.
  intros Ha Hb. split; [apply Z.lor_nonneg; lia|].
  destruct (Z.eq_dec (Z.lor a b) 0) as [->|Hnz]; [lia|].
  assert (Hpos : 0 < Z.lor a b)
    by (pose proof (proj2 (Z.lor_nonneg a b) (conj (proj1 Ha) (proj1 Hb))); lia).
  change 16 with (2 ^ 4). apply Z.log2_lt_pow2; [assumption|].
  rewrite Z.log2_lor by lia.
  assert (Hla : Z.log2 a < 4).
  { destruct (Z.eq_dec a 0) as [->|]; [reflexivity|].
    apply Z.log2_lt_pow2; [lia|]. change (2 ^ 4) with 16. lia. }
  assert (Hlb : Z.log2 b < 4).
  { destruct (Z.eq_dec b 0) as [->|]; [reflexivity|].
    apply Z.log2_lt_pow2; [lia|]. change (2 ^ 4) with 16. lia. }
  lia.
Qed.

Lemma modifier_bit_below_16 (p : string) (b : Z) :
  modifier_bit p = Some b -> 0 <= b < 16.
Proof.
  unfold modifier_bit.
  repeat match goal with |- context [if ?c then _ else _] => destruct c end;
    intros [= <-]; cbv; split; congruence.
Qed.

(** The mask [init] stores has no bit outside the four modifier flags. *)
Lemma parse_hotkey_mask_range (s : string) (key mask : Z) :
  parse_hotkey s = inr (key, mask) -> 0 <= mask < 16.
Proof.
  unfold parse_hotkey. destruct (split_parts s) as [|p ps]; [discriminate|].
  assert (Hloop : forall parts m0 m, 0 <= m0 < 16 ->
            modifier_loop parts m0 = Some m -> 0 <= m < 16).
  { induction parts as [|q [|r qs] IH]; intros m0 m Hm0.
    - now intros [= <-].
    - now intros [= <-].
    - change (modifier_loop (q :: r :: qs) m0)
        with (match modifier_bit (lowercase q) with
              | Some b => modifier_loop (r :: qs) (Z.lor m0 b)
              | None => None
              end).
      destruct (modifier_bit (lowercase q)) as [b|] eqn:Eb; [|discriminate].
      apply IH. apply lor_below_16; [assumption|].
      eapply modifier_bit_below_16; eassumption. }
  destruct (modifier_loop (p :: ps) 0) as [m|] eqn:E; [|discriminate].
  destruct (name_to_evdev (last (p :: ps) "") <? 0); [discriminate|].
  intros [= _ <-]. eapply Hloop; [|exact E]. lia.
Qed.

(** The sample-count guard sits exactly at 32001: with 32000 samples the
    check is skipped, with 32001 it runs and (reporting speech here) sets
    [speech_detected]. *)
Lemma vad_boundary :
  let buffer n :=
    mkInput true true 1000000000 1000000000
            (fun (_ : Z) (_ : list Z) => repeat 0 (Z.to_nat n)) in
  let run n :=
    step Z always_speech hears_hello trim_whitespace toggle_params
         (buffer n) recording_quiet in
  vad_calls (snd (run 32000)) = [] /\
  speech_detected (fst (run 32000)) = false /\
  List.length (vad_calls (snd (run 32001))) = 1%nat /\
  speech_detected (fst (run 32001)) = true.
Proof. vm_compute. repeat split. Qed.

(** From ready to typed text in toggle mode: a press starts the recording,
    a second press within 300 ms is swallowed, a third one later stops it,
    and the trimmed text is typed. *)
Lemma toggle_session :
  let raise s := with_hotkey Z (Hotkey.set_event_press true (hotkey s)) s in
  let go k s :=
    step Z always_speech hears_hello trim_whitespace toggle_params (at_ms k) s in
  let idle0 := with_state Z IDLE recording_quiet in
  let s1 := fst (go 0 (raise idle0)) in
  let s2 := fst (go 100 (raise s1)) in
  let s3 := fst (go 900 (raise s2)) in
  let '(s4, t4) := go 950 s3 in
  state s1 = RECORDING /\ state s2 = RECORDING /\ state s3 = TRANSCRIBING /\
  state s4 = IDLE /\ injected t4 = ["hello"].
Proof. vm_compute. repeat split. Qed.

End Further.

(** * Further properties of the listener *)

Section ListenerEvents.
Import CType Hotkey.

Lemma callbacks_app (b : bool) (t1 t2 : list Effect) :
  callbacks b (t1 ++ t2) = (callbacks b t1 + callbacks b t2)%nat.
Proof. unfold callbacks. now rewrite filter_app, length_app. Qed.

(** What one event can do when it is not a release: it never deactivates,
    never raises the release flag, and calls the callback at most once,
    with [true], and only when the hotkey was inactive. *)
Lemma process_event_no_release (ev : input_event) (l : Listener)
  (active : bool) :
  is_key_release ev = false ->
  let '(l', active', t) := process_event ev l active in
  (active = true -> active' = true) /\
  m_event_release l' = m_event_release l /\
  callbacks false t = 0%nat /\
  (callbacks true t <= b2n (negb active && active'))%nat /\
  (m_event_press l' = true -> m_event_press l = true \/ active = false /\ active' = true).
Proof.
  unfold is_key_release. intros Hval. unfold process_event.
  destruct (ev_type ev =? Evdev.EV_KEY); cbn [negb].
  2:{ destruct active; cbn; auto 10. }
  cbn [andb] in Hval. rewrite Hval.
  destruct (ev_value ev =? 1); cbn [negb andb].
  2:{ destruct active; cbn; auto 10. }
  remember (if is_modifier (ev_code ev)
            then set_impl (update_modifier (ev_code ev) true (m_impl l)) l
            else l) as l1 eqn:El1.
  assert (Hp : m_event_press l1 = m_event_press l)
    by (subst l1; destruct (is_modifier (ev_code ev)); reflexivity).
  assert (Hr : m_event_release l1 = m_event_release l)
    by (subst l1; destruct (is_modifier (ev_code ev)); reflexivity).
  assert (Hc : m_callback l1 = m_callback l)
    by (subst l1; destruct (is_modifier (ev_code ev)); reflexivity).
  rewrite <- Hp, <- Hr. clear El1 Hp Hr.
  unfold fire.
  destruct (ev_code ev =? key_code (m_impl l1)), (mods_match (m_impl l1)),
    active, (m_callback l1); cbn; auto 10.
Qed.

(** X1.  Events that are not key releases (presses, auto-repeats, and
    events of other types whatever their value, such as the [SYN_REPORT]
    after each key event) never deactivate the hotkey and never raise the
    release flag, and over any run of them the callback is called at most
    once, with [true], and not at all if the hotkey was already active. *)
Theorem held_key_activates_once (evs : list input_event) (l : Listener)
  (active : bool) :
  Forall (fun ev => is_key_release ev = false) evs ->
  let '(l', active', t) := drain_events evs l active in
  (active = true -> active' = true) /\
  m_event_release l' = m_event_release l /\
  callbacks false t = 0%nat /\
  (callbacks true t <= b2n (negb active && active'))%nat.
Proof.
  intros Hall. revert l active.
  induction Hall as [|ev evs Hev _ IH]; intros l active; cbn [drain_events].
  - destruct active; cbn; auto.
  - pose proof (process_event_no_release ev l active Hev) as H1.
    destruct (process_event ev l active) as [[l1 a1] t1].
    specialize (IH l1 a1). destruct (drain_events evs l1 a1) as [[l2 a2] t2].
    destruct H1 as (Ha & Hr & Hf & Ht & _). destruct IH as (Ha' & Hr' & Hf' & Ht').
    rewrite !callbacks_app.
    destruct active, a1, a2; cbn in *;
      repeat split; auto; try congruence; try lia;
      try (specialize (Ha eq_refl); discriminate);
      try (specialize (Ha' eq_refl); discriminate).
Qed.

(** Left ctrl, then period pressed, auto-repeated and pressed again, each
    followed by its [SYN_REPORT] (type 0, value 0): one call of the
    callback. *)
Lemma held_key_activates_once_witness :
  let l := set_callback true Scenario.ctrl_period in
  let evs := [ Scenario.press Evdev.KEY_LEFTCTRL; mkEvent 0 0 0;
               Scenario.press Evdev.KEY_DOT; mkEvent 0 0 0;
               mkEvent Evdev.EV_KEY Evdev.KEY_DOT 2; mkEvent 0 0 0;
               Scenario.press Evdev.KEY_DOT; mkEvent 0 0 0 ] in
  let '(l', active', t) := drain_events evs l false in
  active' = true /\ t = [Callback true] /\
  (callbacks true t <= 1)%nat /\ callbacks false t = 0%nat.
Proof.
  pose proof (held_key_activates_once
                [ Scenario.press Evdev.KEY_LEFTCTRL; mkEvent 0 0 0;
                  Scenario.press Evdev.KEY_DOT; mkEvent 0 0 0;
                  mkEvent Evdev.EV_KEY Evdev.KEY_DOT 2; mkEvent 0 0 0;
                  Scenario.press Evdev.KEY_DOT; mkEvent 0 0 0 ]
                (set_callback true Scenario.ctrl_period) false) as H.
  cbv zeta. destruct (drain_events _ _ false) as [[l' a'] t] eqn:E.
  assert (Hall : Forall (fun ev => is_key_release ev = false)
            [ Scenario.press Evdev.KEY_LEFTCTRL; mkEvent 0 0 0;
              Scenario.press Evdev.KEY_DOT; mkEvent 0 0 0;
              mkEvent Evdev.EV_KEY Evdev.KEY_DOT 2; mkEvent 0 0 0;
              Scenario.press Evdev.KEY_DOT; mkEvent 0 0 0 ])
    by (repeat (apply Forall_cons; [reflexivity|]); apply Forall_nil).
  specialize (H Hall). destruct H as (_ & _ & Hf & Ht).
  injection E as _ Ea Et. subst a' t.
  split; [reflexivity|]. split; [reflexivity|]. split; [exact Ht|exact Hf].
Defined.

(** The modifier state after an event: updated, for one of the eight
    modifier keys in a press or a release, and otherwise as before. *)
Lemma process_event_impl (ev : input_event) (l : Listener) (active : bool) :
  m_impl (fst (fst (process_event ev l active))) =
  if (ev_type ev =? Evdev.EV_KEY)
     && ((ev_value ev =? 1) || (ev_value ev =? 0))
     && is_modifier (ev_code ev)
  then update_modifier (ev_code ev) (ev_value ev =? 1) (m_impl l)
  else m_impl l.
Proof.
  unfold process_event.
  destruct (ev_type ev =? Evdev.EV_KEY); [|reflexivity].
  destruct (ev_value ev =? 1), (ev_value ev =? 0), (is_modifier (ev_code ev));
    cbn;
    repeat match goal with
           | |- context [if ?c then _ else _] => destruct c; cbn
           end; reflexivity.
Qed.

(** What event processing leaves alone, and that it only ever raises the
    two edge flags. *)
Lemma process_event_frame (ev : input_event) (l : Listener) (active : bool) :
  let l' := fst (fst (process_event ev l active)) in
  key_code (m_impl l') = key_code (m_impl l) /\
  modmask (m_impl l') = modmask (m_impl l) /\
  fds (m_impl l') = fds (m_impl l) /\
  m_running l' = m_running l /\ m_callback l' = m_callback l /\
  (m_event_press l = true -> m_event_press l' = true) /\
  (m_event_release l = true -> m_event_release l' = true).
Proof.
  cbv zeta. rewrite process_event_impl.
  assert (Hrest :
    m_running (fst (fst (process_event ev l active))) = m_running l /\
    m_callback (fst (fst (process_event ev l active))) = m_callback l /\
    (m_event_press l = true ->
     m_event_press (fst (fst (process_event ev l active))) = true) /\
    (m_event_release l = true ->
     m_event_release (fst (fst (process_event ev l active))) = true)).
  { unfold process_event.
    destruct (ev_type ev =? Evdev.EV_KEY); cbn; [|auto].
    destruct (ev_value ev =? 1), (ev_value ev =? 0),
      (is_modifier (ev_code ev)); cbn;
      repeat match goal with
             | |- context [if ?c then _ else _] => destruct c; cbn
             end; auto. }
  destruct (update_modifier_keeps_hotkey (ev_code ev) (ev_value ev =? 1)
              (m_impl l)) as (Hk & Hm & Hf).
  destruct ((ev_type ev =? Evdev.EV_KEY)
            && ((ev_value ev =? 1) || (ev_value ev =? 0))
            && is_modifier (ev_code ev)); tauto.
Qed.

Lemma mods_match_required_held (m : Impl) :
  mods_match m = true -> required_held m = true.
Proof.
  unfold mods_match, required_held.
  destruct (nz (Z.land (modmask m) MOD_CTRL)),
    (nz (Z.land (modmask m) MOD_SHIFT)), (nz (Z.land (modmask m) MOD_ALT)),
    (nz (Z.land (modmask m) MOD_SUPER)), (ctrl m), (shift m), (alt m),
    (super m); cbn; congruence.
Qed.

Lemma update_modifier_press_grows (code : Z) (m : Impl) :
  (ctrl m = true -> ctrl (update_modifier code true m) = true) /\
  (shift m = true -> shift (update_modifier code true m) = true) /\
  (alt m = true -> alt (update_modifier code true m) = true) /\
  (super m = true -> super (update_modifier code true m) = true).
Proof.
  unfold update_modifier.
  repeat match goal with |- context [if ?c then _ else _] => destruct c end;
    destruct m as [? ? ? [] [] [] [] [] [] [] []]; cbn; auto.
Qed.

Lemma required_held_press (code : Z) (m : Impl) :
  required_held m = true ->
  required_held (update_modifier code true m) = true.
Proof.
  intros H. unfold required_held in *.
  destruct (update_modifier_keeps_hotkey code true m) as (_ & Hm & _).
  rewrite Hm.
  destruct (update_modifier_press_grows code m) as (Hc & Hs & Ha & Hu).
  destruct (nz (Z.land (modmask m) MOD_CTRL)),
    (nz (Z.land (modmask m) MOD_SHIFT)), (nz (Z.land (modmask m) MOD_ALT)),
    (nz (Z.land (modmask m) MOD_SUPER));
    cbn [negb orb andb] in *;
    destruct (ctrl m), (shift m), (alt m), (super m);
    cbn [negb orb andb] in H; try discriminate;
    rewrite ?Hc, ?Hs, ?Ha, ?Hu by reflexivity; reflexivity.
Qed.

(** One event keeps: an active hotkey has all its required modifiers held. *)
Lemma process_event_required_held (ev : input_event) (l : Listener)
  (active : bool) :
  (active = true -> required_held (m_impl l) = true) ->
  let '(l', active', _) := process_event ev l active in
  active' = true -> required_held (m_impl l') = true.
Proof.
  intros Hinv.
  pose proof (process_event_impl ev l active) as Himpl.
  unfold process_event in *.
  destruct (ev_type ev =? Evdev.EV_KEY); cbn in *; [|exact Hinv].
  destruct (Z.eqb_spec (ev_value ev) 1) as [E1|E1],
    (Z.eqb_spec (ev_value ev) 0) as [E0|E0]; try lia; cbn in *;
    [| |exact Hinv].
  - (* a press *)
    remember (if is_modifier (ev_code ev)
              then set_impl (update_modifier (ev_code ev) true (m_impl l)) l
              else l) as l1 eqn:El1.
    assert (H1 : active = true -> required_held (m_impl l1) = true).
    { intros Ha. subst l1. destruct (is_modifier (ev_code ev)); cbn; auto.
      apply required_held_press; auto. }
    clear El1 Himpl.
    destruct (ev_code ev =? key_code (m_impl l1)),
      (mods_match (m_impl l1)) eqn:Hm, active; cbn; auto;
      intros _; now apply mods_match_required_held.
  - (* a release *)
    remember (if is_modifier (ev_code ev)
              then set_impl (update_modifier (ev_code ev) false (m_impl l)) l
              else l) as l1 eqn:El1.
    assert (H1 : is_modifier (ev_code ev) = false -> m_impl l1 = m_impl l).
    { intros Hm. subst l1. now rewrite Hm. }
    clear El1 Himpl.
    destruct (ev_code ev =? key_code (m_impl l1)), active; cbn;
      try discriminate;
      destruct (is_modifier (ev_code ev)); cbn; try discriminate;
      try (destruct (mods_match (m_impl l1)) eqn:Hm; cbn; try discriminate;
           intros _; now apply mods_match_required_held);
      intros _; rewrite H1; auto.
Qed.

End ListenerEvents.

Section ListenerThread.
Import CType Hotkey.

Lemma process_event_no_handles (ev : input_event) (l : Listener)
  (active : bool) (open : list Z) :
  open_after (snd (process_event ev l active)) open = open.
Proof.
  unfold process_event, fire.
  repeat match goal with
         | |- context [if ?c then _ else _] => destruct c; cbn
         end; reflexivity.
Qed.

Lemma drain_events_no_handles (evs : list input_event) (l : Listener)
  (active : bool) (open : list Z) :
  open_after (snd (drain_events evs l active)) open = open.
Proof.
  revert l active. induction evs as [|ev evs IH]; intros l active;
    cbn [drain_events]; [reflexivity|].
  pose proof (process_event_no_handles ev l active open) as H1.
  destruct (process_event ev l active) as [[l1 a1] t1].
  specialize (IH l1 a1). destruct (drain_events evs l1 a1) as [[l2 a2] t2].
  cbn [snd] in *. now rewrite open_after_app, H1.
Qed.

Lemma drain_events_required_held (evs : list input_event) (l : Listener)
  (active : bool) :
  (active = true -> required_held (m_impl l) = true) ->
  let '(l', active', _) := drain_events evs l active in
  active' = true -> required_held (m_impl l') = true.
Proof.
  revert l active. induction evs as [|ev evs IH]; intros l active Hinv;
    cbn [drain_events]; [exact Hinv|].
  pose proof (process_event_required_held ev l active Hinv) as H1.
  destruct (process_event ev l active) as [[l1 a1] t1].
  specialize (IH l1 a1 H1). now destruct (drain_events evs l1 a1) as [[l2 a2] t2].
Qed.

Lemma drain_events_frame (evs : list input_event) (l : Listener)
  (active : bool) :
  let l' := fst (fst (drain_events evs l active)) in
  key_code (m_impl l') = key_code (m_impl l) /\
  modmask (m_impl l') = modmask (m_impl l) /\
  fds (m_impl l') = fds (m_impl l) /\
  m_running l' = m_running l /\ m_callback l' = m_callback l /\
  (m_event_press l = true -> m_event_press l' = true) /\
  (m_event_release l = true -> m_event_release l' = true).
Proof.
  revert l active. induction evs as [|ev evs IH]; intros l active;
    cbn [drain_events]; [cbn; tauto|].
  pose proof (process_event_frame ev l active) as H1.
  destruct (process_event ev l active) as [[l1 a1] t1].
  specialize (IH l1 a1). destruct (drain_events evs l1 a1) as [[l2 a2] t2].
  cbn [fst] in *.
  destruct H1 as (A1 & A2 & A3 & A4 & A5 & A6 & A7).
  destruct IH as (B1 & B2 & B3 & B4 & B5 & B6 & B7).
  repeat split; try congruence; auto.
Qed.

Lemma read_stopped_rescan (e : ReadEnd) (rescan : bool) (open : list Z) :
  fst (read_stopped e rescan) = rescan || device_gone e /\
  open_after (snd (read_stopped e rescan)) open = open.
Proof.
  unfold read_stopped, device_gone. destruct e as [errno|n].
  - cbv [Evdev.EAGAIN Evdev.EWOULDBLOCK Evdev.EIO Evdev.ENODEV].
    destruct (Z.eqb_spec errno 11), (Z.eqb_spec errno 5),
      (Z.eqb_spec errno 19); try lia; cbn;
      rewrite ?orb_true_r, ?orb_false_r; auto.
  - cbn. now rewrite orb_false_r.
Qed.

(** The [for] loop over the descriptors: the listener's configuration and
    descriptors stay, the invariant on the active hotkey is kept, the
    trace opens and closes nothing, and [needs_rescan] is raised exactly
    when a polled descriptor reported that its device is gone. *)
Lemma poll_fds_spec (handles : list Z) (i : nat)
  (reads : nat -> list input_event * ReadEnd) (l : Listener) (loc : Locals) :
  let '(l', loc', t) := poll_fds handles i reads l loc in
  (key_code (m_impl l') = key_code (m_impl l) /\
   modmask (m_impl l') = modmask (m_impl l) /\
   fds (m_impl l') = fds (m_impl l) /\
   m_running l' = m_running l /\ m_callback l' = m_callback l /\
   (m_event_press l = true -> m_event_press l' = true) /\
   (m_event_release l = true -> m_event_release l' = true)) /\
  ((hotkey_active loc = true -> required_held (m_impl l) = true) ->
   hotkey_active loc' = true -> required_held (m_impl l') = true) /\
  needs_rescan loc' =
    needs_rescan loc
    || existsb (fun k => device_gone (snd (reads k)))
               (seq i (List.length handles)) /\
  forall open, open_after t open = open.
Proof.
  revert i l loc. induction handles as [|fd rest IH]; intros i l loc;
    cbn [poll_fds].
  - cbn. rewrite orb_false_r. tauto.
  - pose proof (drain_events_frame (fst (reads i)) l (hotkey_active loc)) as F.
    pose proof (drain_events_required_held (fst (reads i)) l
                  (hotkey_active loc)) as I.
    pose proof (drain_events_no_handles (fst (reads i)) l
                  (hotkey_active loc)) as N.
    destruct (drain_events (fst (reads i)) l (hotkey_active loc))
      as [[l1 a1] t1].
    pose proof (read_stopped_rescan (snd (reads i)) (needs_rescan loc)) as R.
    destruct (read_stopped (snd (reads i)) (needs_rescan loc)) as [r1 t2].
    specialize (IH (S i) l1 (mkLocals a1 r1)).
    destruct (poll_fds rest (S i) reads l1 (mkLocals a1 r1)) as [[l2 loc2] t3].
    cbn [fst snd hotkey_active needs_rescan] in *.
    destruct F as (A1 & A2 & A3 & A4 & A5 & A6 & A7).
    destruct IH as ((B1 & B2 & B3 & B4 & B5 & B6 & B7) & Binv & Bre & Bopen).
    split; [repeat split; try congruence; auto|].
    split; [auto|]. split.
    + rewrite Bre. destruct (R []) as [-> _]. cbn [List.length seq existsb].
      now rewrite orb_assoc.
    + intros open. rewrite !open_after_app, N, Bopen.
      now destruct (R open) as [_ ->].
Qed.

(** The scan, seen from the descriptors: it starts from none of the old
    ones and ends with exactly the new vector open. *)
Lemma open_keyboards_handles (dir : option (list Device)) (m : Impl)
  (open : list Z) :
  Permutation open (fds m) ->
  let '(ok, m', t) := open_keyboards dir m in
  Permutation (open_after t open) (fds m') /\
  ok = negb (empty_fds (fds m')) /\
  key_code m' = key_code m /\ modmask m' = modmask m /\
  ctrl_l m' = ctrl_l m /\ ctrl_r m' = ctrl_r m /\
  shift_l m' = shift_l m /\ shift_r m' = shift_r m /\
  alt_l m' = alt_l m /\ alt_r m' = alt_r m /\
  super_l m' = super_l m /\ super_r m' = super_r m.
Proof.
  intros HP. unfold open_keyboards, close_all_fds. cbn [fds set_fds].
  destruct dir as [ents|].
  - pose proof (scan_entries_open ents [] [] (Permutation_refl _)) as Hscan.
    destruct (scan_entries ents []) as [found t]. cbn.
    rewrite open_after_app, close_all_closes by assumption. tauto.
  - cbn. rewrite open_after_app, close_all_closes by assumption.
    cbn. repeat split; auto.
Qed.

(** One iteration of the loop, whichever branch it takes. *)
Lemma listen_iter_spec (inp : IterInput) (l : Listener) (loc : Locals) :
  let '(l', loc', t) := listen_iter inp l loc in
  (key_code (m_impl l') = key_code (m_impl l) /\
   modmask (m_impl l') = modmask (m_impl l) /\
   m_running l' = m_running l /\ m_callback l' = m_callback l /\
   (m_event_press l = true -> m_event_press l' = true) /\
   (m_event_release l = true -> m_event_release l' = true)) /\
  ((hotkey_active loc = true -> required_held (m_impl l) = true) ->
   hotkey_active loc' = true -> required_held (m_impl l') = true) /\
  forall open, Permutation open (fds (m_impl l)) ->
               Permutation (open_after t open) (fds (m_impl l')).
Proof.
  unfold listen_iter. destruct (needs_rescan loc).
  - pose proof (open_keyboards_handles (scan_dir inp)
                  (reset_modifiers (m_impl l))) as H.
    destruct (open_keyboards (scan_dir inp) (reset_modifiers (m_impl l)))
      as [[ok m'] t].
    destruct ok; cbn -[backoff open_after];
      (split; [destruct (H (fds (m_impl l)) (Permutation_refl _))
                 as (_ & _ & Hk & Hm & _); cbn in Hk, Hm; tauto|]);
      (split; [discriminate|]);
      intros open HP; destruct (H open HP) as (Hopen & _);
      cbn [open_after]; rewrite open_after_app; cbn [open_after];
      rewrite ?backoff_no_handles; exact Hopen.
  - pose proof (poll_fds_spec (fds (m_impl l)) 0 (reads inp) l loc) as H.
    destruct (poll_fds (fds (m_impl l)) 0 (reads inp) l loc) as [[l' loc'] t].
    destruct H as ((A1 & A2 & A3 & A4 & A5 & A6 & A7) & Hinv & _ & Hopen).
    split; [tauto|]. split; [exact Hinv|].
    intros open HP. cbn [open_after]. now rewrite Hopen, A3.
Qed.

Lemma listen_loop_spec (ins : list (bool * IterInput)) (l : Listener)
  (loc : Locals) :
  let '(l', loc', t) := listen_loop ins l loc in
  (key_code (m_impl l') = key_code (m_impl l) /\
   modmask (m_impl l') = modmask (m_impl l) /\
   m_running l' = m_running l /\ m_callback l' = m_callback l /\
   (m_event_press l = true -> m_event_press l' = true) /\
   (m_event_release l = true -> m_event_release l' = true)) /\
  ((hotkey_active loc = true -> required_held (m_impl l) = true) ->
   hotkey_active loc' = true -> required_held (m_impl l') = true) /\
  forall open, Permutation open (fds (m_impl l)) ->
               Permutation (open_after t open) (fds (m_impl l')).
Proof.
  revert l loc. induction ins as [|[running inp] rest IH]; intros l loc;
    cbn [listen_loop].
  - cbn. tauto.
  - destruct running; cbn [negb]; [|cbn; tauto].
    pose proof (listen_iter_spec inp l loc) as H1.
    destruct (listen_iter inp l loc) as [[l1 loc1] t1].
    specialize (IH l1 loc1).
    destruct (listen_loop rest l1 loc1) as [[l2 loc2] t2].
    destruct H1 as ((A1 & A2 & A3 & A4 & A5 & A6) & Ainv & Aopen).
    destruct IH as ((B1 & B2 & B3 & B4 & B5 & B6) & Binv & Bopen).
    split; [repeat split; try congruence; auto|].
    split; [auto|].
    intros open HP. rewrite open_after_app. apply Bopen, Aopen, HP.
Qed.

(** X2.  However long the listener thread runs and whatever it reads,
    when it holds the hotkey active every modifier of the required mask is
    held in its modifier state. *)
Theorem active_requires_modifiers (ins : list (bool * IterInput))
  (l : Listener) :
  let '(l', loc', _) := listen_thread ins l in
  hotkey_active loc' = true -> required_held (m_impl l') = true.
Proof.
  unfold listen_thread.
  pose proof (listen_loop_spec ins l (mkLocals false false)) as H.
  destruct (listen_loop ins l (mkLocals false false)) as [[l' loc'] t].
  destruct H as (_ & Hinv & _). apply Hinv. discriminate.
Qed.

(** X3.  The listener thread never changes the trigger key, the required
    mask, [m_running] or the callback, and it never lowers an edge flag:
    a flag that was raised when it started is still raised after it. *)
Theorem listener_thread_frame (ins : list (bool * IterInput)) (l : Listener) :
  let '(l', _, _) := listen_thread ins l in
  key_code (m_impl l') = key_code (m_impl l) /\
  modmask (m_impl l') = modmask (m_impl l) /\
  m_running l' = m_running l /\ m_callback l' = m_callback l /\
  (m_event_press l = true -> m_event_press l' = true) /\
  (m_event_release l = true -> m_event_release l' = true).
Proof.
  unfold listen_thread.
  pose proof (listen_loop_spec ins l (mkLocals false false)) as H.
  destruct (listen_loop ins l (mkLocals false false)) as [[l' loc'] t].
  exact (proj1 H).
Qed.

(** X4.  An iteration that starts without [needs_rescan] sleeps 20 ms and
    polls: it keeps the descriptor vector, opens and closes nothing, and
    sets [needs_rescan] exactly when the read of some polled descriptor
    ended with EIO or ENODEV (never on EAGAIN or a short read). *)
Theorem poll_detects_disconnect (inp : IterInput) (l : Listener)
  (loc : Locals) :
  needs_rescan loc = false ->
  let '(l', loc', t) := listen_iter inp l loc in
  fds (m_impl l') = fds (m_impl l) /\
  needs_rescan loc' =
    existsb (fun k => device_gone (snd (reads inp k)))
            (seq 0 (List.length (fds (m_impl l)))) /\
  (exists rest, t = Usleep 20000 :: rest) /\
  forall open, open_after t open = open.
Proof.
  intros Hre. unfold listen_iter. rewrite Hre.
  pose proof (poll_fds_spec (fds (m_impl l)) 0 (reads inp) l loc) as H.
  destruct (poll_fds (fds (m_impl l)) 0 (reads inp) l loc) as [[l' loc'] t].
  destruct H as ((_ & _ & A3 & _) & _ & Hr & Hopen).
  rewrite Hre in Hr. cbn [orb] in Hr.
  repeat split; auto. eauto.
Qed.

(** Two keyboards; the second one reports ENODEV. *)
Lemma poll_detects_disconnect_witness :
  let l := set_impl (set_fds [3; 4] (m_impl Scenario.ctrl_period))
                    Scenario.ctrl_period in
  let inp := mkIterInput None (fun _ => true)
               (fun k => if Nat.eqb k 1
                         then ([Scenario.press Evdev.KEY_LEFTCTRL],
                               ReadErrno Evdev.ENODEV)
                         else ([], ReadErrno Evdev.EAGAIN)) in
  let '(l', loc', t) := listen_iter inp l (mkLocals false false) in
  fds (m_impl l') = [3; 4] /\ needs_rescan loc' = true /\ ctrl_l (m_impl l') = true.
Proof.
  cbv zeta.
  pose proof (poll_detects_disconnect
    (mkIterInput None (fun _ => true)
       (fun k => if Nat.eqb k 1
                 then ([Scenario.press Evdev.KEY_LEFTCTRL],
                       ReadErrno Evdev.ENODEV)
                 else ([], ReadErrno Evdev.EAGAIN)))
    (set_impl (set_fds [3; 4] (m_impl Scenario.ctrl_period))
              Scenario.ctrl_period)
    (mkLocals false false) eq_refl) as H.
  destruct (listen_iter _ _ (mkLocals false false)) as [[l' loc'] t] eqn:E.
  destruct H as (Hf & Hr & _).
  split; [exact Hf|]. split; [exact Hr|].
  injection E as El _ _. now subst l'.
Defined.

End ListenerThread.

Section ListenerLifecycle.
Import CType Hotkey.

Lemma scan_entries_filter (ents : list Device) (acc : list Z) :
  fst (scan_entries ents acc)
  = acc ++ map open_result (filter is_keyboard ents).
Proof.
  revert acc. induction ents as [|ent ents IH]; intros acc;
    cbn [scan_entries filter map].
  - now rewrite app_nil_r.
  - unfold is_keyboard at 1.
    destruct (String.prefix "event" (d_name ent)); cbn [negb andb];
      [|apply IH].
    destruct (Z.ltb_spec (open_result ent) 0) as [Hneg|Hpos].
    + destruct (Z.leb_spec 0 (open_result ent)); [lia|]. cbn [andb].
      specialize (IH acc). destruct (scan_entries ents acc). exact IH.
    + destruct (Z.leb_spec 0 (open_result ent)); [|lia]. cbn [andb].
      destruct (evbits ent) as [ev|].
      * destruct (test_bit ev Evdev.EV_KEY); cbn [negb andb].
        -- destruct (keybits ent) as [kb|].
           ++ destruct (test_bit kb Evdev.KEY_A).
              ** specialize (IH (acc ++ [open_result ent])).
                 destruct (scan_entries ents (acc ++ [open_result ent])).
                 cbn [fst map] in *. now rewrite IH, <- app_assoc.
              ** specialize (IH acc). destruct (scan_entries ents acc).
                 exact IH.
           ++ specialize (IH acc). destruct (scan_entries ents acc). exact IH.
        -- specialize (IH acc). destruct (scan_entries ents acc). exact IH.
      * specialize (IH acc). destruct (scan_entries ents acc). exact IH.
Qed.

(** X5.  Whatever it held before, after [open_keyboards] the listener
    holds, in directory order, the descriptors of exactly the entries that
    are named event..., could be opened, report key events and have the
    key A; it returns true exactly when there is such an entry, and false
    with no descriptor when the directory cannot be opened. *)
Theorem scan_keeps_keyboards (dir : option (list Device)) (m : Impl) :
  let '(ok, m', _) := open_keyboards dir m in
  fds m' = match dir with
           | Some ents => map open_result (filter is_keyboard ents)
           | None => []
           end /\
  ok = match dir with
       | Some ents => existsb is_keyboard ents
       | None => false
       end.
Proof.
  unfold open_keyboards, close_all_fds. cbn [fds set_fds].
  destruct dir as [ents|]; [|cbn; auto].
  pose proof (scan_entries_filter ents []) as H.
  destruct (scan_entries ents []) as [found t]. cbn [fst app] in H.
  cbn [fds set_fds]. split; [exact H|]. subst found.
  induction ents as [|ent ents IH]; [reflexivity|].
  cbn [filter existsb]. destruct (is_keyboard ent); cbn; [reflexivity|exact IH].
Qed.

Lemma init_handles (s : string) (dir : option (list Device)) (l : Listener)
  (open : list Z) :
  Permutation open (fds (m_impl l)) ->
  let '(ok, l', t) := init s dir l in
  Permutation (open_after t open) (fds (m_impl l')) /\
  (ok = true -> empty_fds (fds (m_impl l')) = false) /\
  (ok = false -> fds (m_impl l') = [] \/ l' = l) /\
  m_running l' = m_running l.
Proof.
  intros HP. unfold init.
  destruct (parse_hotkey s) as [e|[key mask]].
  - cbn. repeat split; auto. discriminate.
  - pose proof (open_keyboards_handles dir (set_hotkey key mask (m_impl l))
                  open HP) as H.
    destruct (open_keyboards dir (set_hotkey key mask (m_impl l)))
      as [[ok m'] t].
    destruct H as (Hopen & Hok & _).
    destruct ok; cbn [negb]; cbn [m_impl set_impl m_running];
      rewrite open_after_app; cbn [open_after].
    + repeat split; auto.
      * intros _. now destruct (empty_fds (fds m')).
      * discriminate.
    + repeat split; auto; try discriminate.
      intros _. left. destruct (fds m'); [reflexivity|discriminate].
Qed.

(** X6.  A listener's life leaks no descriptor: starting from a fresh
    object, [init], [start] (which succeeds exactly when [init] did), the
    thread for as long as it runs and whatever the devices do, and [stop]
    together leave every descriptor they opened closed, the vector empty
    and [m_running] false. *)
Theorem lifecycle_no_leak (s : string) (dir : option (list Device))
  (callback : bool) (ins : list (bool * IterInput)) (l : Listener) :
  fds (m_impl l) = [] -> m_running l = false ->
  let '(ok, l1, t1) := init s dir l in
  let '(started, l2) := start callback l1 in
  let '(l3, _, t2) :=
    if started then listen_thread ins l2
    else (l2, mkLocals false false, []) in
  let '(l4, t3) := stop l3 in
  started = ok /\ fds (m_impl l4) = [] /\ m_running l4 = false /\
  open_after (t1 ++ t2 ++ t3) [] = [].
Proof.
  intros Hfds Hrun.
  assert (HP : Permutation [] (fds (m_impl l))) by now rewrite Hfds.
  pose proof (init_handles s dir l [] HP) as Hinit.
  destruct (init s dir l) as [[ok l1] t1].
  destruct Hinit as (Hopen1 & Hok & Hfail & Hrun1).
  unfold start. rewrite Hrun1, Hrun.
  destruct ok.
  - rewrite (Hok eq_refl).
    unfold listen_thread.
    pose proof (listen_loop_spec ins (set_running true (set_callback callback l1))
                  (mkLocals false false)) as Hloop.
    destruct (listen_loop ins (set_running true (set_callback callback l1))
                (mkLocals false false)) as [[l3 loc3] t2].
    destruct Hloop as ((_ & _ & Hrun3 & _) & _ & Hopen2).
    unfold stop. rewrite Hrun3. cbn [m_running set_running negb andb].
    unfold close_all_fds. cbn [m_impl set_running set_impl fds set_fds m_running].
    repeat split.
    rewrite !open_after_app. apply close_all_closes.
    apply Hopen2. cbn [m_impl set_running set_callback]. exact Hopen1.
  - assert (Hempty : fds (m_impl l1) = []).
    { destruct (Hfail eq_refl) as [H|H]; [exact H|now subst l1]. }
    rewrite Hempty. cbn [empty_fds].
    unfold stop. rewrite Hrun1, Hrun, Hempty. cbn -[open_after].
    rewrite Hrun1, Hrun, Hempty. cbn -[open_after].
    repeat split; auto.
    rewrite !app_nil_r. rewrite Hempty in Hopen1.
    now apply Permutation_nil, Permutation_sym.
Qed.

(** "ctrl+period" with one keyboard in the directory, the thread running
    for one rescan-free iteration. *)
Lemma lifecycle_no_leak_witness :
  let dir := Some [ mkDevice "event0" 5 (Some [2]) (Some [1073741824]) ] in
  let ins := [ (true, Scenario.replugged); (false, Scenario.replugged) ] in
  let '(ok, l1, t1) := init "ctrl+period" dir Listener0 in
  let '(started, l2) := start false l1 in
  let '(l3, _, t2) :=
    if started then listen_thread ins l2
    else (l2, mkLocals false false, []) in
  let '(l4, t3) := stop l3 in
  started = ok /\ fds (m_impl l4) = [] /\ m_running l4 = false /\
  open_after (t1 ++ t2 ++ t3) [] = [].
Proof.
  exact (lifecycle_no_leak "ctrl+period"
           (Some [ mkDevice "event0" 5 (Some [2]) (Some [1073741824]) ])
           false [ (true, Scenario.replugged); (false, Scenario.replugged) ]
           Listener0 eq_refl eq_refl).
Defined.

Lemma stop_when_stopped (l : Listener) :
  m_running l = false -> fds (m_impl l) = [] -> stop l = (l, []).
Proof. intros Hr Hf. unfold stop. now rewrite Hr, Hf. Qed.

(** X7.  [stop] always leaves the listener stopped and without
    descriptors, closing exactly the ones it held, and a second [stop]
    does nothing at all. *)
Theorem stop_is_idempotent (l : Listener) :
  let '(l1, t1) := stop l in
  m_running l1 = false /\ fds (m_impl l1) = [] /\
  (forall open, Permutation open (fds (m_impl l)) -> open_after t1 open = []) /\
  stop l1 = (l1, []).
Proof.
  assert (H : let '(l1, t1) := stop l in
              m_running l1 = false /\ fds (m_impl l1) = [] /\
              (forall open, Permutation open (fds (m_impl l)) ->
                            open_after t1 open = [])).
  { unfold stop.
    destruct (negb (m_running l) && empty_fds (fds (m_impl l))) eqn:E.
    - apply andb_prop in E as [Hr Hf].
      destruct (m_running l); [discriminate|].
      destruct (fds (m_impl l)); [|discriminate].
      repeat split. intros open HP. cbn.
      now apply Permutation_nil, Permutation_sym.
    - unfold close_all_fds. cbn. repeat split.
      intros open HP. now apply close_all_closes. }
  destruct (stop l) as [l1 t1]. destruct H as (Hr & Hf & Hopen).
  repeat split; auto. now apply stop_when_stopped.
Qed.

End ListenerLifecycle.

(** * Further properties of the hotkey string *)

Section HotkeyString.
Import CType Hotkey.

Lemma is_modifier_false (c : Z) :
  c <> 29 -> c <> 97 -> c <> 42 -> c <> 54 -> c <> 56 -> c <> 100 ->
  c <> 125 -> c <> 126 -> is_modifier c = false.
Proof.
  intros. unfold is_modifier.
  cbv [Evdev.KEY_LEFTCTRL Evdev.KEY_RIGHTCTRL Evdev.KEY_LEFTSHIFT
       Evdev.KEY_RIGHTSHIFT Evdev.KEY_LEFTALT Evdev.KEY_RIGHTALT
       Evdev.KEY_LEFTMETA Evdev.KEY_RIGHTMETA].
  repeat match goal with
         | |- context [?a =? ?b] => destruct (Z.eqb_spec a b); [lia|]
         end.
  reflexivity.
Qed.

Lemma named_lookup_in (tbl : list (list string * Z)) (lower : string) (k : Z) :
  named_lookup tbl lower = Some k -> In k (map snd tbl).
Proof.
  induction tbl as [|[names k'] tbl IH]; cbn [named_lookup map snd];
    [discriminate|].
  destruct (is_one_of lower names); [intros [= <-]; now left|].
  intros H. right. now apply IH.
Qed.

(** No key name stands for one of the eight modifier keys. *)
Lemma name_to_evdev_not_modifier (name : string) :
  is_modifier (name_to_evdev name) = false.
Proof.
  unfold name_to_evdev. set (lower := lowercase name).
  destruct ((size lower =? 1) && (97 <=? front lower) && (front lower <=? 122))
    eqn:E1.
  { apply andb_prop in E1 as [E1 E3]. apply andb_prop in E1 as [_ E2].
    assert (H : Forall (fun c => is_modifier c = false) letter_codes)
      by (unfold letter_codes; repeat constructor).
    rewrite Forall_forall in H. apply H. apply nth_In.
    change (List.length letter_codes) with 26%nat. lia. }
  destruct ((size lower =? 1) && (48 <=? front lower) && (front lower <=? 57))
    eqn:E2.
  { apply andb_prop in E2 as [E2 E4]. apply andb_prop in E2 as [_ E3].
    destruct (front lower =? 48); [reflexivity|].
    apply is_modifier_false; cbv [Evdev.KEY_1]; lia. }
  destruct (named_lookup named_keys lower) as [k|] eqn:E3.
  { apply named_lookup_in in E3.
    assert (H : Forall (fun c => is_modifier c = false) (map snd named_keys))
      by (unfold named_keys; cbn [map snd]; repeat constructor).
    rewrite Forall_forall in H. now apply H. }
  destruct ((2 <=? size lower) && (front lower =? 102)); [|reflexivity].
  destruct (fkey_number (tail lower) 0) as [n|]; [|reflexivity].
  destruct ((1 <=? n) && (n <=? 12)) eqn:E4; [|reflexivity].
  apply andb_prop in E4 as [E4 E5].
  destruct (n <=? 10); [apply is_modifier_false; cbv [Evdev.KEY_F1]; lia|].
  destruct (n =? 11); [reflexivity|].
  destruct (n =? 12); reflexivity.
Qed.

Lemma mods_match_mask (m : Impl) :
  mods_match m = true <-> held_mask m = Z.land (modmask m) 15.
Proof.
  rewrite mods_match_families, land_15.
  unfold held_mask, MOD_CTRL, MOD_SHIFT, MOD_ALT, MOD_SUPER.
  destruct (ctrl m), (shift m), (alt m), (super m),
    (Z.testbit (modmask m) 0), (Z.testbit (modmask m) 1),
    (Z.testbit (modmask m) 2), (Z.testbit (modmask m) 3); simpl;
    (split; intros H; try discriminate; try lia; try reflexivity).
Qed.

(** X8.  When [init] returns true the listener stores what the string
    parses to: a trigger key that is a real key code and never one of the
    eight modifier keys, and a mask with no bit outside the four modifier
    flags, so that [mods_match] compares the held set with the whole
    mask; it holds at least one descriptor, and [start] on it succeeds if
    the listener was not running. *)
Theorem init_postconditions (s : string) (dir : option (list Device))
  (l : Listener) :
  fst (fst (init s dir l)) = true ->
  let l' := snd (fst (init s dir l)) in
  parse_hotkey s = inr (key_code (m_impl l'), modmask (m_impl l')) /\
  0 < key_code (m_impl l') /\
  is_modifier (key_code (m_impl l')) = false /\
  0 <= modmask (m_impl l') < 16 /\
  fds (m_impl l') <> [] /\
  (mods_match (m_impl l') = true <->
   held_mask (m_impl l') = modmask (m_impl l')) /\
  (m_running l = false ->
   forall callback, fst (start callback l') = true).
Proof.
  intros Hok. cbv zeta.
  pose proof (init_handles s dir l (fds (m_impl l)) (Permutation_refl _)) as Hh.
  pose proof (init_returns s dir l) as Hret.
  destruct (parse_hotkey s) as [e|[key mask]] eqn:Hp; [congruence|].
  pose proof (init_after_parse s key mask dir l Hp) as Hafter.
  pose proof (parse_hotkey_mask_range s key mask Hp) as Hrange.
  destruct (init s dir l) as [[ok l'] t]. cbn [fst snd] in *. subst ok.
  destruct Hafter as (Hk & Hm & _). destruct Hh as (_ & Hne & _ & Hrun).
  specialize (Hne eq_refl). rewrite Hk, Hm.
  assert (Hkey : key = name_to_evdev (last (split_parts s) "") /\ 0 <= key).
  { unfold parse_hotkey in Hp.
    destruct (split_parts s) as [|p ps]; [discriminate|].
    destruct (modifier_loop (p :: ps) 0); [|discriminate].
    destruct (Z.ltb_spec (name_to_evdev (last (p :: ps) "")) 0);
      [discriminate|].
    injection Hp as <- _. auto. }
  destruct Hkey as [Hkey Hpos].
  pose proof (name_to_evdev_range (last (split_parts s) "")) as Hr.
  repeat split; try lia.
  - rewrite Hkey. apply name_to_evdev_not_modifier.
  - intros Hf. now rewrite Hf in Hne.
  - intros H. apply mods_match_mask in H. rewrite H, Hm.
    change 15 with (Z.ones 4). rewrite Z.land_ones by lia.
    apply Z.mod_small. change (2 ^ 4) with 16. lia.
  - intros H. apply mods_match_mask. rewrite H, Hm.
    change 15 with (Z.ones 4). rewrite Z.land_ones by lia.
    symmetry. apply Z.mod_small. change (2 ^ 4) with 16. lia.
  - intros Hrun0 callback. unfold start. rewrite Hrun, Hrun0, Hne.
    reflexivity.
Qed.

(** "Super+Shift+F5" with one keyboard. *)
Lemma init_postconditions_witness :
  let dir := Some [ mkDevice "event3" 4 (Some [2]) (Some [1073741824]) ] in
  let l' := snd (fst (init "Super+Shift+F5" dir Listener0)) in
  key_code (m_impl l') = 63 /\ modmask (m_impl l') = 10 /\
  fds (m_impl l') = [4] /\ is_modifier (key_code (m_impl l')) = false.
Proof.
  pose proof (init_postconditions "Super+Shift+F5"
                (Some [ mkDevice "event3" 4 (Some [2]) (Some [1073741824]) ])
                Listener0 eq_refl) as H.
  cbv zeta in *. destruct H as (_ & _ & Hmod & _).
  split; [reflexivity|]. split; [reflexivity|]. split; [reflexivity|exact Hmod].
Defined.

End HotkeyString.

Section HotkeyParts.
Import CType Hotkey.

Lemma no_plus_append (a b : string) :
  no_plus (String.append a b) = no_plus a && no_plus b.
Proof.
  induction a as [|c a IH]; cbn; [reflexivity|].
  now rewrite IH, andb_assoc.
Qed.

Lemma getlines_no_plus (s part : string) :
  no_plus part = true ->
  Forall (fun p => no_plus p = true) (getlines s part).
Proof.
  revert part. induction s as [|c s IH]; intros part Hpart; cbn [getlines].
  - destruct (empty part); constructor; auto.
  - destruct (code c =? 43) eqn:Ec.
    + constructor; [assumption|]. now apply IH.
    + apply IH. rewrite no_plus_append, Hpart. cbn. now rewrite Ec.
Qed.

Lemma trim_front_no_plus (s : string) :
  no_plus s = true -> no_plus (trim_front s) = true.
Proof.
  induction s as [|c s IH]; cbn [trim_front]; [auto|].
  intros H. destruct (isspace c); [|exact H].
  apply IH. cbn in H. now apply andb_prop in H as [_ H].
Qed.

Lemma trim_back_no_plus (s : string) :
  no_plus s = true -> no_plus (trim_back s) = true.
Proof.
  induction s as [|c s IH]; cbn [trim_back]; [auto|].
  intros H. cbn in H. apply andb_prop in H as [Hc Hs].
  destruct (empty (trim_back s) && isspace c); [reflexivity|].
  cbn. now rewrite Hc, IH.
Qed.

Lemma trim_front_start (s : string) : starts_with_space (trim_front s) = false.
Proof.
  induction s as [|c s IH]; cbn [trim_front]; [reflexivity|].
  destruct (isspace c) eqn:E; [exact IH|]. cbn. exact E.
Qed.

Lemma trim_back_start (s : string) :
  starts_with_space s = false -> starts_with_space (trim_back s) = false.
Proof.
  destruct s as [|c s]; cbn [trim_back starts_with_space]; [auto|].
  intros H. rewrite H, andb_false_r. exact H.
Qed.

Lemma trim_back_end (s : string) : ends_with_space (trim_back s) = false.
Proof.
  induction s as [|c s IH]; cbn [trim_back]; [reflexivity|].
  destruct (trim_back s) as [|d r] eqn:E; cbn [empty andb].
  - destruct (isspace c) eqn:Ec; cbn; [reflexivity|exact Ec].
  - exact IH.
Qed.

(** X9.  Every part the split loop of [init] yields is non-empty, holds no
    ['+'] and neither starts nor ends with whitespace, whatever the hotkey
    string. *)
Theorem split_parts_clean (hotkey_str : string) :
  Forall (fun p => clean_token p = true) (split_parts hotkey_str).
Proof.
  unfold split_parts.
  pose proof (getlines_no_plus hotkey_str "" eq_refl) as H.
  induction H as [|p ps Hp _ IH]; cbn [map filter]; [constructor|].
  destruct (empty (trim_back (trim_front p))) eqn:E; cbn [negb]; [exact IH|].
  constructor; [|exact IH].
  unfold clean_token.
  rewrite E, trim_back_no_plus by (now apply trim_front_no_plus).
  rewrite trim_back_start by apply trim_front_start.
  now rewrite trim_back_end.
Qed.

Lemma string_append_nil (s : string) : String.append s "" = s.
Proof. induction s as [|c s IH]; cbn; [reflexivity|now rewrite IH]. Qed.

Lemma getlines_append (p s acc : string) :
  no_plus p = true ->
  getlines (String.append p s) acc = getlines s (String.append acc p).
Proof.
  revert acc. induction p as [|c p IH]; intros acc Hp; cbn [String.append].
  - f_equal. induction acc as [|a acc IHa]; cbn; [reflexivity|now rewrite <- IHa].
  - cbn in Hp. apply andb_prop in Hp as [Hc Hp]. cbn [getlines].
    destruct (code c =? 43); [discriminate|].
    rewrite IH by assumption. f_equal.
    induction acc as [|a acc IHa]; cbn; [reflexivity|now rewrite IHa].
Qed.

Lemma trim_front_clean (p : string) :
  starts_with_space p = false -> trim_front p = p.
Proof. destruct p as [|c p]; cbn; [auto|]. now intros ->. Qed.

Lemma trim_back_clean (p : string) :
  ends_with_space p = false -> trim_back p = p.
Proof.
  induction p as [|c p IH]; cbn [trim_back]; [auto|].
  intros H. destruct p as [|d p].
  - cbn in *. now rewrite H.
  - rewrite IH by exact H. reflexivity.
Qed.

Lemma clean_token_parts (p : string) :
  clean_token p = true ->
  empty p = false /\ no_plus p = true /\ trim_back (trim_front p) = p.
Proof.
  unfold clean_token. intros H.
  apply andb_prop in H as [H He]. apply andb_prop in H as [H Hs].
  apply andb_prop in H as [Hn Hp].
  apply negb_true_iff in He, Hs, Hn.
  repeat split; auto.
  rewrite trim_front_clean by assumption. now apply trim_back_clean.
Qed.

(** The split loop undoes [join_plus] on clean parts. *)
Lemma split_parts_join (parts : list string) :
  Forall (fun p => clean_token p = true) parts ->
  split_parts (join_plus parts) = parts.
Proof.
  unfold split_parts.
  induction 1 as [|p ps Hp Hps IH]; [reflexivity|].
  apply clean_token_parts in Hp as (Hne & Hnp & Htrim).
  destruct ps as [|q ps].
  - cbn [join_plus].
    rewrite <- (string_append_nil p) at 1.
    rewrite getlines_append by assumption. cbn [String.append getlines].
    rewrite Hne. cbn [map filter]. now rewrite Htrim, Hne.
  - change (join_plus (p :: q :: ps))
      with (String.append p (String "+" (join_plus (q :: ps)))).
    rewrite getlines_append by assumption.
    cbn [String.append getlines]. change (code "+" =? 43) with true.
    cbn [map filter]. rewrite Htrim, Hne. cbn [negb]. now rewrite IH.
Qed.

Lemma modifier_alias_clean (p : string) :
  modifier_bit (lowercase p) <> None -> clean_token p = true.
Proof.
  intros H.
  assert (Hl : clean_token (lowercase p) = true).
  { unfold modifier_bit in H.
    repeat match type of H with
           | context [(?a =? ?b)%string] =>
               destruct (String.eqb_spec a b) as [->|_]; [reflexivity|]
           end.
    now cbn in H. }
  revert Hl. unfold clean_token.
  assert (H1 : empty (lowercase p) = empty p) by apply empty_lowercase.
  assert (H2 : no_plus (lowercase p) = no_plus p).
  { clear. induction p as [|c p IH]; cbn; [reflexivity|].
    now rewrite plus_tolower, IH. }
  assert (H3 : starts_with_space (lowercase p) = starts_with_space p).
  { clear. destruct p; cbn; [reflexivity|apply isspace_tolower]. }
  assert (H4 : ends_with_space (lowercase p) = ends_with_space p).
  { clear. induction p as [|c p IH]; [reflexivity|].
    destruct p as [|d p]; [cbn; apply isspace_tolower|exact IH]. }
  now rewrite H1, H2, H3, H4.
Qed.

(** X10.  Writing any clean parts with ['+'] between them and splitting
    again gives the parts back; and a string written from modifier
    aliases (in any letter case) and a key name the resolver knows parses
    to that key's code and the OR of the flags of the aliases'
    families. *)
Theorem parse_hotkey_round_trip :
  (forall parts,
     Forall (fun p => clean_token p = true) parts ->
     split_parts (join_plus parts) = parts) /\
  (forall mods key,
     Forall (fun p => alias_flag (lowercase p) <> None) mods ->
     clean_token key = true -> 0 <= name_to_evdev key ->
     parse_hotkey (join_plus (mods ++ [key]))
     = inr (name_to_evdev key, alias_mask mods)).
Proof.
  split; [exact split_parts_join|].
  intros mods key Hmods Hkey Hcode.
  assert (Hbits : Forall (fun p => modifier_bit (lowercase p) <> None) mods).
  { eapply Forall_impl; [|exact Hmods]. intros p Hp.
    now rewrite modifier_bit_alias. }
  assert (Hsplit : split_parts (join_plus (mods ++ [key])) = mods ++ [key]).
  { apply split_parts_join. apply Forall_app. split.
    - eapply Forall_impl; [|exact Hbits]. apply modifier_alias_clean.
    - now constructor. }
  unfold parse_hotkey. rewrite Hsplit.
  destruct (mods ++ [key]) as [|p ps] eqn:E.
  { now destruct mods. }
  rewrite <- E. rewrite last_last.
  destruct (modifier_loop (mods ++ [key]) 0) as [mask|] eqn:El.
  - apply modifier_loop_some in El.
    rewrite removelast_last, Z.lor_0_l, mask_of_alias in El.
    subst mask. destruct (Z.ltb_spec (name_to_evdev key) 0); [lia|reflexivity].
  - apply modifier_loop_none in El. rewrite removelast_last in El.
    destruct El as (x & Hin & Hx). rewrite Forall_forall in Hbits.
    now destruct (Hbits x Hin).
Qed.

(** Control, ALT and mod4 with PageUp; and parts that are no hotkey at
    all come back from the split as they were. *)
Lemma parse_hotkey_round_trip_witness :
  parse_hotkey (join_plus (["Control"; "ALT"; "mod4"] ++ ["PageUp"]))
  = inr (Evdev.KEY_PAGEUP, 13) /\
  split_parts (join_plus ["to be"; "or"; "not"]) = ["to be"; "or"; "not"].
Proof.
  split.
  - refine (proj2 parse_hotkey_round_trip ["Control"; "ALT"; "mod4"] "PageUp"
                  _ eq_refl _).
    + repeat (apply Forall_cons; [discriminate|]). apply Forall_nil.
    + cbv. discriminate.
  - refine (proj1 parse_hotkey_round_trip ["to be"; "or"; "not"] _).
    repeat (apply Forall_cons; [reflexivity|]). apply Forall_nil.
Defined.

End HotkeyParts.

(** * Further properties of the text output *)

Section Newlines.
Import CType TextOutput.

Lemma strip_newlines_split (s : string) :
  exists tail_part,
    s = String.append (strip_newlines s) tail_part /\
    all_newlines tail_part = true.
Proof.
  induction s as [|c s (tl & Hs & Htl)]; cbn [strip_newlines].
  - now exists "".
  - destruct (empty (strip_newlines s)) eqn:E; cbn [andb].
    + destruct (strip_newlines s); [|discriminate]. cbn in Hs. subst tl.
      destruct ((code c =? 10) || (code c =? 13)) eqn:Ec.
      * exists (String c s). split; [reflexivity|]. cbn.
        unfold is_newline. now rewrite Ec.
      * exists s. split; [reflexivity|assumption].
    + exists tl. split; [|assumption]. cbn. now rewrite <- Hs.
Qed.

Lemma strip_newlines_end (s : string) :
  ends_with_newline (strip_newlines s) = false.
Proof.
  induction s as [|c s IH]; cbn [strip_newlines]; [reflexivity|].
  destruct (strip_newlines s) as [|d r] eqn:E; cbn [empty andb].
  - destruct ((code c =? 10) || (code c =? 13)) eqn:Ec; [reflexivity|].
    cbn. unfold is_newline. exact Ec.
  - exact IH.
Qed.

Lemma strip_newlines_fixed (s : string) :
  ends_with_newline s = false -> strip_newlines s = s.
Proof.
  induction s as [|c s IH]; cbn [strip_newlines]; [auto|].
  intros H. destruct s as [|d s].
  - cbn in *. unfold is_newline in H. now rewrite H.
  - rewrite IH by exact H. reflexivity.
Qed.

(** X11.  Stripping the newlines from a command's output removes exactly
    its trailing run of line feeds and carriage returns: the result is a
    prefix of the text, what is cut off consists of those characters
    only, the result does not end in one, and stripping again changes
    nothing. *)
Theorem strip_newlines_exact (s : string) :
  (exists tail_part,
      s = String.append (strip_newlines s) tail_part /\
      all_newlines tail_part = true) /\
  ends_with_newline (strip_newlines s) = false /\
  strip_newlines (strip_newlines s) = strip_newlines s.
Proof.
  split; [apply strip_newlines_split|].
  split; [apply strip_newlines_end|].
  apply strip_newlines_fixed, strip_newlines_end.
Qed.

End Newlines.

Section Clipboard.
Import CType TextOutput.

Variable World : Type.
Variable run_cmd :
  list string -> Z -> option string -> bool -> World -> Z * string * World.

Ltac run_each :=
  repeat match goal with
         | |- context [run_cmd ?a ?b ?c ?d ?w] =>
             destruct (run_cmd a b c d w) as [[? ?] ?] eqn:?; cbn
         | |- context [if ?c then _ else _] => destruct c eqn:?; cbn
         end.

(** Every command of a clipboard delivery is one of the eight it may
    run, with the window id that [xdotool getactivewindow] printed. *)
Lemma type_clipboard_commands (text : string) (w : World)
  (tr : list Effect) :
  let '(_, saved, w1) :=
    run_cmd ["xclip"; "-selection"; "clipboard"; "-o"] CMD_TIMEOUT_MS None
            true w in
  let '(_, _, w2) :=
    run_cmd ["xclip"; "-selection"; "clipboard"] CMD_TIMEOUT_MS (Some text)
            false w1 in
  let '(ws, wout, _) :=
    run_cmd ["xdotool"; "getactivewindow"] CMD_TIMEOUT_MS None true w2 in
  let window_id := strip_newlines (if negb (ws =? 0) then "" else wout) in
  exists new,
    snd (snd (type_clipboard World run_cmd text (w, tr))) = tr ++ new /\
    Forall (clipboard_command text saved window_id) (commands new) /\
    firstn 2 (commands new)
    = [ (["xclip"; "-selection"; "clipboard"; "-o"], None);
        (["xclip"; "-selection"; "clipboard"], Some text) ].
Proof.
  unfold type_clipboard, bind, run, ret, fprintf, sleep_for, emit. cbn.
  destruct (run_cmd ["xclip"; "-selection"; "clipboard"; "-o"] CMD_TIMEOUT_MS
              None true w) as [[s0 saved] w1].
  cbn.
  destruct (run_cmd ["xclip"; "-selection"; "clipboard"] CMD_TIMEOUT_MS
              (Some text) false w1) as [[status out] w2].
  cbn.
  destruct (run_cmd ["xdotool"; "getactivewindow"] CMD_TIMEOUT_MS None true w2)
    as [[ws wout] w3] eqn:Ewin.
  set (window_id := strip_newlines (if negb (ws =? 0) then "" else wout)).
  destruct (status =? 0); cbn.
  2:{ rewrite <- !app_assoc. cbn [app]. eexists. split; [reflexivity|].
      cbn. split; [|reflexivity].
      repeat (apply Forall_cons; [unfold clipboard_command; tauto|]).
      apply Forall_nil. }
  rewrite Ewin. cbn [fst snd]. fold window_id.
  destruct (empty window_id) eqn:Ew; cbn [negb fst snd].
  - run_each; rewrite <- ?app_assoc; cbn [app]; eexists;
      (split; [reflexivity|]); cbn; (split; [|reflexivity]);
      repeat (apply Forall_cons; [unfold clipboard_command; tauto|]);
      apply Forall_nil.
  - cbn -[is_terminal_class].
    destruct (run_cmd ["xdotool"; "getwindowclassname"; window_id]
                CMD_TIMEOUT_MS None true w3) as [[cs cout] w4].
    cbn -[is_terminal_class].
    destruct (cs =? 0); cbn -[is_terminal_class];
      [destruct (is_terminal_class (strip_newlines cout));
       cbn -[is_terminal_class]|];
      run_each; rewrite <- ?app_assoc; cbn [app]; eexists;
      (split; [reflexivity|]); cbn; (split; [|reflexivity]);
      repeat (apply Forall_cons; [unfold clipboard_command; tauto|]);
      apply Forall_nil.
Qed.

(** X12.  Whatever the commands answer, a delivery runs only [xclip] and
    [xdotool], at most six commands in all, and sleeps at most 350 ms,
    and the text never goes through a shell.  By keystrokes it is the
    argument after [--] of the one [xdotool type].  Through the clipboard
    it is only ever the input of [xclip]: the first two commands are the
    read of the clipboard and the write of the text, and every command is
    one of the eight of [clipboard_command], whose arguments are fixed
    words and the id that [xdotool getactivewindow] printed. *)
Theorem delivery_commands (o : TextOutput) (text : string) (w : World)
  (tr : list Effect) :
  exists new,
    snd (snd (type World run_cmd o text (w, tr))) = tr ++ new /\
    Forall (fun c => hd "" (fst c) = "xclip" \/ hd "" (fst c) = "xdotool")
           (commands new) /\
    (List.length (commands new) <= 6)%nat /\
    0 <= slept new <= 350 /\
    (m_use_clipboard o = false -> empty text = false ->
     commands new
     = [(["xdotool"; "type"; "--clearmodifiers"; "--delay";
          to_string (m_type_delay_ms o); "--"; text], None)]) /\
    (m_use_clipboard o = true -> empty text = false ->
     let '(_, saved, w1) :=
       run_cmd ["xclip"; "-selection"; "clipboard"; "-o"] CMD_TIMEOUT_MS
               None true w in
     let '(_, _, w2) :=
       run_cmd ["xclip"; "-selection"; "clipboard"] CMD_TIMEOUT_MS
               (Some text) false w1 in
     let '(ws, wout, _) :=
       run_cmd ["xdotool"; "getactivewindow"] CMD_TIMEOUT_MS None true w2 in
     let window_id := strip_newlines (if negb (ws =? 0) then "" else wout) in
     Forall (clipboard_command text saved window_id) (commands new) /\
     firstn 2 (commands new)
     = [ (["xclip"; "-selection"; "clipboard"; "-o"], None);
         (["xclip"; "-selection"; "clipboard"], Some text) ]).
Proof.
  unfold type. destruct (empty text) eqn:He.
  { exists []. cbn. rewrite app_nil_r. repeat split; auto; try lia;
      discriminate. }
  destruct (m_use_clipboard o).
  - pose proof (type_clipboard_commands text w tr) as Hshape.
    assert (Hcount : exists new,
      snd (snd (type_clipboard World run_cmd text (w, tr))) = tr ++ new /\
      Forall (fun c => hd "" (fst c) = "xclip" \/ hd "" (fst c) = "xdotool")
             (commands new) /\
      (List.length (commands new) <= 6)%nat /\ 0 <= slept new <= 350).
    { clear Hshape.
      unfold type_clipboard, bind, run, ret, fprintf, sleep_for, emit. cbn.
      run_each; rewrite <- ?app_assoc; cbn [app]; eexists;
        (split; [reflexivity|]); cbn;
        (split; [repeat (apply Forall_cons; [cbn; auto|]); apply Forall_nil|]);
        (split; lia). }
    destruct Hcount as (new & Hnew & Hprog & Hlen & Hslept).
    exists new. split; [exact Hnew|]. split; [exact Hprog|].
    split; [exact Hlen|]. split; [exact Hslept|].
    split; [discriminate|]. intros _ _.
    destruct (run_cmd ["xclip"; "-selection"; "clipboard"; "-o"]
                CMD_TIMEOUT_MS None true w) as [[s0 saved] w1].
    destruct (run_cmd ["xclip"; "-selection"; "clipboard"] CMD_TIMEOUT_MS
                (Some text) false w1) as [[status out] w2].
    destruct (run_cmd ["xdotool"; "getactivewindow"] CMD_TIMEOUT_MS None
                true w2) as [[ws wout] w3].
    destruct Hshape as (new' & Hnew' & Hshape).
    rewrite Hnew in Hnew'. apply app_inv_head in Hnew'. subst new'.
    exact Hshape.
  - unfold type_xdotool, bind, run, ret, fprintf, emit. cbn.
    run_each; rewrite <- ?app_assoc; cbn [app]; eexists;
      (split; [reflexivity|]); cbn;
      (split; [repeat (apply Forall_cons; [cbn; auto|]); apply Forall_nil|]);
      (split; [lia|]); (split; [lia|]); (split; [reflexivity|discriminate]).
Qed.

(** X13.  If writing the text to the clipboard fails, [type_clipboard]
    returns false after exactly two commands, the read of the old
    clipboard and the failed write: no keystroke is sent, nothing is
    restored and it does not sleep. *)
Theorem clipboard_write_failure (text : string) (w : World)
  (tr : list Effect) :
  let '(_, _, w1) :=
    run_cmd ["xclip"; "-selection"; "clipboard"; "-o"] CMD_TIMEOUT_MS None
            true w in
  let '(status, _, w2) :=
    run_cmd ["xclip"; "-selection"; "clipboard"] CMD_TIMEOUT_MS (Some text)
            false w1 in
  status <> 0 ->
  exists new,
    type_clipboard World run_cmd text (w, tr) = (false, (w2, tr ++ new)) /\
    commands new
    = [ (["xclip"; "-selection"; "clipboard"; "-o"], None);
        (["xclip"; "-selection"; "clipboard"], Some text) ] /\
    slept new = 0.
Proof.
  unfold type_clipboard, bind, run, ret, fprintf, sleep_for, emit. cbn.
  destruct (run_cmd ["xclip"; "-selection"; "clipboard"; "-o"] CMD_TIMEOUT_MS
              None true w) as [[s0 saved] w1].
  cbn.
  destruct (run_cmd ["xclip"; "-selection"; "clipboard"] CMD_TIMEOUT_MS
              (Some text) false w1) as [[status out] w2].
  cbn. intros Hst.
  destruct (Z.eqb_spec status 0) as [|_]; [contradiction|]. cbn.
  rewrite <- !app_assoc. cbn [app]. eexists. split; [reflexivity|].
  split; reflexivity.
Qed.

(** X14.  Once the text is on the clipboard, [type_clipboard] always ends
    by waiting 300 ms and writing back what the first command had read,
    whether or not the paste keystroke succeeded; it returns true exactly
    when the keystroke command exited with 0, and it has slept 350 ms. *)
Theorem clipboard_always_restored (text : string) (w : World)
  (tr : list Effect) :
  let '(_, saved, w1) :=
    run_cmd ["xclip"; "-selection"; "clipboard"; "-o"] CMD_TIMEOUT_MS None
            true w in
  let '(status, _, _) :=
    run_cmd ["xclip"; "-selection"; "clipboard"] CMD_TIMEOUT_MS (Some text)
            false w1 in
  status = 0 ->
  exists new,
    snd (snd (type_clipboard World run_cmd text (w, tr))) = tr ++ new /\
    firstn 3 new
    = [ Run ["xclip"; "-selection"; "clipboard"; "-o"] None;
        Run ["xclip"; "-selection"; "clipboard"] (Some text);
        Sleep CLIPBOARD_SET_DELAY_MS ] /\
    firstn 2 (rev new)
    = [ Run ["xclip"; "-selection"; "clipboard"] (Some saved);
        Sleep CLIPBOARD_RESTORE_DELAY_MS ] /\
    slept new = 350 /\
    exists argv paste_status out w3 w4,
      In (Run argv None) new /\ nth 1 argv "" = "key" /\
      run_cmd argv CMD_TIMEOUT_MS None false w3 = (paste_status, out, w4) /\
      fst (type_clipboard World run_cmd text (w, tr)) = (paste_status =? 0).
Proof.
  unfold type_clipboard, bind, run, ret, fprintf, sleep_for, emit. cbn.
  destruct (run_cmd ["xclip"; "-selection"; "clipboard"; "-o"] CMD_TIMEOUT_MS
              None true w) as [[s0 saved] w1].
  cbn.
  destruct (run_cmd ["xclip"; "-selection"; "clipboard"] CMD_TIMEOUT_MS
              (Some text) false w1) as [[status out] w2].
  cbn. intros ->. cbn.
  run_each; rewrite <- ?app_assoc; cbn [app]; eexists;
    (split; [reflexivity|]); cbn;
    (split; [reflexivity|]); (split; [reflexivity|]);
    (split; [reflexivity|]);
    do 5 eexists; (split; [|split; [|split; [eassumption|]]]);
    cbn; auto 10; try reflexivity;
    repeat match goal with H : (_ =? 0) = _ |- _ => rewrite H end;
    reflexivity.
Qed.

(** X15.  Once the text is on the clipboard exactly one paste keystroke
    is sent.  Without an active window id it is [ctrl+v] with no window
    argument; with one it goes to that window, as [ctrl+shift+v] exactly
    when the window's class name could be read and is a terminal's, and as
    [ctrl+v] otherwise. *)
Theorem paste_key_choice (text : string) (w : World) (tr : list Effect) :
  let '(_, _, w1) :=
    run_cmd ["xclip"; "-selection"; "clipboard"; "-o"] CMD_TIMEOUT_MS None
            true w in
  let '(status, _, w2) :=
    run_cmd ["xclip"; "-selection"; "clipboard"] CMD_TIMEOUT_MS (Some text)
            false w1 in
  status = 0 ->
  let '(ws, wout, w3) :=
    run_cmd ["xdotool"; "getactivewindow"] CMD_TIMEOUT_MS None true w2 in
  let window_id := strip_newlines (if negb (ws =? 0) then "" else wout) in
  let '(cs, cout, _) :=
    run_cmd ["xdotool"; "getwindowclassname"; window_id] CMD_TIMEOUT_MS None
            true w3 in
  let terminal := (cs =? 0) && is_terminal_class (strip_newlines cout) in
  exists new,
    snd (snd (type_clipboard World run_cmd text (w, tr))) = tr ++ new /\
    filter is_key_command (commands new)
    = [ (if empty window_id
         then ["xdotool"; "key"; "--clearmodifiers"; "ctrl+v"]
         else ["xdotool"; "key"; "--clearmodifiers"; "--window"; window_id;
               if terminal then "ctrl+shift+v" else "ctrl+v"], None) ].
Proof.
  unfold type_clipboard, bind, run, ret, fprintf, sleep_for, emit. cbn.
  destruct (run_cmd ["xclip"; "-selection"; "clipboard"; "-o"] CMD_TIMEOUT_MS
              None true w) as [[s0 saved] w1].
  cbn.
  destruct (run_cmd ["xclip"; "-selection"; "clipboard"] CMD_TIMEOUT_MS
              (Some text) false w1) as [[status out] w2].
  cbn. intros ->. cbn.
  destruct (run_cmd ["xdotool"; "getactivewindow"] CMD_TIMEOUT_MS None true w2)
    as [[ws wout] w3].
  cbn [fst snd].
  set (window_id := strip_newlines (if negb (ws =? 0) then "" else wout)).
  destruct (empty window_id) eqn:Ew; cbn [negb fst snd].
  - destruct (run_cmd ["xdotool"; "getwindowclassname"; window_id]
                CMD_TIMEOUT_MS None true w3) as [[cs cout] w4].
    run_each; rewrite <- ?app_assoc; cbn [app]; eexists;
      (split; [reflexivity|reflexivity]).
  - cbn -[is_terminal_class].
    destruct (run_cmd ["xdotool"; "getwindowclassname"; window_id]
                CMD_TIMEOUT_MS None true w3) as [[cs cout] w4].
    cbn -[is_terminal_class].
    destruct (cs =? 0); cbn -[is_terminal_class].
    + destruct (is_terminal_class (strip_newlines cout));
        cbn -[is_terminal_class];
        run_each; rewrite <- ?app_assoc; cbn [app]; eexists;
        (split; [reflexivity|reflexivity]).
    + run_each; rewrite <- ?app_assoc; cbn [app]; eexists;
        (split; [reflexivity|reflexivity]).
Qed.

End Clipboard.

Section ToyDesktop.
Import CType TextOutput.

(** The write to the clipboard fails: two commands, clipboard untouched. *)
Lemma clipboard_write_failure_witness :
  exists new,
    type_clipboard string (toy_desktop true "XTerm") "hello" ("old", [])
    = (false, ("old", [] ++ new)) /\
    commands new
    = [ (["xclip"; "-selection"; "clipboard"; "-o"], None);
        (["xclip"; "-selection"; "clipboard"], Some "hello") ] /\
    slept new = 0.
Proof.
  exact (clipboard_write_failure string (toy_desktop true "XTerm") "hello"
           "old" [] ltac:(discriminate)).
Defined.

(** A working desktop: the last command writes the old clipboard back. *)
Lemma clipboard_always_restored_witness :
  exists new,
    snd (snd (type_clipboard string (toy_desktop false "XTerm") "hello"
                             ("old", []))) = [] ++ new /\
    firstn 2 (rev new)
    = [ Run ["xclip"; "-selection"; "clipboard"] (Some "old");
        Sleep CLIPBOARD_RESTORE_DELAY_MS ].
Proof.
  destruct (clipboard_always_restored string (toy_desktop false "XTerm")
              "hello" "old" [] eq_refl) as (new & H1 & _ & H2 & _).
  exists new. split; [exact H1|exact H2].
Defined.

(** The active window is an XTerm: the terminal paste key goes to it. *)
Lemma paste_key_choice_witness :
  exists new,
    snd (snd (type_clipboard string (toy_desktop false "XTerm") "hello"
                             ("old", []))) = [] ++ new /\
    filter is_key_command (commands new)
    = [ (["xdotool"; "key"; "--clearmodifiers"; "--window"; "42";
          "ctrl+shift+v"], None) ].
Proof.
  exact (paste_key_choice string (toy_desktop false "XTerm") "hello" "old" []
           eq_refl).
Defined.

End ToyDesktop.

(** * Further properties of the main loop *)

Section MainLoop.
Import CType Typer.

Variable float : Type.
Variable vad_simple : list float -> Z -> Z -> float -> float -> bool -> bool.
Variable transcribe : list float -> string.
Variable trim : string -> string.

(** X16.  In IDLE a pending press or signal starts a recording: the
    session is reset ([speech_detected] false, both times set from the
    clock, the audio cleared) and both hotkey flags leave the step clear,
    so the press that started the recording cannot also stop it; a signal
    that was pending beside the press stays pending.  With nothing pending
    the loop sleeps 50 ms and nothing changes. *)
Theorem idle_starts_recording (params : typer_params float)
  (inp : Input float) (s : Loop float) :
  state s = IDLE ->
  let '(s', t) := Typer.step float vad_simple transcribe trim params inp s in
  if Hotkey.m_event_press (hotkey s) || g_sigusr1 s
  then state s' = RECORDING /\ pcmf32 s' = [] /\
       speech_detected s' = false /\
       record_start s' = now inp /\ silence_start s' = Typer.now' float inp /\
       Hotkey.m_event_press (hotkey s') = false /\
       Hotkey.m_event_release (hotkey s') = false /\
       g_sigusr1 s' = Hotkey.m_event_press (hotkey s) && g_sigusr1 s /\
       t = [AudioClear; Log "[recording...]"]
  else state s' = IDLE /\ pcmf32 s' = pcmf32 s /\
       speech_detected s' = speech_detected s /\
       record_start s' = record_start s /\
       silence_start s' = silence_start s /\
       Hotkey.m_event_release (hotkey s')
       = Hotkey.m_event_release (hotkey s) /\
       t = [SleepFor 50].
Proof.
  intros Hst. unfold Typer.step. rewrite Hst.
  unfold idle, poll_toggle, poll_pressed, poll_released,
    Hotkey.poll_pressed, Hotkey.poll_released.
  destruct (Hotkey.m_event_press (hotkey s)) eqn:Ep; cbn.
  - repeat split; auto.
  - destruct (g_sigusr1 s) eqn:Eg; cbn; repeat split; auto.
Qed.

(** What one step can do outside the loop's own variables. *)
Lemma step_effects (params : typer_params float) (inp : Input float)
  (s : Loop float) :
  let '(s', t) := Typer.step float vad_simple transcribe trim params inp s in
  may_follow (state s) (state s') = true /\
  (state s <> TRANSCRIBING -> engine_calls t = [] /\ injected t = []) /\
  (state s <> RECORDING -> vad_calls t = []) /\
  (state s <> IDLE -> record_start s' = record_start s) /\
  Forall (fun pcm => pcm <> []) (engine_calls t) /\
  Forall (fun text => empty text = false) (injected t) /\
  (List.length (injected t) <= List.length (engine_calls t))%nat /\
  (List.length (engine_calls t) <= 1)%nat.
Proof.
  unfold Typer.step. destruct (state s) eqn:Hst.
  - unfold idle, poll_toggle, poll_pressed, poll_released,
      Hotkey.poll_pressed, Hotkey.poll_released.
    destruct (Hotkey.m_event_press (hotkey s)); cbn;
      [|destruct (g_sigusr1 s); cbn];
      rewrite ?Hst; repeat split; auto; try congruence.
  - unfold recording, poll_toggle, poll_pressed, poll_released,
      Hotkey.poll_pressed, Hotkey.poll_released.
    repeat match goal with
           | |- context [if ?c then _ else _] => destruct c; cbn
           end; rewrite ?Hst; repeat split; auto; try congruence.
  - unfold transcribing. cbn [pcmf32 with_pcmf32 speech_detected].
    destruct (audio_get inp _ (pcmf32 s)) as [|x audio].
    + cbn. repeat split; auto; congruence.
    + destruct (speech_detected s); cbn [negb].
      * destruct (empty (trim (transcribe (x :: audio)))) eqn:E; cbn;
          repeat split; auto; try congruence;
          repeat constructor; auto; discriminate.
      * cbn. repeat split; auto; congruence.
Qed.

(** X17.  One step follows the arrows IDLE to RECORDING to TRANSCRIBING to
    IDLE (or stays in IDLE or RECORDING); the engine and the text output
    are used only by a TRANSCRIBING step, the voice-activity check only by
    a RECORDING step, and the start time of the session changes only in
    an IDLE step. *)
Theorem step_follows_arrows (params : typer_params float) (inp : Input float)
  (s : Loop float) :
  let '(s', t) := Typer.step float vad_simple transcribe trim params inp s in
  may_follow (state s) (state s') = true /\
  (state s <> TRANSCRIBING -> engine_calls t = [] /\ injected t = []) /\
  (state s <> RECORDING -> vad_calls t = []) /\
  (state s <> IDLE -> record_start s' = record_start s).
Proof.
  pose proof (step_effects params inp s) as H.
  destruct (Typer.step float vad_simple transcribe trim params inp s)
    as [s' t].
  tauto.
Qed.

Lemma engine_calls_app (t1 t2 : list (Effect float)) :
  engine_calls (t1 ++ t2) = engine_calls t1 ++ engine_calls t2.
Proof. unfold engine_calls. apply flat_map_app. Qed.

Lemma injected_app (t1 t2 : list (Effect float)) :
  injected (t1 ++ t2) = injected t1 ++ injected t2.
Proof. unfold injected. apply flat_map_app. Qed.

(** X18.  Over a whole run of the loop, however long, whatever the
    inputs and whatever the listener thread and the signal handler raise
    in between: no empty text is ever handed to the text output, the
    engine is never called on empty audio, and there are never more typed
    texts than engine calls. *)
Theorem main_loop_types_only_text (params : typer_params float)
  (ins : list (Arrivals * Input float)) (s : Loop float) :
  let '(_, t) :=
    Typer.main_loop float vad_simple transcribe trim params ins s in
  Forall (fun text => empty text = false) (injected t) /\
  Forall (fun pcm => pcm <> []) (engine_calls t) /\
  (List.length (injected t) <= List.length (engine_calls t))%nat.
Proof.
  revert s. induction ins as [|[raised inp] rest IH]; intros s;
    cbn [main_loop].
  - cbn. auto.
  - destruct (Typer.g_running float inp); cbn [negb]; [|cbn; auto].
    destruct (Typer.sdl_ok float inp); cbn [negb]; [|cbn; auto].
    pose proof (step_effects params inp (arrive float raised s)) as H.
    destruct (Typer.step float vad_simple transcribe trim params inp
                (arrive float raised s)) as [s1 t1].
    specialize (IH s1).
    destruct (main_loop float vad_simple transcribe trim params rest s1)
      as [s2 t2].
    destruct H as (_ & _ & _ & _ & He & Hi & Hle & _).
    destruct IH as (Hi' & He' & Hle').
    rewrite injected_app, engine_calls_app, !length_app.
    repeat split; try apply Forall_app; auto. lia.
Qed.

End MainLoop.

Section RecordingPaths.
Import CType Typer.

Variable float : Type.
Variable vad_simple : list float -> Z -> Z -> float -> float -> bool -> bool.
Variable transcribe : list float -> string.
Variable trim : string -> string.

Lemma no_stop_pending (params : typer_params float) (s : Loop float) :
  stop_pending params s = false ->
  (if push_to_talk params then poll_released s else poll_toggle s)
  = (false,
     if push_to_talk params
     then with_hotkey float (Hotkey.set_event_release false (hotkey s)) s
     else with_sigusr1 float false
            (with_hotkey float (Hotkey.set_event_press false (hotkey s)) s)).
Proof.
  unfold stop_pending, poll_released, poll_toggle, poll_pressed,
    Hotkey.poll_released, Hotkey.poll_pressed.
  destruct (push_to_talk params).
  - now intros ->.
  - intros H. apply orb_false_elim in H as [Hp Hg]. rewrite Hp. cbn.
    now rewrite Hg.
Qed.

(** X19.  A recording that reaches [max_record_ms] with no stop pending
    goes to TRANSCRIBING without fetching audio and leaves
    [speech_detected] and the audio as they are, whatever they are; the
    step after it returns to IDLE.  If no speech had been detected that
    step neither calls the engine nor types anything, and the recording
    is discarded; if speech had been detected it calls the engine on the
    audio it fetches, unless there is none. *)
Theorem time_limit_without_speech (params : typer_params float)
  (inp inp2 : Input float) (s : Loop float) :
  state s = RECORDING -> stop_pending params s = false ->
  max_record_ms params <= ms_between (now inp) (record_start s) ->
  let '(s1, t1) := Typer.step float vad_simple transcribe trim params inp s in
  let '(s2, t2) := Typer.step float vad_simple transcribe trim params inp2 s1 in
  state s1 = TRANSCRIBING /\ t1 = [Log "[max recording time reached]"] /\
  speech_detected s1 = speech_detected s /\ pcmf32 s1 = pcmf32 s /\
  record_start s1 = record_start s /\
  state s2 = IDLE /\
  (speech_detected s = false -> engine_calls t2 = [] /\ injected t2 = []) /\
  (speech_detected s = true ->
   engine_calls t2 = if no_samples (pcmf32 s2) then [] else [pcmf32 s2]).
Proof.
  intros Hst Hstop Hmax. unfold Typer.step. rewrite Hst.
  unfold recording. rewrite (no_stop_pending params s Hstop).
  assert (Hge : (ms_between (now inp) (record_start s) >=? max_record_ms params)
                = true) by (apply Z.geb_le; lia).
  destruct (push_to_talk params); cbn [record_start with_hotkey with_sigusr1];
    rewrite Hge; cbn [state with_state];
    unfold transcribing;
    cbn [pcmf32 with_pcmf32 speech_detected with_state with_hotkey with_sigusr1];
    match goal with
    | |- context [audio_get inp2 ?ms ?b] => destruct (audio_get inp2 ms b)
    end; cbn [negb];
    destruct (speech_detected s) eqn:Hsp; cbn [negb];
    try match goal with
        | |- context [empty (trim ?x)] => destruct (empty (trim x))
        end;
    cbn; rewrite ?Hsp; repeat split; auto; intros; discriminate.
Qed.

(** X20.  A recording step with no stop pending and the time limit not
    reached: [speech_detected] is raised exactly by a voice-activity check
    that ran and reported speech, which also restarts the silence clock;
    the step ends the recording exactly when the check ran, speech is (now
    or from before) detected and the silence has lasted [silence_ms];
    otherwise the recording goes on. *)
Theorem auto_stop_needs_speech (params : typer_params float)
  (inp : Input float) (s : Loop float) :
  state s = RECORDING -> stop_pending params s = false ->
  ms_between (now inp) (record_start s) < max_record_ms params ->
  let buf := audio_get inp 2000 [] in
  let ran := Z.of_nat (List.length buf) >=? vad_min_samples in
  let heard :=
    ran && negb (vad_simple buf WHISPER_SAMPLE_RATE 1000 (Typer.vad_thold float params)
                            (Typer.freq_thold float params)
                            (Typer.print_energy float params)) in
  let '(s', t) := Typer.step float vad_simple transcribe trim params inp s in
  speech_detected s' = speech_detected s || heard /\
  silence_start s' = (if heard then now inp else silence_start s) /\
  vad_calls t = (if ran then [buf] else []) /\
  state s' =
    (if ran && speech_detected s'
        && (ms_between (now inp) (silence_start s') >=? silence_ms params)
     then TRANSCRIBING else RECORDING).
Proof.
  intros Hst Hstop Hmax. cbv zeta. unfold Typer.step. rewrite Hst.
  unfold recording. rewrite (no_stop_pending params s Hstop).
  set (s1 := if push_to_talk params then _ else _).
  assert (Hs1 : state s1 = state s /\ speech_detected s1 = speech_detected s /\
                silence_start s1 = silence_start s /\
                record_start s1 = record_start s)
    by (subst s1; destruct (push_to_talk params); cbn; auto).
  clearbody s1. destruct Hs1 as (H1 & H2 & H3 & H4). rewrite H4.
  destruct (Z.geb_spec (ms_between (now inp) (record_start s))
                       (max_record_ms params)) as [|_]; [lia|].
  destruct (Z.of_nat (List.length (audio_get inp 2000 [])) >=? vad_min_samples);
    cbn [andb].
  2:{ cbn. rewrite H1, H2, H3, Hst, orb_false_r. auto. }
  destruct (vad_simple (audio_get inp 2000 []) WHISPER_SAMPLE_RATE 1000
              (Typer.vad_thold float params) (Typer.freq_thold float params)
              (Typer.print_energy float params));
    cbn [negb speech_detected with_speech with_silence_start silence_start].
  - rewrite orb_false_r, H2, H3.
    destruct (speech_detected s); cbn [andb].
    + destruct (ms_between (now inp) (silence_start s) >=? silence_ms params)
        eqn:E; cbn; rewrite ?H1, ?H2, ?H3, ?Hst, ?E; auto.
    + cbn. rewrite ?H1, ?H2, ?H3, ?Hst. auto.
  - rewrite orb_true_r. cbn [andb].
    destruct (ms_between (now inp) (now inp) >=? silence_ms params) eqn:E;
      cbn; rewrite ?H1, ?Hst, ?E; auto.
Qed.

(** X21.  In push-to-talk mode a recording step reads neither the press
    flag nor the signal flag: both keep their value, and with the release
    flag clear, the time limit not reached and too little audio for the
    voice-activity check, the recording simply goes on, whatever is
    pending on them.  In toggle mode the release flag keeps its value. *)
Theorem push_to_talk_ignores_press (params : typer_params float)
  (inp : Input float) (s : Loop float) :
  state s = RECORDING ->
  let '(s', t) := Typer.step float vad_simple transcribe trim params inp s in
  (push_to_talk params = true ->
     Hotkey.m_event_press (hotkey s') = Hotkey.m_event_press (hotkey s) /\
     g_sigusr1 s' = g_sigusr1 s /\
     (Hotkey.m_event_release (hotkey s) = false ->
      ms_between (now inp) (record_start s) < max_record_ms params ->
      Z.of_nat (List.length (audio_get inp 2000 [])) < vad_min_samples ->
      state s' = RECORDING /\ speech_detected s' = speech_detected s)) /\
  (push_to_talk params = false ->
     Hotkey.m_event_release (hotkey s')
     = Hotkey.m_event_release (hotkey s)).
Proof.
  intros Hst. unfold Typer.step. rewrite Hst. unfold recording.
  destruct (push_to_talk params).
  - unfold poll_released, Hotkey.poll_released.
    destruct (Hotkey.m_event_release (hotkey s)) eqn:Er;
      cbn [record_start with_hotkey].
    + destruct (ms_between (now inp) (record_start s) <? 300); cbn;
        (split; [intros _; repeat split; auto; discriminate|discriminate]).
    + destruct (ms_between (now inp) (record_start s) >=? max_record_ms params)
        eqn:E1.
      { cbn -[ms_between]. split; [intros _|discriminate].
        repeat split; auto; intros; exfalso; apply Z.geb_le in E1; lia. }
      destruct (Z.of_nat (List.length (audio_get inp 2000 [])) >=? vad_min_samples)
        eqn:E2.
      * assert (Hno : Z.of_nat (List.length (audio_get inp 2000 []))
                      < vad_min_samples -> False)
          by (apply Z.geb_le in E2; lia).
        repeat match goal with
               | |- context [if ?c then _ else _] => destruct c
               end; cbn -[ms_between vad_min_samples];
          (split; [intros _|discriminate]);
          repeat split; auto; intros; exfalso; auto.
      * cbn -[ms_between vad_min_samples]. rewrite Hst.
        split; [intros _; repeat split; auto|discriminate].
  - unfold poll_toggle, poll_pressed, Hotkey.poll_pressed.
    repeat match goal with
           | |- context [if ?c then _ else _] => destruct c; cbn
           end; (split; [discriminate|reflexivity]).
Qed.

Lemma string_append_assoc (a b c : string) :
  String.append (String.append a b) c = String.append a (String.append b c).
Proof. induction a as [|x a IH]; cbn; [reflexivity|now rewrite IH]. Qed.

Lemma concat_empty_cons (x : string) (segs : list string) :
  String.concat "" (x :: segs) = String.append x (String.concat "" segs).
Proof.
  destruct segs as [|y segs]; cbn; [|reflexivity].
  induction x as [|c x IH]; cbn; congruence.
Qed.

Lemma fold_append_concat (segs : list string) (acc : string) :
  fold_left String.append segs acc
  = String.append acc (String.concat "" segs).
Proof.
  revert acc. induction segs as [|x segs IH]; intros acc.
  - cbn. induction acc as [|c acc IH]; cbn; congruence.
  - cbn [fold_left]. now rewrite IH, string_append_assoc, concat_empty_cons.
Qed.

(** X22.  [transcribe] returns the segment texts joined in order, and the
    empty string when the engine fails.  When the engine fails on a
    recording that has audio and detected speech (with a [trim] that
    leaves the empty string empty), the TRANSCRIBING step has called the
    engine, once and on that audio, types nothing and returns to IDLE. *)
Theorem engine_failure_types_nothing
  (whisper_full : list float -> Z * list string)
  (params : typer_params float) (inp : Input float) (s : Loop float) :
  (forall pcm,
     Transcribe.transcribe whisper_full pcm =
     if fst (whisper_full pcm) =? 0
     then String.concat "" (snd (whisper_full pcm)) else "") /\
  (let audio :=
     audio_get inp
       (Z.min (wrap_int (ms_between (now inp) (record_start s)))
              (max_record_ms params)) (pcmf32 s) in
   trim "" = "" -> state s = TRANSCRIBING -> speech_detected s = true ->
   audio <> [] -> fst (whisper_full audio) <> 0 ->
   let '(s', t) :=
     Typer.step float vad_simple (Transcribe.transcribe whisper_full) trim
                params inp s in
   state s' = IDLE /\ engine_calls t = [audio] /\ injected t = []).
Proof.
  split.
  - intros pcm. unfold Transcribe.transcribe.
    destruct (whisper_full pcm) as [rc segs]. cbn [fst snd].
    destruct (rc =? 0); cbn [negb]; [|reflexivity].
    apply (fold_append_concat segs "").
  - cbv zeta. intros Htrim Hst Hsp Haudio Hfail.
    unfold Typer.step. rewrite Hst. unfold transcribing.
    cbn [pcmf32 with_pcmf32 speech_detected]. rewrite Hsp.
    set (audio := audio_get inp _ (pcmf32 s)) in *.
    assert (Ht : Transcribe.transcribe whisper_full audio = "").
    { unfold Transcribe.transcribe. destruct (whisper_full audio) as [rc segs].
      cbn [fst] in Hfail. destruct (Z.eqb_spec rc 0); [contradiction|].
      reflexivity. }
    destruct audio as [|x audio]; [contradiction|].
    cbn [negb]. rewrite Ht, Htrim. cbn. auto.
Qed.

End RecordingPaths.

Section MainLoopRuns.
Import CType Typer.

Lemma idle_starts_recording_witness :
  let s := with_state Z IDLE Scenario.recording_with_press in
  let '(s', t) :=
    Typer.step Z Scenario.always_speech Scenario.hears_hello trim_whitespace
               Scenario.toggle_params (Scenario.at_ms 7) s in
  state s' = RECORDING /\ record_start s' = 7000000 /\
  Hotkey.m_event_press (hotkey s') = false.
Proof.
  pose proof (idle_starts_recording Z Scenario.always_speech
                Scenario.hears_hello trim_whitespace Scenario.toggle_params
                (Scenario.at_ms 7)
                (with_state Z IDLE Scenario.recording_with_press) eq_refl)
    as H.
  cbv zeta.
  destruct (Typer.step Z _ _ _ _ _ _) as [s' t].
  cbn in H. destruct H as (H1 & _ & _ & H2 & _ & H3 & _).
  split; [exact H1|]. split; [exact H2|exact H3].
Defined.

(** Thirty seconds into a recording with no speech detected: the time
    limit ends it and the next step discards it. *)
Lemma time_limit_without_speech_witness :
  let '(s1, t1) :=
    Typer.step Z Scenario.always_speech Scenario.hears_hello trim_whitespace
               Scenario.toggle_params (Scenario.at_ms 30000)
               Scenario.recording_quiet in
  let '(s2, t2) :=
    Typer.step Z Scenario.always_speech Scenario.hears_hello trim_whitespace
               Scenario.toggle_params (Scenario.at_ms 30001) s1 in
  state s1 = TRANSCRIBING /\ speech_detected s1 = false /\
  state s2 = IDLE /\ engine_calls t2 = [] /\ injected t2 = [].
Proof.
  pose proof (time_limit_without_speech Z Scenario.always_speech
                Scenario.hears_hello trim_whitespace Scenario.toggle_params
                (Scenario.at_ms 30000) (Scenario.at_ms 30001)
                Scenario.recording_quiet eq_refl eq_refl
                ltac:(discriminate)) as H.
  destruct (Typer.step Z _ _ _ _ (Scenario.at_ms 30000) _) as [s1 t1].
  destruct (Typer.step Z _ _ _ _ (Scenario.at_ms 30001) _) as [s2 t2].
  destruct H as (H1 & _ & H2 & _ & _ & H3 & H4 & _).
  destruct (H4 eq_refl) as (H5 & H6).
  split; [exact H1|]. split; [exact H2|]. split; [exact H3|].
  split; [exact H5|exact H6].
Defined.

(** One second into a recording with three samples in the buffer: the
    check does not run and the recording goes on. *)
Lemma auto_stop_needs_speech_witness :
  let '(s', t) :=
    Typer.step Z Scenario.always_speech Scenario.hears_hello trim_whitespace
               Scenario.toggle_params (Scenario.at_ms 1000)
               Scenario.recording_quiet in
  speech_detected s' = false /\ silence_start s' = 0 /\
  vad_calls t = [] /\ state s' = RECORDING.
Proof.
  exact (auto_stop_needs_speech Z Scenario.always_speech
           Scenario.hears_hello trim_whitespace Scenario.toggle_params
           (Scenario.at_ms 1000) Scenario.recording_quiet eq_refl eq_refl
           eq_refl).
Defined.

(** Push-to-talk with a press and a signal pending: both are still
    pending after the step and the recording goes on. *)
Lemma push_to_talk_ignores_press_witness :
  let params := mkParams 0 0 1500 30000 true false in
  let s := with_sigusr1 Z true Scenario.recording_with_press in
  let '(s', t) :=
    Typer.step Z Scenario.always_speech Scenario.hears_hello trim_whitespace
               params (Scenario.at_ms 1000) s in
  Hotkey.m_event_press (hotkey s') = true /\ g_sigusr1 s' = true /\
  state s' = RECORDING.
Proof.
  pose proof (push_to_talk_ignores_press Z Scenario.always_speech
                Scenario.hears_hello trim_whitespace
                (mkParams 0 0 1500 30000 true false) (Scenario.at_ms 1000)
                (with_sigusr1 Z true Scenario.recording_with_press) eq_refl)
    as H.
  cbv zeta.
  destruct (Typer.step Z _ _ _ _ _ _) as [s' t].
  destruct H as (H & _). destruct (H eq_refl) as (Hp & Hg & Hgo).
  destruct (Hgo eq_refl eq_refl eq_refl) as (Hst & _).
  split; [exact Hp|]. split; [exact Hg|exact Hst].
Defined.

(** The engine fails: it was called once, on the three samples, and
    nothing is typed. *)
Lemma engine_failure_types_nothing_witness :
  let '(s', t) :=
    Typer.step Z Scenario.always_speech
               (Transcribe.transcribe (fun _ => (1, ["lost"])))
               trim_whitespace Scenario.toggle_params (Scenario.at_ms 2000)
               Scenario.transcribing_with_speech in
  state s' = IDLE /\ engine_calls t = [[1; 2; 3]] /\ injected t = [].
Proof.
  exact (proj2 (engine_failure_types_nothing Z Scenario.always_speech
                  trim_whitespace (fun _ => (1, ["lost"]))
                  Scenario.toggle_params (Scenario.at_ms 2000)
                  Scenario.transcribing_with_speech)
               eq_refl eq_refl eq_refl ltac:(discriminate)
               ltac:(discriminate)).
Defined.

(** A whole toggle session with nothing pending at the start: the press
    arrives before the second iteration and starts the recording, the
    second press arrives half a second later and stops it, and the text
    the engine heard is typed, trimmed. *)
Lemma main_loop_types_only_text_witness :
  let idle_loop :=
    mkLoop IDLE [] 0 0 false
           (Hotkey.mkListener Hotkey.Impl0 true false false false) false in
  let quiet := mkArrivals false false false in
  let press := mkArrivals true false false in
  let '(s', t) :=
    Typer.main_loop Z Scenario.always_speech Scenario.hears_hello
      trim_whitespace Scenario.toggle_params
      [ (quiet, Scenario.at_ms 0); (press, Scenario.at_ms 50);
        (quiet, Scenario.at_ms 100); (press, Scenario.at_ms 600);
        (quiet, Scenario.at_ms 601) ] idle_loop in
  state s' = IDLE /\ injected t = ["hello"] /\
  engine_calls t = [[1; 2; 3]] /\
  Forall (fun text => CType.empty text = false) (injected t).
Proof.
  pose proof (main_loop_types_only_text Z Scenario.always_speech
                Scenario.hears_hello trim_whitespace Scenario.toggle_params
                [ (mkArrivals false false false, Scenario.at_ms 0);
                  (mkArrivals true false false, Scenario.at_ms 50);
                  (mkArrivals false false false, Scenario.at_ms 100);
                  (mkArrivals true false false, Scenario.at_ms 600);
                  (mkArrivals false false false, Scenario.at_ms 601) ]
                (mkLoop IDLE [] 0 0 false
                   (Hotkey.mkListener Hotkey.Impl0 true false false false)
                   false)) as H.
  cbv zeta.
  remember (Typer.main_loop Z _ _ _ _ _ _) as run eqn:E in *.
  vm_compute in E. subst run. destruct H as (H & _).
  split; [reflexivity|]. split; [reflexivity|]. split; [reflexivity|exact H].
Defined.

End MainLoopRuns.

(** ** The command line *)

Section CommandLine.

Variable float : Type.
Variable stoi : string -> option (Z * Z).
Variable stof : string -> option (float * Z).

Ltac known_option :=
  match goal with
  | |- context [option_kind ?a] =>
      let k := eval vm_compute in (option_kind a) in
      change (option_kind a) with k
  end;
  cbv iota;
  let run := (intros rest; cbn [Cli.typer_params_parse];
              cbv [String.eqb Ascii.eqb Bool.eqb orb]; reflexivity) in
  first
    [ run
    | do 2 eexists; split; revgoals; [ run | intros; reflexivity ]
    | eexists; split; [|split]; revgoals;
      [ run
      | intros H; try discriminate H; intros; reflexivity
      | intros H; try (exfalso; apply H; reflexivity); intros; reflexivity ] ].

Ltac option_named arg s :=
  destruct (String.eqb_spec arg s) as [->|?]; [known_option|].

(** One turn of the loop, read as a table: help, unknown, flag, or an
    option with a value. *)
Lemma parse_turn (arg : string) (p : Cli.typer_params float) :
  match option_kind arg with
  | HelpOption =>
      forall rest, Cli.typer_params_parse float stoi stof (arg :: rest) p
                   = Cli.Exited 0
  | UnknownOption =>
      forall rest, Cli.typer_params_parse float stoi stof (arg :: rest) p
                   = Cli.Exited 1
  | FlagOption =>
      exists (b : bool)
             (set : bool -> Cli.typer_params float -> Cli.typer_params float),
        (forall q, Cli.hotkey float (set b q) = Cli.hotkey float q) /\
        forall rest,
          Cli.typer_params_parse float stoi stof (arg :: rest) p
          = Cli.typer_params_parse float stoi stof rest (set b p)
  | IntOption =>
      exists (get : Cli.typer_params float -> Z)
             (set : Z -> Cli.typer_params float -> Cli.typer_params float),
        (forall v q, Cli.hotkey float (set v q) = Cli.hotkey float q) /\
        (forall rest, Cli.typer_params_parse float stoi stof (arg :: rest) p
         = match rest with
           | [] => Cli.Returned false p
           | v :: rest' =>
               let '(ok, out) := Cli.parse_int stoi v (get p) in
               if negb ok then Cli.Returned false (set out p)
               else Cli.typer_params_parse float stoi stof rest' (set out p)
           end)
  | FloatOption =>
      exists (get : Cli.typer_params float -> float)
             (set : float -> Cli.typer_params float -> Cli.typer_params float),
        (forall v q, Cli.hotkey float (set v q) = Cli.hotkey float q) /\
        (forall rest, Cli.typer_params_parse float stoi stof (arg :: rest) p
         = match rest with
           | [] => Cli.Returned false p
           | v :: rest' =>
               let '(ok, out) := Cli.parse_float float stof v (get p) in
               if negb ok then Cli.Returned false (set out p)
               else Cli.typer_params_parse float stoi stof rest' (set out p)
           end)
  | StringOption =>
      exists (set : string -> Cli.typer_params float -> Cli.typer_params float),
        (arg <> "--hotkey" ->
         forall v q, Cli.hotkey float (set v q) = Cli.hotkey float q) /\
        (arg = "--hotkey" -> forall v q, Cli.hotkey float (set v q) = v) /\
        (forall rest, Cli.typer_params_parse float stoi stof (arg :: rest) p
         = match rest with
           | [] => Cli.Returned false p
           | v :: rest' =>
               Cli.typer_params_parse float stoi stof rest' (set v p)
           end)
  end.
Proof.
  option_named arg "-h".
  option_named arg "--help".
  option_named arg "-t".
  option_named arg "--threads".
  option_named arg "-m".
  option_named arg "--model".
  option_named arg "-l".
  option_named arg "--language".
  option_named arg "-c".
  option_named arg "--capture".
  option_named arg "-ng".
  option_named arg "--no-gpu".
  option_named arg "-fa".
  option_named arg "--flash-attn".
  option_named arg "-nfa".
  option_named arg "--no-flash-attn".
  option_named arg "-tr".
  option_named arg "--translate".
  option_named arg "-ac".
  option_named arg "--audio-ctx".
  option_named arg "--hotkey".
  option_named arg "--push-to-talk".
  option_named arg "--silence-ms".
  option_named arg "--max-record-ms".
  option_named arg "--vad-thold".
  option_named arg "--freq-thold".
  option_named arg "--vad-model".
  option_named arg "--no-clipboard".
  option_named arg "--type-delay-ms".
  option_named arg "--daemon".
  option_named arg "-pe".
  option_named arg "--print-energy".
  repeat match goal with
         | H : arg <> _ |- _ => apply String.eqb_neq in H
         end.
  assert (Hk : option_kind arg = UnknownOption).
  { cbv [option_kind named existsb help_names flag_names int_names
           float_names string_names].
    repeat match goal with
           | H : (arg =? _)%string = false |- _ => rewrite H; clear H
           end.
    reflexivity. }
  rewrite Hk. intros rest. cbn [Cli.typer_params_parse].
  repeat match goal with
         | H : (arg =? _)%string = false |- _ => rewrite H; clear H
         end.
  reflexivity.
Qed.

Lemma parse_app_bounded (n : nat) :
  forall a, (List.length a <= n)%nat ->
  forall b (p : Cli.typer_params float),
    match Cli.typer_params_parse float stoi stof a p with
    | Cli.Returned true p' =>
        Cli.typer_params_parse float stoi stof (a ++ b) p
        = Cli.typer_params_parse float stoi stof b p'
    | Cli.Returned false _ => True
    | Cli.Exited c =>
        Cli.typer_params_parse float stoi stof (a ++ b) p = Cli.Exited c
    end.
Proof.
  induction n as [|n IH]; intros a Hn b p.
  - destruct a; [reflexivity | cbn in Hn; lia].
  - destruct a as [|arg rest]; [reflexivity|].
    cbn [app]. cbn [List.length] in Hn.
    pose proof (parse_turn arg p) as T.
    destruct (option_kind arg).
    + rewrite (T rest), (T (rest ++ b)). reflexivity.
    + destruct T as (bv & set & _ & T).
      rewrite (T rest), (T (rest ++ b)). apply IH. lia.
    + destruct T as (get & set & _ & T).
      rewrite (T rest), (T (rest ++ b)).
      destruct rest as [|v rest']; [exact I|]. cbn [app].
      cbn [List.length] in Hn.
      destruct (Cli.parse_int stoi v (get p)) as [ok out].
      destruct ok; cbn [negb]; [apply IH; lia | exact I].
    + destruct T as (get & set & _ & T).
      rewrite (T rest), (T (rest ++ b)).
      destruct rest as [|v rest']; [exact I|]. cbn [app].
      cbn [List.length] in Hn.
      destruct (Cli.parse_float float stof v (get p)) as [ok out].
      destruct ok; cbn [negb]; [apply IH; lia | exact I].
    + destruct T as (set & _ & _ & T).
      rewrite (T rest), (T (rest ++ b)).
      destruct rest as [|v rest']; [exact I|]. cbn [app].
      cbn [List.length] in Hn. apply IH. lia.
    + rewrite (T rest), (T (rest ++ b)). reflexivity.
Qed.

Lemma parse_app (a b : list string) (p p' : Cli.typer_params float) :
  accepted (Cli.typer_params_parse float stoi stof a p) = Some p' ->
  Cli.typer_params_parse float stoi stof (a ++ b) p
  = Cli.typer_params_parse float stoi stof b p'.
Proof.
  intros H.
  pose proof (parse_app_bounded (List.length a) a (le_n _) b p) as A.
  destruct (Cli.typer_params_parse float stoi stof a p) as [[|] q|c];
    cbn in H; try discriminate H.
  injection H as <-. exact A.
Qed.

(** X23.  The arguments are read from left to right and what follows
    cannot change what was read: when a list of arguments is read to its
    end without error, reading it with more arguments behind it is
    reading those from the parameters reached; when it ends in [exit],
    so does every list that starts with it. *)
Theorem arguments_read_in_order (a b : list string)
    (p : Cli.typer_params float) :
  match Cli.typer_params_parse float stoi stof a p with
  | Cli.Returned true p' =>
      Cli.typer_params_parse float stoi stof (a ++ b) p
      = Cli.typer_params_parse float stoi stof b p'
  | Cli.Returned false _ => True
  | Cli.Exited c =>
      Cli.typer_params_parse float stoi stof (a ++ b) p = Cli.Exited c
  end.
Proof.
  exact (parse_app_bounded (List.length a) a (le_n _) b p).
Qed.

(** X24.  After arguments that were read without error, [-h] or [--help]
    ends the program with status 0 and an argument that is no option
    ends it with status 1, whatever comes behind. *)
Theorem help_and_unknown_exit (a b : list string) (arg : string)
    (p p' : Cli.typer_params float) :
  accepted (Cli.typer_params_parse float stoi stof a p) = Some p' ->
  (option_kind arg = HelpOption ->
   Cli.typer_params_parse float stoi stof (a ++ arg :: b) p = Cli.Exited 0) /\
  (option_kind arg = UnknownOption ->
   Cli.typer_params_parse float stoi stof (a ++ arg :: b) p = Cli.Exited 1).
Proof.
  intros H. rewrite (parse_app a (arg :: b) p p' H).
  pose proof (parse_turn arg p') as T.
  split; intros K; rewrite K in T; apply T.
Qed.

(** X25.  An option that takes a value and stands last, with no value
    behind it, makes the parse fail, with the parameters as the
    arguments before it left them. *)
Theorem missing_value_fails (a : list string) (arg : string)
    (p p' : Cli.typer_params float) :
  accepted (Cli.typer_params_parse float stoi stof a p) = Some p' ->
  option_kind arg = IntOption \/ option_kind arg = FloatOption \/
  option_kind arg = StringOption ->
  Cli.typer_params_parse float stoi stof (a ++ [arg]) p
  = Cli.Returned false p'.
Proof.
  intros H K. rewrite (parse_app a [arg] p p' H).
  pose proof (parse_turn arg p') as T.
  destruct K as [K|[K|K]]; rewrite K in T.
  - destruct T as (get & set & _ & T). apply (T []).
  - destruct T as (get & set & _ & T). apply (T []).
  - destruct T as (set & _ & _ & T). apply (T []).
Qed.

(** X26.  [--hotkey] takes the argument behind it as it stands, also one
    that looks like an option, and the last [--hotkey] wins: given last
    behind arguments read without error, the parse succeeds and only the
    hotkey differs from the parameters reached before. *)
Theorem hotkey_option_verbatim (a : list string) (v : string)
    (p p' : Cli.typer_params float) :
  accepted (Cli.typer_params_parse float stoi stof a p) = Some p' ->
  Cli.typer_params_parse float stoi stof (a ++ ["--hotkey"; v]) p
  = Cli.Returned true (Cli.with_hotkey float v p') /\
  Cli.hotkey float (Cli.with_hotkey float v p') = v.
Proof.
  intros H. rewrite (parse_app a ["--hotkey"; v] p p' H).
  split; reflexivity.
Qed.

Lemma hotkey_kept_bounded (n : nat) :
  forall a, (List.length a <= n)%nat -> ~ In "--hotkey" a ->
  forall (p : Cli.typer_params float) ok p',
    Cli.typer_params_parse float stoi stof a p = Cli.Returned ok p' ->
    Cli.hotkey float p' = Cli.hotkey float p.
Proof.
  induction n as [|n IH]; intros a Hn Hin p ok p' H.
  - destruct a; [|cbn in Hn; lia]. cbn in H. injection H as _ <-. reflexivity.
  - destruct a as [|arg rest].
    { cbn in H. injection H as _ <-. reflexivity. }
    cbn [List.length] in Hn.
    assert (Harg : arg <> "--hotkey") by (intros ->; apply Hin; left; reflexivity).
    assert (Hrest : ~ In "--hotkey" rest) by (intros K; apply Hin; right; exact K).
    pose proof (parse_turn arg p) as T.
    destruct (option_kind arg).
    + rewrite (T rest) in H. discriminate H.
    + destruct T as (bv & set & Hs & T). rewrite (T rest) in H.
      rewrite (IH rest ltac:(lia) Hrest _ _ _ H). apply Hs.
    + destruct T as (get & set & Hs & T). rewrite (T rest) in H.
      destruct rest as [|v rest'].
      { injection H as _ <-. reflexivity. }
      cbn [List.length] in Hn.
      destruct (Cli.parse_int stoi v (get p)) as [k out].
      destruct k; cbn [negb] in H.
      * rewrite (IH rest' ltac:(lia) ltac:(intros K; apply Hrest; right; exact K) _ _ _ H).
        apply Hs.
      * injection H as _ <-. apply Hs.
    + destruct T as (get & set & Hs & T). rewrite (T rest) in H.
      destruct rest as [|v rest'].
      { injection H as _ <-. reflexivity. }
      cbn [List.length] in Hn.
      destruct (Cli.parse_float float stof v (get p)) as [k out].
      destruct k; cbn [negb] in H.
      * rewrite (IH rest' ltac:(lia) ltac:(intros K; apply Hrest; right; exact K) _ _ _ H).
        apply Hs.
      * injection H as _ <-. apply Hs.
    + destruct T as (set & Hs & _ & T). rewrite (T rest) in H.
      destruct rest as [|v rest'].
      { injection H as _ <-. reflexivity. }
      cbn [List.length] in Hn.
      rewrite (IH rest' ltac:(lia) ltac:(intros K; apply Hrest; right; exact K) _ _ _ H).
      apply (Hs Harg).
    + rewrite (T rest) in H. discriminate H.
Qed.

(** X27.  Without [--hotkey] among the arguments the hotkey is the one
    the parameters came with, however the parse returns. *)
Theorem hotkey_kept_without_option (a : list string) (ok : bool)
    (p p' : Cli.typer_params float) :
  ~ In "--hotkey" a ->
  Cli.typer_params_parse float stoi stof a p = Cli.Returned ok p' ->
  Cli.hotkey float p' = Cli.hotkey float p.
Proof.
  intros Hin H.
  exact (hotkey_kept_bounded (List.length a) a (le_n _) Hin p ok p' H).
Qed.

(** X28.  A number option accepts its value exactly when [std::stoi]
    reads the whole of it: behind arguments read without error, a value
    that [std::stoi] rejects or reads only in part makes the parse fail
    whatever follows, and a value read whole lets it go on with what
    follows. *)
Theorem int_option_whole_value (a rest : list string) (arg v : string)
    (p p' : Cli.typer_params float) :
  accepted (Cli.typer_params_parse float stoi stof a p) = Some p' ->
  option_kind arg = IntOption ->
  (match stoi v with
   | Some (_, pos) => pos <> CType.size v
   | None => True
   end ->
   exists q, Cli.typer_params_parse float stoi stof (a ++ arg :: v :: rest) p
             = Cli.Returned false q) /\
  (forall n, stoi v = Some (n, CType.size v) ->
   exists q, Cli.typer_params_parse float stoi stof (a ++ arg :: v :: rest) p
             = Cli.typer_params_parse float stoi stof rest q).
Proof.
  intros H K. rewrite (parse_app a (arg :: v :: rest) p p' H).
  pose proof (parse_turn arg p') as T. rewrite K in T.
  destruct T as (get & set & _ & T). rewrite (T (v :: rest)).
  unfold Cli.parse_int. split.
  - intros Hv. destruct (stoi v) as [[n pos]|].
    + apply Z.eqb_neq in Hv. rewrite Hv. cbn. eexists; reflexivity.
    + cbn. eexists; reflexivity.
  - intros n Hv. rewrite Hv, Z.eqb_refl. cbn. eexists; reflexivity.
Qed.

End CommandLine.

Section CommandLineRuns.

(** [--help] behind a flag, with more behind it; a stray word. *)
Lemma help_and_unknown_exit_witness :
  Invocation.parse ["--push-to-talk"; "--help"; "--threads"]
                   Invocation.defaults = Cli.Exited 0 /\
  Invocation.parse ["--push-to-talk"; "record"; "--help"]
                   Invocation.defaults = Cli.Exited 1.
Proof.
  split.
  - exact (proj1 (help_and_unknown_exit Invocation.float Invocation.stoi
                    Invocation.stof ["--push-to-talk"] ["--threads"] "--help"
                    Invocation.defaults _ eq_refl) eq_refl).
  - exact (proj2 (help_and_unknown_exit Invocation.float Invocation.stoi
                    Invocation.stof ["--push-to-talk"] ["--help"] "record"
                    Invocation.defaults _ eq_refl) eq_refl).
Defined.

(** [--threads] with nothing behind it. *)
Lemma missing_value_fails_witness :
  Invocation.parse ["-ng"; "--threads"] Invocation.defaults
  = Cli.Returned false
      (Cli.with_use_gpu Invocation.float false Invocation.defaults).
Proof.
  exact (missing_value_fails Invocation.float Invocation.stoi Invocation.stof
           ["-ng"] "--threads" Invocation.defaults _ eq_refl
           (or_introl eq_refl)).
Defined.

(** [--hotkey f9 --hotkey --help] neither prints the help nor keeps
    [f9]. *)
Lemma hotkey_option_verbatim_witness :
  Invocation.parse ["--hotkey"; "f9"; "--hotkey"; "--help"]
                   Invocation.defaults
  = Cli.Returned true
      (Cli.with_hotkey Invocation.float "--help"
         (Cli.with_hotkey Invocation.float "f9" Invocation.defaults)) /\
  Cli.hotkey Invocation.float
    (Cli.with_hotkey Invocation.float "--help"
       (Cli.with_hotkey Invocation.float "f9" Invocation.defaults))
  = "--help".
Proof.
  exact (hotkey_option_verbatim Invocation.float Invocation.stoi
           Invocation.stof ["--hotkey"; "f9"] "--help" Invocation.defaults _
           eq_refl).
Defined.

(** A model path and the daemon flag leave [ctrl+period] in place. *)
Lemma hotkey_kept_without_option_witness :
  ~ In "--hotkey" ["--model"; "m.bin"; "--daemon"] /\
  Cli.hotkey Invocation.float
    (Cli.with_daemonize Invocation.float true
       (Cli.with_model Invocation.float "m.bin" Invocation.defaults))
  = "ctrl+period".
Proof.
  assert (Hin : ~ In "--hotkey" ["--model"; "m.bin"; "--daemon"]).
  { cbn. intros [K|[K|[K|[]]]]; discriminate K. }
  split; [exact Hin|].
  exact (hotkey_kept_without_option Invocation.float Invocation.stoi
           Invocation.stof ["--model"; "m.bin"; "--daemon"] true
           Invocation.defaults _ Hin eq_refl).
Defined.

(** [--threads 12abc] fails; [--threads 8] goes on. *)
Lemma int_option_whole_value_witness :
  (exists q, Invocation.parse ["--threads"; "12abc"; "--daemon"]
                              Invocation.defaults = Cli.Returned false q) /\
  (exists q, Invocation.parse ["--threads"; "8"; "--daemon"]
                              Invocation.defaults
             = Invocation.parse ["--daemon"] q).
Proof.
  split.
  - refine (proj1 (int_option_whole_value Invocation.float Invocation.stoi
                     Invocation.stof [] ["--daemon"] "--threads" "12abc"
                     Invocation.defaults _ eq_refl eq_refl) _).
    cbn. discriminate.
  - exact (proj2 (int_option_whole_value Invocation.float Invocation.stoi
                    Invocation.stof [] ["--daemon"] "--threads" "8"
                    Invocation.defaults _ eq_refl eq_refl) 8 eq_refl).
Defined.

End CommandLineRuns.
